(** * OpenNHP js-agent: header codec, packet builder, SM2 and SM4 wrappers

    A shallow embedding of [src/nhp-js/src/nhp.js] (class [NHPHeader],
    [buildNHPPacket], [parseNHPPacket]), of [src/nhp-js/src/crypto/sm2.ts],
    of [src/nhp-js/src/crypto/sm4.ts] and of the Base64 helpers and
    [getUnixNano] of [src/nhp-js/src/utils.js].

    JavaScript values are modelled as the code uses them: a [Uint8Array] or
    [ArrayBuffer] is a [list byte], a Number that holds an integer is a [Z]
    with the 32-bit conversions of the bit operators written out, a BigInt is
    a [Z], an exception is a [Throw] completion.  The functions of
    [./crypto.js], of [./crypto/utils.js] and of the sm-crypto-v2 package are
    not part of the sources: they are fields of the records [Crypto],
    [SmCrypto], [KeyTools] and [Sm4]. *)

From Stdlib Require Import ZArith List String Bool Lia ZifyNat.
From Stdlib.Strings Require Import Byte.
From stdpp Require Import base list.
Import ListNotations.
Local Open Scope Z_scope.

(* ===================================================================== *)
(** * Part I: definitions                                                 *)
(* ===================================================================== *)

Definition bytes := list byte.

(** ** Completions: a JavaScript call returns or throws *)

Inductive JSError : Type :=
| ReferenceError (msg : string)
| TypeError (msg : string)
| RangeError (msg : string)
| Error (msg : string).

Inductive completion (A : Type) : Type :=
| Normal (a : A)
| Throw (e : JSError).
Arguments Normal {A} a.
Arguments Throw {A} e.

Definition cbind {A B} (c : completion A) (k : A -> completion B) : completion B :=
  match c with
  | Normal a => k a
  | Throw e => Throw e
  end.

Definition cmap {A B} (f : A -> B) (c : completion A) : completion B :=
  cbind c (fun a => Normal (f a)).

Declare Scope completion_scope.
Delimit Scope completion_scope with completion.
Notation "'let!' x ':=' c 'in' k" := (cbind c (fun x => k))
  (at level 10, x name, c at level 100, k at level 200) : completion_scope.

(** ** Numbers: the conversions behind [&], [|], [^], [<<], [>>>] *)

Module JS.

(** A primitive in an argument position: [undefined], a Number holding an
    integer, or a BigInt. *)
Inductive Numeric : Type :=
| Undefined
| Number (n : Z)
| BigInt (n : Z).

Definition ToUint32 (n : Z) : Z := n mod 2 ^ 32.
Definition ToInt32 (n : Z) : Z := (n + 2 ^ 31) mod 2 ^ 32 - 2 ^ 31.

(** The operand of a bit operator whose other operand is a Number:
    [undefined] is NaN and converts to 0, a BigInt cannot be mixed. *)
Definition ToInt32_operand (v : Numeric) : completion Z :=
  match v with
  | Undefined => Normal 0
  | Number n => Normal (ToInt32 n)
  | BigInt _ => Throw (TypeError "Cannot mix BigInt and other types, use explicit conversions")
  end.

(** [a << n] on Numbers. *)
Definition shl (a n : Z) : Z := ToInt32 (Z.shiftl (ToInt32 a) (ToUint32 n mod 32)).
(** [a >>> n] on Numbers. *)
Definition ushr (a n : Z) : Z := Z.shiftr (ToUint32 a) (ToUint32 n mod 32).
(** [a & b], [a | b], [a ^ b] on Numbers. *)
Definition band (a b : Z) : Z := Z.land (ToInt32 a) (ToInt32 b).
Definition bor (a b : Z) : Z := Z.lor (ToInt32 a) (ToInt32 b).
Definition bxor (a b : Z) : Z := Z.lxor (ToInt32 a) (ToInt32 b).

(** ToIndex, as applied to the byteOffset of a DataView accessor: an
    integer below 0 or above 2^53 - 1 is out of range. *)
Definition ToIndex (v : Numeric) : completion nat :=
  match v with
  | Undefined => Normal 0%nat
  | Number n =>
      if (n <? 0) || (2 ^ 53 - 1 <? n)
      then Throw (RangeError "Offset is outside the bounds of the DataView")
      else Normal (Z.to_nat n)
  | BigInt _ => Throw (TypeError "Cannot convert a BigInt value to a number")
  end.

(** ToBigInt, as applied to the value of [setBigUint64]. *)
Definition ToBigInt (v : Numeric) : completion Z :=
  match v with
  | Undefined => Throw (TypeError "Cannot convert undefined to a BigInt")
  | Number _ => Throw (TypeError "Cannot convert a Number to a BigInt")
  | BigInt n => Normal n
  end.

(** What is handed to a hash update or sealed: a string or a byte array. *)
Inductive Data : Type :=
| Str (s : string)
| Bytes (b : bytes).

(** The value a function returns to its caller. *)
Inductive Value : Type :=
| VUndefined
| VObject (fields : list (string * Data)).

End JS.

(** ** Bytes and big-endian integers *)

Definition byte_to_Z (b : byte) : Z := Z.of_N (Byte.to_N b).

Definition Z_to_byte (n : Z) : byte :=
  match Byte.of_N (Z.to_N (n mod 256)) with
  | Some b => b
  | None => x00
  end.

(** The [len] low bytes of [n], most significant first. *)
Fixpoint Z_to_be (len : nat) (n : Z) : bytes :=
  match len with
  | O => []
  | S k => Z_to_byte (n / 256 ^ Z.of_nat k) :: Z_to_be k n
  end.

Definition be_to_Z (bs : bytes) : Z :=
  fold_left (fun acc b => acc * 256 + byte_to_Z b) bs 0.

Definition zeros (n : nat) : bytes := replicate n x00.
Arguments zeros : simpl never.

(** [overwrite off src buf]: [buf] with [src] stored from index [off] on
    (used where the caller has checked that it fits). *)
Definition overwrite (off : nat) (src buf : bytes) : bytes :=
  take off buf ++ src ++ drop (off + length src) buf.

(** [a.subarray(b, e)] for [0 <= b <= e]: clamped to the array. *)
Definition subarray (b e : nat) (a : bytes) : bytes := take (e - b) (drop b a).

(** [target.set(src, at)] of a typed array: throws when [src] does not fit. *)
Definition typed_array_set (target src : bytes) (at_ : nat) : completion bytes :=
  if (at_ + length src <=? length target)%nat
  then Normal (overwrite at_ src target)
  else Throw (RangeError "offset is out of bounds").

(** ** The host: what the free identifiers of nhp.js resolve to

    [nhp.js] declares no [Header], imports no [stringToBytes] (line 1 only
    re-exports it) and declares no [buffer]; [SubtleCrypto] has no
    [getRandomValues].  What these evaluate to is the host's business. *)

Record Host : Type := {
  (** [Header.SIZE], when the global scope binds [Header] *)
  global_Header_SIZE : option nat;
  (** whether [window.crypto.subtle.getRandomValues] is a function *)
  subtle_getRandomValues : bool;
  (** [stringToBytes], when the global scope binds it *)
  global_stringToBytes : option (string -> bytes);
  (** the bytes of [buffer], when the global scope binds it *)
  global_buffer : option bytes
}.

(** A browser as the standards describe it. *)
Definition standard_host : Host :=
  {| global_Header_SIZE := None;
     subtle_getRandomValues := false;
     global_stringToBytes := None;
     global_buffer := None |}.

(** ** DataView: a window of [byteLength] bytes at [byteOffset] of a buffer *)

Module DataView.
Import JS.
Local Open Scope completion_scope.

Record t : Type := {
  byteOffset : nat;
  byteLength : nat
}.

(** new DataView(buffer, byteOffset, byteLength) *)
Definition create (buffer : bytes) (byteOffset byteLength : nat) : completion t :=
  if (byteOffset + byteLength <=? length buffer)%nat
  then Normal {| byteOffset := byteOffset; byteLength := byteLength |}
  else Throw (RangeError "Invalid DataView length").

Definition store (v : t) (requestIndex : Numeric) (src : bytes) (buffer : bytes)
  : completion bytes :=
  let! i := ToIndex requestIndex in
  if (i + length src <=? byteLength v)%nat
  then Normal (overwrite (byteOffset v + i) src buffer)
  else Throw (RangeError "Offset is outside the bounds of the DataView").

Definition load (v : t) (requestIndex : Numeric) (len : nat) (buffer : bytes)
  : completion bytes :=
  let! i := ToIndex requestIndex in
  if (i + len <=? byteLength v)%nat
  then Normal (take len (drop (byteOffset v + i) buffer))
  else Throw (RangeError "Offset is outside the bounds of the DataView").

(** Multi-byte accessors are big-endian: no littleEndian argument is passed. *)
Definition getUint8 (v : t) (requestIndex : Numeric) (buffer : bytes) : completion Z :=
  cmap be_to_Z (load v requestIndex 1 buffer).
Definition getUint16 (v : t) (requestIndex : Numeric) (buffer : bytes) : completion Z :=
  cmap be_to_Z (load v requestIndex 2 buffer).
Definition getUint32 (v : t) (requestIndex : Numeric) (buffer : bytes) : completion Z :=
  cmap be_to_Z (load v requestIndex 4 buffer).
Definition setUint32 (v : t) (requestIndex : Numeric) (value : Z) (buffer : bytes) :=
  store v requestIndex (Z_to_be 4 (ToUint32 value)) buffer.
Definition setUint8 (v : t) (requestIndex : Numeric) (value : Z) (buffer : bytes) :=
  store v requestIndex (Z_to_be 1 (value mod 256)) buffer.
Definition getBigUint64 (v : t) (requestIndex : Numeric) (buffer : bytes) : completion Z :=
  cmap be_to_Z (load v requestIndex 8 buffer).
(** setBigUint64(byteOffset, value): ToIndex(byteOffset), then ToBigInt(value),
    then the bounds check. *)
Definition setBigUint64 (v : t) (requestIndex value : Numeric) (buffer : bytes)
  : completion bytes :=
  let! i := ToIndex requestIndex in
  let! n := ToBigInt value in
  store v (Number (Z.of_nat i)) (Z_to_be 8 (n mod 2 ^ 64)) buffer.

End DataView.

(** ** class NHPHeader *)

Module NHPHeader.
Import JS.
Local Open Scope completion_scope.

Definition SIZE : nat := 240.

(** [this.view = new DataView(buffer, offset, Header.SIZE)] and
    [this.bytes = new Uint8Array(buffer, offset)]: two views of one buffer,
    which is passed to every accessor. *)
Record t : Type := {
  view : DataView.t;
  bytes_offset : nat
}.

(** constructor(buffer, offset = 0): the class is [NHPHeader], the
    identifier evaluated is [Header]. *)
Definition constructor (host : Host) (buffer : bytes) (offset : nat) : completion t :=
  match global_Header_SIZE host with
  | None => Throw (ReferenceError "Header is not defined")
  | Some n =>
      let! v := DataView.create buffer offset n in
      Normal {| view := v; bytes_offset := offset |}
  end.

(** *** [this.bytes]: the buffer from [offset] on *)

Definition bytes_view (h : t) (buffer : bytes) : bytes := drop (bytes_offset h) buffer.

(** [this.bytes.set(src, at)] *)
Definition bytes_set (h : t) (src : bytes) (at_ : nat) (buffer : bytes) : completion bytes :=
  if (at_ + length src <=? length (bytes_view h buffer))%nat
  then Normal (overwrite (bytes_offset h + at_) src buffer)
  else Throw (RangeError "offset is out of bounds").

(** *** typeAndPayloadSize *)

(** get typeAndPayloadSize() *)
Definition get_typeAndPayloadSize (h : t) (buffer : bytes) : completion (Z * Z) :=
  let! a := DataView.getUint32 (view h) (Number 0) buffer in
  let! b := DataView.getUint32 (view h) (Number 4) buffer in
  let val := ushr (bxor a b) 0 in
  Normal (ushr (ushr (band val 0xFFFF0000) 16) 0, ushr (band val 0x0000FFFF) 0).

(** set typeAndPayloadSize({type, size}); [rnd] is what the random source
    stores into [preamble] when it exists.  In
    [type & 0x0000FFFF << 16 | size & 0x0000FFFF] the shift binds tighter
    than [&], which binds tighter than [|]. *)
Definition set_typeAndPayloadSize (host : Host) (rnd : Z) (h : t)
    (type size : Numeric) (buffer : bytes) : completion bytes :=
  let! preamble0 := (if subtle_getRandomValues host then Normal (ToUint32 rnd)
                 else Throw (TypeError "window.crypto.subtle.getRandomValues is not a function")) in
  let! ty := ToInt32_operand type in
  let! sz := ToInt32_operand size in
  let tns := ushr (bor (band ty (shl 0x0000FFFF 16)) (band sz 0x0000FFFF)) 0 in
  let tns := ushr (bxor preamble0 tns) 0 in
  let! buffer := DataView.setUint32 (view h) (Number 0) preamble0 buffer in
  DataView.setUint32 (view h) (Number 4) tns buffer.

(** The same setter store by store, for a caller in whose buffer the first
    store stays when the second throws: the setter up to the store of the
    preamble at byte 0, and its store of the masked word at byte 4. *)
Definition typeAndPayloadSize_store_0 (host : Host) (rnd : Z) (h : t)
    (type size : Numeric) (buffer : bytes) : completion bytes :=
  let! preamble0 := (if subtle_getRandomValues host then Normal (ToUint32 rnd)
                 else Throw (TypeError "window.crypto.subtle.getRandomValues is not a function")) in
  let! ty := ToInt32_operand type in
  let! sz := ToInt32_operand size in
  DataView.setUint32 (view h) (Number 0) preamble0 buffer.

Definition typeAndPayloadSize_store_4 (host : Host) (rnd : Z) (h : t)
    (type size : Numeric) (buffer : bytes) : completion bytes :=
  let! preamble0 := (if subtle_getRandomValues host then Normal (ToUint32 rnd)
                 else Throw (TypeError "window.crypto.subtle.getRandomValues is not a function")) in
  let! ty := ToInt32_operand type in
  let! sz := ToInt32_operand size in
  let tns := ushr (bor (band ty (shl 0x0000FFFF 16)) (band sz 0x0000FFFF)) 0 in
  let tns := ushr (bxor preamble0 tns) 0 in
  DataView.setUint32 (view h) (Number 4) tns buffer.

(** *** version, flags, counter, nonce *)

(** get version() *)
Definition get_version (h : t) (buffer : bytes) : completion (Z * Z) :=
  let! major := DataView.getUint8 (view h) (Number 8) buffer in
  let! minor := DataView.getUint8 (view h) (Number 9) buffer in
  Normal (major, minor).

(** set version({major, minor}) *)
Definition set_version (h : t) (major minor : Z) (buffer : bytes) : completion bytes :=
  let! buffer := DataView.setUint8 (view h) (Number 8) major buffer in
  DataView.setUint8 (view h) (Number 9) minor buffer.

(** Its two stores one by one. *)
Definition version_store_8 (h : t) (major : Z) (buffer : bytes) : completion bytes :=
  DataView.setUint8 (view h) (Number 8) major buffer.
Definition version_store_9 (h : t) (minor : Z) (buffer : bytes) : completion bytes :=
  DataView.setUint8 (view h) (Number 9) minor buffer.

(** get flags(): (extended, compressed) *)
Definition get_flags (h : t) (buffer : bytes) : completion (bool * bool) :=
  let! flag := DataView.getUint16 (view h) (Number 10) buffer in
  Normal (negb (ushr (band flag 0x1) 0 =? 0), negb (ushr (band flag 0x2) 0 =? 0)).

(** set flags({extended, compressed}): its first statement,
    [const flag = Uint16Array(1)], calls the constructor without [new]. *)
Definition set_flags (h : t) (extended compressed : bool) (buffer : bytes)
  : completion bytes :=
  Throw (TypeError "Constructor Uint16Array requires 'new'").

(** get counter() *)
Definition get_counter (h : t) (buffer : bytes) : completion Z :=
  DataView.getBigUint64 (view h) (Number 16) buffer.

(** set counter(v) { this.view.setBigUint64(v); } : [v] is passed as the
    byteOffset, and no value is passed. *)
Definition set_counter (h : t) (v : Numeric) (buffer : bytes) : completion bytes :=
  DataView.setBigUint64 (view h) v Undefined buffer.

(** get nonce() *)
Definition get_nonce (h : t) (buffer : bytes) : bytes :=
  overwrite 4 (subarray 16 24 (bytes_view h buffer)) (zeros 12).

(** *** The five byte-array fields *)

Inductive field : Type := ephermeral | identity | static | timestamp | hmac.

Definition get_ephermeral (h : t) (buffer : bytes) := subarray 24 (24 + 32) (bytes_view h buffer).
Definition set_ephermeral (h : t) (b : bytes) (buffer : bytes) : completion bytes :=
  if (length b =? 32)%nat then bytes_set h b 24 buffer else Normal buffer.

Definition get_identity (h : t) (buffer : bytes) := subarray 56 (56 + 80) (bytes_view h buffer).
Definition set_identity (h : t) (b : bytes) (buffer : bytes) : completion bytes :=
  if (length b =? 80)%nat then bytes_set h b 56 buffer else Normal buffer.

Definition get_static (h : t) (buffer : bytes) := subarray 136 (136 + 48) (bytes_view h buffer).
Definition set_static (h : t) (b : bytes) (buffer : bytes) : completion bytes :=
  if (length b =? 48)%nat then bytes_set h b 136 buffer else Normal buffer.

Definition get_timestamp (h : t) (buffer : bytes) := subarray 184 (184 + 24) (bytes_view h buffer).
Definition set_timestamp (h : t) (b : bytes) (buffer : bytes) : completion bytes :=
  if (length b =? 24)%nat then bytes_set h b 184 buffer else Normal buffer.

Definition get_hmac (h : t) (buffer : bytes) := subarray 208 (208 + 32) (bytes_view h buffer).
Definition set_hmac (h : t) (b : bytes) (buffer : bytes) : completion bytes :=
  if (length b =? 32)%nat then bytes_set h b 208 buffer else Normal buffer.

(** The setter and the fixed width of each field, by name. *)
Definition setter (f : field) : t -> bytes -> bytes -> completion bytes :=
  match f with
  | ephermeral => set_ephermeral
  | identity => set_identity
  | static => set_static
  | timestamp => set_timestamp
  | hmac => set_hmac
  end.

Definition width (f : field) : nat :=
  match f with
  | ephermeral => 32
  | identity => 80
  | static => 48
  | timestamp => 24
  | hmac => 32
  end%nat.

(** The getter and the first byte of each field, by name. *)
Definition getter (f : field) : t -> bytes -> bytes :=
  match f with
  | ephermeral => get_ephermeral
  | identity => get_identity
  | static => get_static
  | timestamp => get_timestamp
  | hmac => get_hmac
  end.

Definition start (f : field) : nat :=
  match f with
  | ephermeral => 24
  | identity => 56
  | static => 136
  | timestamp => 184
  | hmac => 208
  end%nat.

End NHPHeader.

(** ** Stateful code: a state and exception monad

    [M S A]: a computation over a store [S] that returns an [A] or throws;
    what was done to the store before a throw stays done. *)

Definition M (S A : Type) : Type := S -> completion A * S.

Definition ret {S A} (a : A) : M S A := fun s => (Normal a, s).
Definition throw {S A} (e : JSError) : M S A := fun s => (Throw e, s).
Definition lift {S A} (c : completion A) : M S A := fun s => (c, s).
Definition gets {S A} (f : S -> A) : M S A := fun s => (Normal (f s), s).
Definition modify {S} (f : S -> S) : M S unit := fun s => (Normal tt, f s).

Definition bind {S A B} (m : M S A) (k : A -> M S B) : M S B :=
  fun s =>
    match m s with
    | (Normal a, s') => k a s'
    | (Throw e, s') => (Throw e, s')
    end.

Declare Scope js_scope.
Delimit Scope js_scope with js.
Notation "'let*' x ':=' m 'in' k" := (bind m (fun x => k))
  (at level 10, x name, m at level 100, k at level 200) : js_scope.
Notation "m ';;' k" := (bind m (fun _ => k))
  (at level 100, k at level 200, right associativity) : js_scope.

(** ** ./crypto.js and the sources of randomness and time

    [crypto.js] is imported by nhp.js and is not among the sources: its
    functions are the fields of [Crypto].  The key importers take text from
    the caller and may throw; the other functions are taken to return, and
    what nhp.js does when one of them throws is not modelled. *)

Record Crypto : Type := {
  CryptoKey : Type;
  Hasher : Type;
  base64To25519PrivateKey : string -> completion CryptoKey;
  base64To25519PublicKey : string -> completion CryptoKey;
  x25519PublicKeyToBytes : CryptoKey -> bytes;
  ecdhX25519 : CryptoKey -> CryptoKey -> CryptoKey;
  mixKey : bytes -> bytes -> bytes;
  keyGen2 : bytes -> bytes -> bytes * bytes;
  chacha20Seal : bytes -> bytes -> JS.Data -> bytes -> bytes;
  newSHA256Hash : Hasher;
  updateSHA256 : Hasher -> JS.Data -> Hasher;
  sumSHA256 : Hasher -> bytes
}.

(** What one call draws from outside: the random preamble, the generated
    ephemeral key pair, and the two clock readings of [getUnixNano]:
    [Date.now()] and [Math.floor((performance.now() % 1) * 1_000_000)]. *)
Record Draws (C : Crypto) : Type := {
  random_preamble : Z;
  generated_publicKey : CryptoKey C;
  generated_privateKey : CryptoKey C;
  Date_now : Z;
  performance_now_fraction : Z
}.
Arguments random_preamble {C} d.
Arguments generated_publicKey {C} d.
Arguments generated_privateKey {C} d.
Arguments Date_now {C} d.
Arguments performance_now_fraction {C} d.

(** utils.js, getUnixNano: [BigInt(ms) * 1_000_000n + BigInt(Math.floor(subMs * 1_000_000))] *)
Definition getUnixNano {C} (d : Draws C) : Z :=
  Date_now d * 1000000 + performance_now_fraction d.

(** ** The store of nhp.js *)

Inductive hasher_name : Type := hmacHasher | chainHasher.

(** One entry per call into crypto.js, in the order of the calls. *)
Inductive Event : Type :=
| E_base64To25519PrivateKey (b64 : string)
| E_base64To25519PublicKey (b64 : string)
| E_newSHA256Hash (h : hasher_name)
| E_updateSHA256 (h : hasher_name) (data : JS.Data)
| E_sumSHA256 (h : hasher_name) (digest : bytes)
| E_mixKey (chainKey ikm : bytes)
| E_generateX25519KeyPair
| E_x25519PublicKeyToBytes (raw : bytes)
| E_ecdhX25519
| E_keyGen2 (chainKey ikm : bytes)
| E_chacha20Seal (key nonce : bytes) (plaintext : JS.Data) (ad : bytes).

(** [GlobalCounter] is the module-level [BigUint64Array(1)]; [packet] is the
    buffer that the running call allocated, seen through [packet],
    [header.view] and [header.bytes] alike; [trace] is the call log. *)
Record State : Type := {
  GlobalCounter : Z;
  packet : bytes;
  trace : list Event
}.

Definition PacketBufferSize : nat := 4096.
Definition InitialChainKeyString : string := "NHP keygen v.20230421@clouddeep.cn".
Definition InitialHashString : string := "NHP hashgen v.20230421@deepcloudsdp.com".

Definition set_packet (p : bytes) (st : State) : State :=
  {| GlobalCounter := GlobalCounter st; packet := p; trace := trace st |}.
Definition set_GlobalCounter (c : Z) (st : State) : State :=
  {| GlobalCounter := c; packet := packet st; trace := trace st |}.
Definition log (e : Event) (st : State) : State :=
  {| GlobalCounter := GlobalCounter st; packet := packet st; trace := trace st ++ [e] |}.

(** One store into the packet buffer of the store, by an accessor of the
    header or by the typed array: it is made, or it throws and the buffer
    is as it was. *)
Definition on_packet (f : bytes -> completion bytes) : M State unit :=
  fun st =>
    match f (packet st) with
    | Normal p => (Normal tt, set_packet p st)
    | Throw e => (Throw e, st)
    end.

(** [a.set(src)] on a local array [a]. *)
Definition local_set (a src : bytes) : M State bytes := lift (typed_array_set a src 0).

(** The calls that derive or use key material. *)
Definition is_key_operation (e : Event) : bool :=
  match e with
  | E_mixKey _ _ | E_keyGen2 _ _ | E_ecdhX25519 | E_generateX25519KeyPair
  | E_chacha20Seal _ _ _ _ => true
  | _ => false
  end.

(** ** nhp.js: buildNHPPacket and parseNHPPacket *)

Section Build.
Context (C : Crypto) (host : Host) (d : Draws C).
Import JS.
Local Open Scope js_scope.

(** A call into crypto.js: logged, then its result. *)
Definition call {A} (e : Event) (result : completion A) : M State A :=
  modify (log e) ;; lift result.

(** The identifier [stringToBytes] applied to a string. *)
Definition stringToBytes (s : string) : M State bytes :=
  match global_stringToBytes host with
  | None => throw (ReferenceError "stringToBytes is not defined")
  | Some f => ret (f s)
  end.

(** [new Uint8Array(buffer)] at line 161: the identifier is [buffer], the
    array filled two lines above is [tsBuf]. *)
Definition Uint8Array_of_buffer : M State bytes :=
  match global_buffer host with
  | None => throw (ReferenceError "buffer is not defined")
  | Some b => ret b
  end.

Definition update (name : hasher_name) (h : Hasher C) (data : Data) : M State (Hasher C) :=
  call (E_updateSHA256 name data) (Normal (updateSHA256 C h data)).

Definition sum (name : hasher_name) (h : Hasher C) : M State bytes :=
  call (E_sumSHA256 name (sumSHA256 C h)) (Normal (sumSHA256 C h)).

Definition seal (key nonce : bytes) (plaintext : Data) (ad : bytes) : M State bytes :=
  call (E_chacha20Seal key nonce plaintext ad) (Normal (chacha20Seal C key nonce plaintext ad)).

Definition derive2 (chainKey ikm : bytes) : M State (bytes * bytes) :=
  call (E_keyGen2 chainKey ikm) (Normal (keyGen2 C chainKey ikm)).

Definition toBytes (k : CryptoKey C) : M State bytes :=
  call (E_x25519PublicKeyToBytes (x25519PublicKeyToBytes C k)) (Normal (x25519PublicKeyToBytes C k)).

(** Lines 117 to 175 of buildNHPPacket: what follows [header.counter = ...]. *)
Definition build_handshake (header : NHPHeader.t) (localPrivKey remotePubKey : CryptoKey C)
    (publicKey remotePublicKey : string) (msg : bytes) : M State bytes :=
  (* 117 *) let* nonce := gets (fun st => NHPHeader.get_nonce header (packet st)) in
  (* 119 *) let chainKey := zeros 32 in
  (* 120 *) let chainHash := zeros 32 in
  (* 121 *) let* hmacH := call (E_newSHA256Hash hmacHasher) (Normal (newSHA256Hash C)) in
  (* 122 *) let* chainH := call (E_newSHA256Hash chainHasher) (Normal (newSHA256Hash C)) in
  (* 124 *) let* s := stringToBytes InitialHashString in
            let* hmacH := update hmacHasher hmacH (Bytes s) in
  (* 125 *) let* s := stringToBytes InitialHashString in
            let* chainH := update chainHasher chainH (Bytes s) in
  (* 126 *) let* digest := sum chainHasher chainH in
            let* chainHash := local_set chainHash digest in
  (* 127 *) let* s := stringToBytes InitialChainKeyString in
            let* k := call (E_mixKey chainHash s) (Normal (mixKey C chainHash s)) in
            let* chainKey := local_set chainKey k in
  (* 129 *) let* hmacH := update hmacHasher hmacH (Str remotePublicKey) in
  (* 130 *) let* chainH := update chainHasher chainH (Str remotePublicKey) in
  (* 132 *) let* _ := call E_generateX25519KeyPair (Normal tt) in
  (* 133 *) let* ePublickey := toBytes (generated_publicKey d) in
  (* 134 *) on_packet (NHPHeader.set_ephermeral header ePublickey) ;;
  (* 135 *) let* chainH := update chainHasher chainH (Bytes ePublickey) in
  (* 136 *) let* digest := sum chainHasher chainH in
            let* chainHash := local_set chainHash digest in
  (* 137 *) let* k := call (E_mixKey chainKey ePublickey) (Normal (mixKey C chainKey ePublickey)) in
            let* chainKey := local_set chainKey k in
  (* 139 *) let* essKey := call E_ecdhX25519 (Normal (ecdhX25519 C (generated_privateKey d) remotePubKey)) in
  (* 140 *) let* ess := toBytes essKey in
  (* 143 *) let* derivedKeys0 := derive2 chainKey ess in
  (* 144 *) let* chainKey := local_set chainKey (fst derivedKeys0) in
  (* 145 *) let* keyStatic := seal (snd derivedKeys0) nonce (Str publicKey) chainHash in
  (* 146 *) on_packet (NHPHeader.set_static header keyStatic) ;;
  (* 148 *) let* chainH := update chainHasher chainH (Bytes keyStatic) in
  (* 149 *) let* digest := sum chainHasher chainH in
            let* chainHash := local_set chainHash digest in
  (* 151 *) let* ssKey := call E_ecdhX25519 (Normal (ecdhX25519 C localPrivKey remotePubKey)) in
  (* 152 *) let* ss := toBytes ssKey in
  (* 155 *) let* derivedKeys1 := derive2 chainKey ss in
  (* 156 *) let* chainKey := local_set chainKey (fst derivedKeys1) in
  (* 158 *) let tsBuf := zeros 8 in
  (* 159 *) let* tsView := lift (DataView.create tsBuf 0 8) in
  (* 160 *) let* tsBuf := lift (DataView.setBigUint64 tsView (Number 0) (BigInt (getUnixNano d)) tsBuf) in
  (* 161 *) let* ts := Uint8Array_of_buffer in
  (* 163 *) let* tsStatic := seal (snd derivedKeys1) nonce (Bytes ts) chainHash in
  (* 164 *) on_packet (NHPHeader.set_timestamp header tsStatic) ;;
  (* 167 *) let* derivedKeys2 := derive2 chainKey tsStatic in
  (* 168 *) let* chainKey := local_set chainKey (fst derivedKeys2) in
  (* 169 *) let* chainH := update chainHasher chainH (Bytes tsStatic) in
  (* 170 *) let* digest := sum chainHasher chainH in
            let* chainHash := local_set chainHash digest in
  (* 172 *) let* msgStatic := seal (snd derivedKeys2) nonce (Bytes msg) chainHash in
  (* 173 *) on_packet (fun p => typed_array_set p msgStatic 240) ;;
  (* 175 *) gets (fun st => subarray 0 (240 + length msg + 16) (packet st)).

(** Lines 105 to 116 of buildNHPPacket: the buffer, the header, the keys,
    the type and version fields and the counter.  It hands the header and
    the two keys used later to the rest of the function. *)
Definition build_prologue (type : Numeric) (privateKey publicKey remotePublicKey : string)
    (msg : bytes) : M State (NHPHeader.t * CryptoKey C * CryptoKey C) :=
  (* 105 *) modify (set_packet (zeros PacketBufferSize)) ;;
  (* 106 *) let* header := (fun st => (NHPHeader.constructor host (packet st) 0, st)) in
  (* 108 *) let* localPrivKey := call (E_base64To25519PrivateKey privateKey)
                                      (base64To25519PrivateKey C privateKey) in
  (* 109 *) let* localPubKey := call (E_base64To25519PublicKey publicKey)
                                     (base64To25519PublicKey C publicKey) in
  (* 110 *) let* remotePubKey := call (E_base64To25519PublicKey remotePublicKey)
                                      (base64To25519PublicKey C remotePublicKey) in
  (* 112 *) let payloadSize := (length msg + 16)%nat in
  (* 113: the object literal is {type, payloadSize}; the setter reads the
          properties [type] and [size], and the literal has no [size]; its
          two stores go into the packet buffer one after the other *)
            on_packet (NHPHeader.typeAndPayloadSize_store_0 host (random_preamble d) header
                         type Undefined) ;;
            on_packet (NHPHeader.typeAndPayloadSize_store_4 host (random_preamble d) header
                         type Undefined) ;;
  (* 114: the two stores of the setter of the version *)
            on_packet (NHPHeader.version_store_8 header 1) ;;
            on_packet (NHPHeader.version_store_9 header 0) ;;
  (* 115 *) modify (fun st => set_GlobalCounter ((GlobalCounter st + 1) mod 2 ^ 64) st) ;;
  (* 116 *) let* c := gets GlobalCounter in
            on_packet (NHPHeader.set_counter header (BigInt c)) ;;
  ret (header, localPrivKey, remotePubKey).

(** export async function buildNHPPacket(type, privateKey, publicKey, remotePublicKey, msg):
    the keys are Base64 text, [msg] is a byte array.  A rejected promise is a
    [Throw]. *)
Definition buildNHPPacket (type : Numeric) (privateKey publicKey remotePublicKey : string)
    (msg : bytes) : M State bytes :=
  let* vars := build_prologue type privateKey publicKey remotePublicKey msg in
  let '(header, localPrivKey, remotePubKey) := vars in
  build_handshake header localPrivKey remotePubKey publicKey remotePublicKey msg.

(** export async function parseNHPPacket(bytes) { } *)
Definition parseNHPPacket (received : bytes) : M State Value :=
  ret VUndefined.

End Build.


(** ** crypto/sm2.ts: sm2ECDH *)

Module SM2.
Local Open Scope js_scope.

Definition SM2_PRIVATE_KEY_SIZE : nat := 32.
Definition SM2_PUBLIC_KEY_SIZE : nat := 64.

(** What sm2.ts imports and the sources do not contain: [bytesToHex] of
    crypto/utils.js and [sm2.ecdh] of the sm-crypto-v2 package. *)
Record SmCrypto : Type := {
  bytesToHex : bytes -> string;
  sm2_ecdh : string -> string -> completion bytes
}.

(** The store of sm2ECDH: the calls made to [sm2.ecdh], in order. *)
Inductive LibCall : Type :=
| Call_sm2_ecdh (privateKeyHex publicKeyHex : string).

(** [a.slice(b, e)] for [0 <= b <= e]. *)
Definition slice (b e : nat) (a : bytes) : bytes := take (e - b) (drop b a).

(** export function sm2ECDH(privateKey: Uint8Array, publicKey: Uint8Array): Uint8Array *)
Definition sm2ECDH (lib : SmCrypto) (privateKey publicKey : bytes) : M (list LibCall) bytes :=
  if negb (length privateKey =? SM2_PRIVATE_KEY_SIZE)%nat
  then throw (Error "SM2 private key must be 32 bytes")
  else if negb (length publicKey =? SM2_PUBLIC_KEY_SIZE)%nat
  then throw (Error "SM2 public key must be 64 bytes")
  else
    let privateKeyHex := bytesToHex lib privateKey in
    let publicKeyHex := String.append "04" (bytesToHex lib publicKey) in
    let* sharedSecret :=
      (fun calls => (sm2_ecdh lib privateKeyHex publicKeyHex,
                     calls ++ [Call_sm2_ecdh privateKeyHex publicKeyHex])) in
    ret (slice 0 32 sharedSecret).

(** *** The key functions of sm2.ts *)

Local Open Scope completion_scope.

(** What they import besides: [hexToBytes], [bytesToBase64] and
    [base64ToBytes] of crypto/utils.js, and [sm2.getPublicKeyFromPrivateKey]
    of the package; any of them may throw. *)
Record KeyTools : Type := {
  hexToBytes : string -> completion bytes;
  bytesToBase64 : bytes -> completion string;
  base64ToBytes : string -> completion bytes;
  sm2_getPublicKeyFromPrivateKey : string -> completion string
}.

(** [if (hex.startsWith('04')) { hex = hex.slice(2); }] *)
Definition strip_04 (hex : string) : string :=
  if String.prefix "04" hex
  then String.substring 2 (String.length hex - 2) hex
  else hex.

(** export function generateSM2KeyPair(); [keyPair] is what
    [sm2.generateKeyPairHex()] returned: the private and the public key in
    hex text. *)
Definition generateSM2KeyPair (tools : KeyTools) (keyPair : string * string)
  : completion (bytes * bytes) :=
  let! privateKey := hexToBytes tools (fst keyPair) in
  let pubKeyHex := strip_04 (snd keyPair) in
  let! publicKey := hexToBytes tools pubKeyHex in
  Normal (privateKey, publicKey).

(** export function generateSM2KeyPairBase64() *)
Definition generateSM2KeyPairBase64 (tools : KeyTools) (keyPair : string * string)
  : completion (string * string) :=
  let! pair := generateSM2KeyPair tools keyPair in
  let! privateKey := bytesToBase64 tools (fst pair) in
  let! publicKey := bytesToBase64 tools (snd pair) in
  Normal (privateKey, publicKey).

(** export function deriveSM2PublicKey(privateKey: Uint8Array): Uint8Array *)
Definition deriveSM2PublicKey (lib : SmCrypto) (tools : KeyTools) (privateKey : bytes)
  : completion bytes :=
  if negb (length privateKey =? SM2_PRIVATE_KEY_SIZE)%nat
  then Throw (Error "SM2 private key must be 32 bytes")
  else
    let privateKeyHex := bytesToHex lib privateKey in
    let! publicKeyHex := sm2_getPublicKeyFromPrivateKey tools privateKeyHex in
    let publicKeyHex := strip_04 publicKeyHex in
    hexToBytes tools publicKeyHex.

(** export function deriveSM2PublicKeyFromBase64(privateKeyBase64: string): string *)
Definition deriveSM2PublicKeyFromBase64 (lib : SmCrypto) (tools : KeyTools)
    (privateKeyBase64 : string) : completion string :=
  let! privateKey := base64ToBytes tools privateKeyBase64 in
  let! publicKey := deriveSM2PublicKey lib tools privateKey in
  bytesToBase64 tools publicKey.

(** export function isSM2Available() *)
Definition isSM2Available : bool := true.

End SM2.

(** ** crypto/sm4.ts *)

Module SM4.
Local Open Scope js_scope.

Definition SM4_KEY_SIZE : nat := 16.
Definition SM4_BLOCK_SIZE : nat := 16.
Definition SM4_GCM_NONCE_SIZE : nat := 12.
Definition SM4_GCM_TAG_SIZE : nat := 16.

(** [sm4.encrypt] and [sm4.decrypt] of the sm-crypto-v2 package in GCM mode,
    as sm4.ts calls them: encrypt(plaintext, key, iv, associatedData) gives
    [{output, tag}], decrypt(ciphertext, key, iv, associatedData, tag) gives
    the plaintext; either may throw. *)
Record Sm4 : Type := {
  sm4_encrypt : bytes -> bytes -> bytes -> bytes -> completion (bytes * bytes);
  sm4_decrypt : bytes -> bytes -> bytes -> bytes -> bytes -> completion bytes
}.

(** The store of sm4.ts: the calls made to the package, in order. *)
Inductive LibCall : Type :=
| Call_sm4_encrypt (plaintext key iv associatedData : bytes)
| Call_sm4_decrypt (ciphertext key iv associatedData tag : bytes).

(** An index argument of [slice] on an array of [len] elements: a negative
    one counts from the end. *)
Definition relative_index (len : nat) (i : Z) : nat :=
  if i <? 0 then Z.to_nat (Z.max (Z.of_nat len + i) 0) else Nat.min (Z.to_nat i) len.

(** [a.slice(start, end)]; [a.slice(start)] is [slice start None]. *)
Definition slice (start : Z) (end_ : option Z) (a : bytes) : bytes :=
  let k := relative_index (length a) start in
  let final := match end_ with
               | Some e => relative_index (length a) e
               | None => length a
               end in
  take (final - k) (drop k a).

(** export function sm4GcmSeal(key, nonce, plaintext, additionalData) *)
Definition sm4GcmSeal (lib : Sm4) (key nonce plaintext additionalData : bytes)
  : M (list LibCall) bytes :=
  if negb (length key =? SM4_KEY_SIZE)%nat
  then throw (Error "SM4 key must be 16 bytes")
  else if negb (length nonce =? SM4_GCM_NONCE_SIZE)%nat
  then throw (Error "SM4-GCM nonce must be 12 bytes")
  else
    let* result :=
      (fun calls => (sm4_encrypt lib plaintext key nonce additionalData,
                     calls ++ [Call_sm4_encrypt plaintext key nonce additionalData])) in
    let ciphertext := fst result in
    let tag := snd result in
    let output := zeros (length ciphertext + length tag) in
    let* output := lift (typed_array_set output ciphertext 0) in
    let* output := lift (typed_array_set output tag (length ciphertext)) in
    ret output.

(** export function sm4GcmOpen(key, nonce, ciphertextWithTag, additionalData) *)
Definition sm4GcmOpen (lib : Sm4) (key nonce ciphertextWithTag additionalData : bytes)
  : M (list LibCall) bytes :=
  if negb (length key =? SM4_KEY_SIZE)%nat
  then throw (Error "SM4 key must be 16 bytes")
  else if negb (length nonce =? SM4_GCM_NONCE_SIZE)%nat
  then throw (Error "SM4-GCM nonce must be 12 bytes")
  else if (length ciphertextWithTag <? SM4_GCM_TAG_SIZE)%nat
  then throw (Error "Ciphertext too short")
  else
    let ciphertext := slice 0 (Some (- Z.of_nat SM4_GCM_TAG_SIZE)) ciphertextWithTag in
    let tag := slice (- Z.of_nat SM4_GCM_TAG_SIZE) None ciphertextWithTag in
    let* plaintext :=
      (fun calls => (sm4_decrypt lib ciphertext key nonce additionalData tag,
                     calls ++ [Call_sm4_decrypt ciphertext key nonce additionalData tag])) in
    ret plaintext.

(** export function isSM4Available() *)
Definition isSM4Available : bool := true.

End SM4.

(** ** utils.js: the Base64 helpers

    [atob] and [btoa] are the platform's: the forgiving Base64 decoder and
    the Base64 encoder of RFC 4648, on strings of code units below 256
    (which is all a [string] holds; [btoa] throws on no such string). *)

Module Utils.
Local Open Scope completion_scope.

(** A DOMException, by its name. *)
Inductive DOMException : Type := InvalidCharacterError.

(** Strings whose code units are below 256, as [atob] returns them and
    [btoa] accepts them: [s.length], [s.charCodeAt(i)] (None for NaN) and
    [String.fromCharCode(b)]. *)
Definition String_length (s : string) : nat := length (list_byte_of_string s).
Definition charCodeAt (s : string) (i : nat) : option byte := list_byte_of_string s !! i.
Definition fromCharCode (b : byte) : string := string_of_list_byte [b].

(** *** The Base64 alphabet *)

Definition base64_alphabet : bytes :=
  list_byte_of_string "ABCDEFGHIJKLMNOPQRSTUVWXYZabcdefghijklmnopqrstuvwxyz0123456789+/".

Definition base64_char (v : Z) : byte := nth (Z.to_nat v) base64_alphabet x00.

Definition base64_value (c : byte) : option Z :=
  let n := byte_to_Z c in
  if (65 <=? n) && (n <=? 90) then Some (n - 65)
  else if (97 <=? n) && (n <=? 122) then Some (n - 71)
  else if (48 <=? n) && (n <=? 57) then Some (n + 4)
  else if n =? 43 then Some 62
  else if n =? 47 then Some 63
  else None.

Definition is_ASCII_whitespace (c : byte) : bool :=
  match c with
  | x09 | x0a | x0c | x0d | x20 => true
  | _ => false
  end.

Definition is_padding (c : byte) : bool := Byte.eqb c "=".

(** The [k] base-64 digits of [n], most significant first, and back. *)
Fixpoint digits64 (k : nat) (n : Z) : list Z :=
  match k with
  | O => []
  | S j => (n / 64 ^ Z.of_nat j) mod 64 :: digits64 j n
  end.

Definition of_digits64 (ds : list Z) : Z :=
  fold_left (fun acc d => acc * 64 + d) ds 0.

(** *** btoa: three bytes give four digits; a rest of two bytes gives three
    digits and one [=], a rest of one byte two digits and two [=] *)

Fixpoint base64_digits (bs : bytes) : list Z :=
  match bs with
  | b1 :: b2 :: b3 :: rest => digits64 4 (be_to_Z [b1; b2; b3]) ++ base64_digits rest
  | [b1; b2] => digits64 3 (be_to_Z [b1; b2] * 4)
  | [b1] => digits64 2 (be_to_Z [b1] * 16)
  | [] => []
  end.

Definition btoa (data : string) : string :=
  let bs := list_byte_of_string data in
  string_of_list_byte
    (map base64_char (base64_digits bs) ++ replicate ((3 - length bs mod 3) mod 3) "="%byte).

(** *** atob: the forgiving Base64 decoder *)

Fixpoint base64_values (cs : bytes) : option (list Z) :=
  match cs with
  | [] => Some []
  | c :: cs' =>
      match base64_value c, base64_values cs' with
      | Some v, Some vs => Some (v :: vs)
      | _, _ => None
      end
  end.

(** One or two [=] at the end go, when the length is a multiple of 4. *)
Definition remove_padding (data : bytes) : bytes :=
  if (length data mod 4 =? 0)%nat
  then match rev data with
       | c1 :: c2 :: r =>
           if is_padding c1
           then if is_padding c2 then rev r else rev (c2 :: r)
           else data
       | _ => data
       end
  else data.

(** Four digits give three bytes; a rest of three digits gives two bytes and
    a rest of two digits one byte, the surplus bits being dropped. *)
Fixpoint decode_groups (vs : list Z) : bytes :=
  match vs with
  | v1 :: v2 :: v3 :: v4 :: rest => Z_to_be 3 (of_digits64 [v1; v2; v3; v4]) ++ decode_groups rest
  | [v1; v2; v3] => Z_to_be 2 (of_digits64 [v1; v2; v3] / 4)
  | [v1; v2] => Z_to_be 1 (of_digits64 [v1; v2] / 16)
  | _ => []
  end.

Definition atob (data : string) : DOMException + string :=
  let data := List.filter (fun c => negb (is_ASCII_whitespace c)) (list_byte_of_string data) in
  let data := remove_padding data in
  if (length data mod 4 =? 1)%nat then inl InvalidCharacterError
  else match base64_values data with
       | None => inl InvalidCharacterError
       | Some vs => inr (string_of_list_byte (decode_groups vs))
       end.

(** *** The exported functions *)

(** [arr.forEach(callback)] *)
Fixpoint forEach {A} (arr : list A) (callback : A -> completion unit) : completion unit :=
  match arr with
  | [] => Normal tt
  | x :: rest => let! _ := callback x in forEach rest callback
  end.

(** An assignment to a binding that [const] declared. *)
Definition assign_to_const {A} (name : string) (value : A) : completion unit :=
  Throw (TypeError "Assignment to constant variable.").

(** export function bytesToBase64(bytes): [bin] is declared with [const],
    and the callback assigns to it. *)
Definition bytesToBase64 (bytes_ : bytes) : completion string :=
  let bin := EmptyString in
  let! _ := forEach bytes_ (fun b => assign_to_const "bin" (String.append bin (fromCharCode b))) in
  Normal (btoa bin).

(** [bytes[i] = bin.charCodeAt(i)] *)
Definition store_charCode (bin : string) (bytes_ : bytes) (i : nat) : bytes :=
  <[i := default x00 (charCodeAt bin i)]> bytes_.

(** export function base64ToBytes(base64) *)
Definition base64ToBytes (base64 : string) : DOMException + bytes :=
  match atob base64 with
  | inl e => inl e
  | inr bin =>
      let bytes_ := zeros (String_length bin) in
      inr (fold_left (store_charCode bin) (seq 0 (String_length bin)) bytes_)
  end.

End Utils.

(** ** Concrete worlds to run the definitions in

    A host that binds what nhp.js leaves free, and stand-ins for crypto.js
    and sm-crypto-v2 with the right result sizes.  They serve to run the
    code on examples; no theorem about the code depends on them. *)

Module Demo.
Import JS.

Definition pad (n : nat) (b : bytes) : bytes := take n (b ++ zeros n).

Definition data_bytes (x : Data) : bytes :=
  match x with
  | Str s => list_byte_of_string s
  | Bytes b => b
  end.

Definition crypto : Crypto :=
  {| CryptoKey := bytes;
     Hasher := bytes;
     base64To25519PrivateKey := fun s => Normal (pad 32 (list_byte_of_string s));
     base64To25519PublicKey := fun s => Normal (pad 32 (list_byte_of_string s));
     x25519PublicKeyToBytes := fun k => pad 32 k;
     ecdhX25519 := fun a b => pad 32 (rev a ++ b);
     mixKey := fun ck ikm => pad 32 (ikm ++ ck);
     keyGen2 := fun ck ikm => (pad 32 (x01 :: ikm ++ ck), pad 32 (x02 :: ikm ++ ck));
     chacha20Seal := fun key nonce pt ad => data_bytes pt ++ pad 16 (key ++ ad);
     newSHA256Hash := [];
     updateSHA256 := fun h x => h ++ data_bytes x;
     sumSHA256 := fun h => pad 32 (rev h) |}.

Definition host : Host :=
  {| global_Header_SIZE := Some NHPHeader.SIZE;
     subtle_getRandomValues := true;
     global_stringToBytes := Some list_byte_of_string;
     global_buffer := Some (zeros 8) |}.

Definition draws : Draws crypto :=
  Build_Draws crypto 0xDEADBEEF (pad 32 [x11; x12]) (pad 32 [x33; x44]) 1700000000000 123456.

Definition header : NHPHeader.t :=
  {| NHPHeader.view := {| DataView.byteOffset := 0; DataView.byteLength := NHPHeader.SIZE |};
     NHPHeader.bytes_offset := 0 |}.

Definition initial_state : State :=
  {| GlobalCounter := 0; packet := []; trace := [] |}.

(** Base64 text of 32-byte keys: 44 characters each. *)
Definition privateKey : string := "QUJDREVGR0hJSktMTU5PUFFSU1RVVldYWVowMTIzNDU=".
Definition publicKey : string := "YWJjZGVmZ2hpamtsbW5vcHFyc3R1dnd4eXowMTIzNDU=".
Definition remotePublicKey : string := "MDEyMzQ1Njc4OUFCQ0RFRkdISUpLTE1OT1BRUlNUVVY=".

Definition sm : SM2.SmCrypto :=
  {| SM2.bytesToHex := fun b => string_of_list_byte b;
     SM2.sm2_ecdh := fun priv pub => Normal (zeros 70) |}.

End Demo.

(** Stand-ins for the SM4 and SM2 functions of the package and for
    crypto/utils.js.  The SM4 ciphertext is the plaintext reversed, with a
    tag of 16 bytes cut from associated data, nonce and key.  The hex text
    and the Base64 text of a byte array are its bytes as characters, the
    public key of a private key is the key twice, and the package writes 04
    in front of a public key.  A second stand-in for [sm2.ecdh] returns a
    point in compressed form, a prefix byte 02 or 03 for the parity of Y and
    then the 32 bytes of X, for the one pair of keys whose shared point
    needs no arithmetic. *)
Module DemoGM.

Definition sm4 : SM4.Sm4 :=
  {| SM4.sm4_encrypt := fun pt key iv ad => Normal (rev pt, Demo.pad 16 (ad ++ iv ++ key));
     SM4.sm4_decrypt := fun ct key iv ad tag =>
       if (length tag =? 16)%nat then Normal (rev ct)
       else Throw (Error "authentication failed") |}.

Definition tools : SM2.KeyTools :=
  {| SM2.hexToBytes := fun s => Normal (list_byte_of_string s);
     SM2.bytesToBase64 := fun b => Normal (string_of_list_byte b);
     SM2.base64ToBytes := fun s => Normal (list_byte_of_string s);
     SM2.sm2_getPublicKeyFromPrivateKey :=
       fun s => Normal (String.append "04" (String.append s s)) |}.

Definition privateKeyHex : string := "ABCDEFGHIJKLMNOPQRSTUVWXYZ012345".
Definition keyPair : string * string :=
  (privateKeyHex, String.append "04" (String.append privateKeyHex privateKeyHex)).

(** A later reading of the clock than [Demo.draws]. *)
Definition later_draws : Draws Demo.crypto :=
  Build_Draws Demo.crypto 0xDEADBEEF (Demo.pad 32 [x11; x12]) (Demo.pad 32 [x33; x44])
    1700000000001 0.

(** The recommended curve of SM2 (GB/T 32918.5): the prime, the two
    coefficients, and the coordinates of the base point G. *)
Definition curve_p : Z := 0xFFFFFFFEFFFFFFFFFFFFFFFFFFFFFFFFFFFFFFFF00000000FFFFFFFFFFFFFFFF.
Definition curve_a : Z := curve_p - 3.
Definition curve_b : Z := 0x28E9FA9E9D9F5E344D5A9E4BCF6509A7F39789F515AB8F92DDBCBD414D940E93.
Definition Gx : bytes :=
  [x32; xc4; xae; x2c; x1f; x19; x81; x19; x5f; x99; x04; x46; x6a; x39; xc9; x94;
   x8f; xe3; x0b; xbf; xf2; x66; x0b; xe1; x71; x5a; x45; x89; x33; x4c; x74; xc7].
Definition Gy : bytes :=
  [xbc; x37; x36; xa2; xf4; xf6; x77; x9c; x59; xbd; xce; xe3; x6b; x69; x21; x53;
   xd0; xa9; x87; x7c; xc6; x2a; x47; x40; x02; xdf; x32; xe5; x21; x39; xf0; xa0].

(** The private key 1 and the public key G: their shared point is G. *)
Definition one : bytes := zeros 31 ++ [x01].
Definition base_point : bytes := Gx ++ Gy.

(** An [sm2.ecdh] that returns the shared point of these two keys in
    compressed form: 02 for the even Y of G, then the 32 bytes of X. *)
Definition sm_compressed : SM2.SmCrypto :=
  {| SM2.bytesToHex := fun b => string_of_list_byte b;
     SM2.sm2_ecdh := fun priv pub => Normal (x02 :: Gx) |}.

End DemoGM.

(** ** Vocabulary of the statements *)

(** [wp m Q s]: running [m] from the store [s] ends, by return or by throw,
    in a completion and a store that satisfy [Q]. *)
Definition wp {S A} (m : M S A) (Q : completion A -> S -> Prop) (s : S) : Prop :=
  Q (fst (m s)) (snd (m s)).

(** The header that [new NHPHeader(packet.buffer)] builds when [Header.SIZE]
    is [n]: both views start at byte 0. *)
Definition header_of (n : nat) : NHPHeader.t :=
  {| NHPHeader.view := {| DataView.byteOffset := 0; DataView.byteLength := n |};
     NHPHeader.bytes_offset := 0 |}.

(** The nonce and the plaintext of each seal of a trace, in order. *)
Definition seal_inputs (tr : list Event) : list (bytes * JS.Data) :=
  flat_map (fun e => match e with
                     | E_chacha20Seal _ nonce plaintext _ => [(nonce, plaintext)]
                     | _ => []
                     end) tr.

(** The seals of a trace, in order: key, nonce, plaintext, associated data. *)
Definition seal_calls (tr : list Event) : list (bytes * bytes * JS.Data * bytes) :=
  flat_map (fun e => match e with
                     | E_chacha20Seal key nonce plaintext ad => [(key, nonce, plaintext, ad)]
                     | _ => []
                     end) tr.

(** What [sumSHA256] returns for a hasher that was created and then updated
    with the items of [transcript], in order. *)
Definition digest_of (C : Crypto) (transcript : list JS.Data) : bytes :=
  sumSHA256 C (fold_left (updateSHA256 C) transcript (newSHA256Hash C)).

(** The key imports of lines 108 to 110, as trace entries. *)
Definition key_imports (privateKey publicKey remotePublicKey : string) : list Event :=
  [E_base64To25519PrivateKey privateKey;
   E_base64To25519PublicKey publicKey;
   E_base64To25519PublicKey remotePublicKey].

(** What holds of the store when lines 105 to 116 are left: the trace grew
    by key imports only, the counter moved by at most one step, and the
    packet buffer is zero from byte 10 on. *)
Definition prologue_exit (privateKey publicKey remotePublicKey : string)
    (st st' : State) : Prop :=
  (exists n, trace st' = trace st ++ take n (key_imports privateKey publicKey remotePublicKey)) /\
  (GlobalCounter st' = GlobalCounter st \/
   GlobalCounter st' = (GlobalCounter st + 1) mod 2 ^ 64) /\
  length (packet st') = PacketBufferSize /\
  drop 10 (packet st') = zeros (PacketBufferSize - 10).

(** The seals of lines 145, 163 and 172, as (nonce, plaintext) pairs: the
    text [publicKey], the bytes of [buffer], the payload. *)
Definition handshake_seals (host : Host) (nonce : bytes) (publicKey : string) (msg : bytes)
  : list (bytes * JS.Data) :=
  [(nonce, JS.Str publicKey);
   (nonce, JS.Bytes (default [] (global_buffer host)));
   (nonce, JS.Bytes msg)].

(** The associated data of the seals of a trace: each is the [chainHash]
    array as the last [chainHash.set(sumSHA256(chainHasher))] left it. *)
Fixpoint ads_follow_digests (chainHash : bytes) (evs : list Event) : Prop :=
  match evs with
  | [] => True
  | E_sumSHA256 chainHasher digest :: evs' =>
      ads_follow_digests (overwrite 0 digest chainHash) evs'
  | E_chacha20Seal _ _ _ ad :: evs' =>
      ad = chainHash /\ ads_follow_digests chainHash evs'
  | _ :: evs' => ads_follow_digests chainHash evs'
  end.

(** The keys of the seals of a trace: each [keyGen2] is applied to the
    [chainKey] array as the derivations before it left it, and each seal
    uses the second key of a [keyGen2] made since the seal before it. *)
Fixpoint keys_follow_chain (C : Crypto) (chainKey : bytes) (derived : option bytes)
    (evs : list Event) : Prop :=
  match evs with
  | [] => True
  | E_mixKey ck ikm :: evs' =>
      keys_follow_chain C (overwrite 0 (mixKey C ck ikm) chainKey) derived evs'
  | E_keyGen2 ck ikm :: evs' =>
      ck = chainKey /\
      keys_follow_chain C (overwrite 0 (fst (keyGen2 C ck ikm)) chainKey)
        (Some (snd (keyGen2 C ck ikm))) evs'
  | E_chacha20Seal key _ _ _ :: evs' =>
      derived = Some key /\ keys_follow_chain C chainKey None evs'
  | _ :: evs' => keys_follow_chain C chainKey derived evs'
  end.

(** The largest payload that fits the packet buffer behind the header with
    its 16-byte tag. *)
Definition max_payload : nat := PacketBufferSize - NHPHeader.SIZE - 16.


(** A crypto.js whose results have the sizes of SHA-256, of 32-byte keys
    and of a 16-byte authentication tag. *)
Definition standard_sizes (C : Crypto) : Prop :=
  (forall h, length (sumSHA256 C h) = 32%nat) /\
  (forall chainKey ikm, length (mixKey C chainKey ikm) = 32%nat) /\
  (forall chainKey ikm, length (fst (keyGen2 C chainKey ikm)) = 32%nat) /\
  (forall key nonce plaintext ad,
      length (chacha20Seal C key nonce (JS.Bytes plaintext) ad) = (length plaintext + 16)%nat).

(* ===================================================================== *)
(** * Part II: properties                                                 *)
(* ===================================================================== *)

(** ** Buffers *)

Section Buffers.
Implicit Types (buf src : bytes) (off k n : nat).

Lemma overwrite_length off src buf :
  (off + length src <= length buf)%nat -> length (overwrite off src buf) = length buf.
Proof.
  intros H. unfold overwrite.
  rewrite !length_app, length_take, length_drop. lia.
Qed.

(** Bytes past the stored range are untouched. *)
Lemma drop_overwrite off src buf k :
  (off + length src <= k)%nat -> (off <= length buf)%nat ->
  drop k (overwrite off src buf) = drop k buf.
Proof.
  intros Hk Hoff. unfold overwrite.
  rewrite drop_app_ge by (rewrite length_take; lia).
  rewrite length_take_le by lia.
  rewrite drop_app_ge by lia.
  rewrite drop_drop. f_equal. lia.
Qed.

(** Bytes before the stored range are untouched. *)
Lemma take_overwrite off src buf k :
  (k <= off)%nat -> (off <= length buf)%nat ->
  take k (overwrite off src buf) = take k buf.
Proof.
  intros Hk Hoff. unfold overwrite.
  rewrite take_app_le by (rewrite length_take; lia).
  rewrite take_take. f_equal. lia.
Qed.

(** The stored range holds what was stored. *)
Lemma read_overwrite off src buf :
  (off <= length buf)%nat ->
  take (length src) (drop off (overwrite off src buf)) = src.
Proof.
  intros Hoff. unfold overwrite.
  rewrite drop_app_length' by (rewrite length_take; lia).
  apply take_app_length.
Qed.

(** A range that ends before the stored one, or starts after it, is untouched. *)
Lemma read_before_overwrite off src buf a n :
  (a + n <= off)%nat -> (off <= length buf)%nat ->
  take n (drop a (overwrite off src buf)) = take n (drop a buf).
Proof.
  intros Ha Hoff. rewrite !take_drop_commute.
  rewrite take_overwrite by lia. reflexivity.
Qed.

Lemma read_after_overwrite off src buf a n :
  (off + length src <= a)%nat -> (off <= length buf)%nat ->
  take n (drop a (overwrite off src buf)) = take n (drop a buf).
Proof.
  intros Ha Hoff. rewrite drop_overwrite by lia. reflexivity.
Qed.

Lemma typed_array_set_Normal target src at_ p :
  typed_array_set target src at_ = Normal p ->
  (at_ + length src <= length target)%nat /\ p = overwrite at_ src target.
Proof.
  unfold typed_array_set.
  destruct (Nat.leb_spec (at_ + length src) (length target)) as [Hle | Hgt];
    intros Heq; inversion Heq.
  split; [lia | reflexivity].
Qed.

(** A store over the whole array leaves what was stored. *)
Lemma overwrite_whole src buf :
  length src = length buf -> overwrite 0 src buf = src.
Proof.
  intros H. unfold overwrite. rewrite take_0. cbn [app Nat.add].
  rewrite drop_ge by lia. apply app_nil_r.
Qed.

End Buffers.

(** ** Numbers and bytes *)

Section Numbers.
Import JS.

Lemma byte_to_Z_to_byte n : byte_to_Z (Z_to_byte n) = n mod 256.
Proof.
  unfold byte_to_Z, Z_to_byte.
  assert (Hr : 0 <= n mod 256 < 256) by (apply Z.mod_pos_bound; lia).
  destruct (Byte.of_N (Z.to_N (n mod 256))) as [b|] eqn:E.
  - apply Byte.to_of_N in E. rewrite E. apply Z2N.id. lia.
  - apply Byte.of_N_None_iff in E. lia.
Qed.

Lemma be_to_Z_to_be_4 v : 0 <= v < 2 ^ 32 -> be_to_Z (Z_to_be 4 v) = v.
Proof.
  intros Hv. unfold be_to_Z. cbn [Z_to_be fold_left].
  rewrite !byte_to_Z_to_byte.
  change (256 ^ Z.of_nat 3) with (256 * 256 * 256).
  change (256 ^ Z.of_nat 2) with (256 * 256).
  change (256 ^ Z.of_nat 1) with 256. change (256 ^ Z.of_nat 0) with 1.
  rewrite Z.div_1_r.
  rewrite <- !Z.div_div by lia.
  pose proof (Z.div_mod v 256 ltac:(lia)).
  pose proof (Z.div_mod (v / 256) 256 ltac:(lia)).
  pose proof (Z.div_mod (v / 256 / 256) 256 ltac:(lia)).
  assert (v / 256 / 256 / 256 < 256).
  { rewrite !Z.div_div by lia. apply Z.div_lt_upper_bound; lia. }
  assert (0 <= v / 256 / 256 / 256) by (repeat apply Z.div_pos; lia).
  rewrite (Z.mod_small (v / 256 / 256 / 256)) by lia.
  lia.
Qed.

Lemma ToUint32_range x : 0 <= ToUint32 x < 2 ^ 32.
Proof. unfold ToUint32. apply Z.mod_pos_bound. lia. Qed.

Lemma ToUint32_small x : 0 <= x < 2 ^ 32 -> ToUint32 x = x.
Proof. intros. unfold ToUint32. apply Z.mod_small. lia. Qed.

Lemma ToUint32_ToInt32 x : ToUint32 (ToInt32 x) = ToUint32 x.
Proof.
  unfold ToUint32, ToInt32.
  rewrite Zminus_mod_idemp_l. f_equal. lia.
Qed.

Lemma testbit_ToUint32 x i : Z.testbit (ToUint32 x) i = (i <? 32) && Z.testbit x i.
Proof. unfold ToUint32. apply Z.testbit_mod_pow2. lia. Qed.

Ltac bitwise :=
  apply Z.bits_inj'; intros ?i ?Hi;
  repeat first
    [ rewrite testbit_ToUint32 | rewrite Z.lxor_spec | rewrite Z.land_spec
    | rewrite Z.lor_spec ].

Lemma ToUint32_lxor a b : ToUint32 (Z.lxor a b) = Z.lxor (ToUint32 a) (ToUint32 b).
Proof. bitwise. destruct (i <? 32), (Z.testbit a i), (Z.testbit b i); reflexivity. Qed.

Lemma ToUint32_land a b : ToUint32 (Z.land a b) = Z.land (ToUint32 a) (ToUint32 b).
Proof. bitwise. destruct (i <? 32), (Z.testbit a i), (Z.testbit b i); reflexivity. Qed.

Lemma ToUint32_lor a b : ToUint32 (Z.lor a b) = Z.lor (ToUint32 a) (ToUint32 b).
Proof. bitwise. destruct (i <? 32), (Z.testbit a i), (Z.testbit b i); reflexivity. Qed.

(** The operators, seen through ToUint32. *)
Lemma ToUint32_bxor a b : ToUint32 (bxor a b) = Z.lxor (ToUint32 a) (ToUint32 b).
Proof. unfold bxor. rewrite ToUint32_lxor, !ToUint32_ToInt32. reflexivity. Qed.
Lemma ToUint32_band a b : ToUint32 (band a b) = Z.land (ToUint32 a) (ToUint32 b).
Proof. unfold band. rewrite ToUint32_land, !ToUint32_ToInt32. reflexivity. Qed.
Lemma ToUint32_bor a b : ToUint32 (bor a b) = Z.lor (ToUint32 a) (ToUint32 b).
Proof. unfold bor. rewrite ToUint32_lor, !ToUint32_ToInt32. reflexivity. Qed.

Lemma ushr_0 x : ushr x 0 = ToUint32 x.
Proof. unfold ushr. change (ToUint32 0 mod 32) with 0. apply Z.shiftr_0_r. Qed.

Lemma ushr_16 x : ushr x 16 = ToUint32 x / 2 ^ 16.
Proof. unfold ushr. change (ToUint32 16 mod 32) with 16. apply Z.shiftr_div_pow2. lia. Qed.

Lemma shl_FFFF_16 : shl 0x0000FFFF 16 = -65536.
Proof. reflexivity. Qed.

Lemma ToInt32_mod_16 x : ToInt32 x mod 2 ^ 16 = x mod 2 ^ 16.
Proof.
  assert (D : (2 ^ 16 | 2 ^ 32)) by (exists (2 ^ 16); reflexivity).
  rewrite <- (Z.mod_mod_divide (ToInt32 x) (2 ^ 32) (2 ^ 16)) by exact D.
  rewrite <- (Z.mod_mod_divide x (2 ^ 32) (2 ^ 16)) by exact D.
  fold (ToUint32 (ToInt32 x)). fold (ToUint32 x).
  rewrite ToUint32_ToInt32. reflexivity.
Qed.

Lemma ToUint32_idemp x : ToUint32 (ToUint32 x) = ToUint32 x.
Proof. apply ToUint32_small, ToUint32_range. Qed.

Lemma ToUint32_div_small x : ToUint32 (ToUint32 x / 2 ^ 16) = ToUint32 x / 2 ^ 16.
Proof.
  pose proof (ToUint32_range x). apply ToUint32_small.
  split; [apply Z.div_pos; lia | apply Z.div_lt_upper_bound; lia].
Qed.

(** What [type & 0x0000FFFF << 16 | size & 0x0000FFFF] packs: bits 16 to 31
    of the type and the low 16 bits of the size. *)
Lemma packed_type_and_size ty sz :
  let tns := ushr (bor (band ty (shl 0x0000FFFF 16)) (band sz 0x0000FFFF)) 0 in
  ToUint32 tns / 2 ^ 16 = ToUint32 ty / 2 ^ 16 /\
  Z.land (ToUint32 tns) 0x0000FFFF = sz mod 2 ^ 16.
Proof.
  intros tns. subst tns. rewrite ushr_0, shl_FFFF_16.
  rewrite ToUint32_idemp, ToUint32_bor, !ToUint32_band.
  change (ToUint32 (-65536)) with (Z.shiftl (Z.ones 16) 16).
  change (ToUint32 65535) with (Z.ones 16).
  change 65535 with (Z.ones 16).
  split.
  - rewrite <- !Z.shiftr_div_pow2 by lia.
    apply Z.bits_inj'; intros i Hi.
    rewrite !Z.shiftr_spec, Z.lor_spec, !Z.land_spec, Z.shiftl_spec by lia.
    rewrite !Z.testbit_ones_nonneg by lia.
    replace (i + 16 - 16) with i by lia.
    rewrite !testbit_ToUint32.
    destruct (Z.ltb_spec (i + 16) 16); [lia|].
    destruct (Z.ltb_spec i 16); destruct (Z.ltb_spec (i + 16) 32); try lia;
      rewrite ?andb_true_r, ?andb_false_r, ?andb_false_l, ?orb_false_r; reflexivity.
  - rewrite <- (Z.land_ones sz 16) by lia.
    apply Z.bits_inj'; intros i Hi.
    rewrite !Z.land_spec, Z.lor_spec, !Z.land_spec, !testbit_ToUint32.
    rewrite !Z.testbit_ones_nonneg by lia.
    destruct (Z.ltb_spec i 16).
    + rewrite Z.shiftl_spec_low by lia.
      destruct (Z.ltb_spec i 32); [|lia].
      rewrite ?andb_true_r, ?andb_false_r, ?orb_false_l. reflexivity.
    + rewrite !andb_false_r. reflexivity.
Qed.

End Numbers.

(** ** DataView accesses at constant offsets *)

Section DataViewFacts.
Import JS.

Lemma Z_to_be_length n v : length (Z_to_be n v) = n.
Proof. induction n; simpl; congruence. Qed.

Lemma ToIndex_nat (i : nat) :
  Z.of_nat i <= 2 ^ 53 - 1 -> ToIndex (Number (Z.of_nat i)) = Normal i.
Proof.
  unfold ToIndex. intros Hi.
  destruct (Z.ltb_spec (Z.of_nat i) 0); [lia|].
  destruct (Z.ltb_spec (2 ^ 53 - 1) (Z.of_nat i)); [lia|].
  cbn [orb]. rewrite Nat2Z.id. reflexivity.
Qed.

(** What ToIndex returns for a natural number is that number. *)
Lemma ToIndex_nat_inv (i j : nat) :
  ToIndex (Number (Z.of_nat i)) = Normal j -> j = i.
Proof.
  unfold ToIndex. destruct (_ || _); [discriminate|].
  intros [= <-]. apply Nat2Z.id.
Qed.

Lemma store_Normal v (i : nat) src buffer :
  Z.of_nat i <= 2 ^ 53 - 1 ->
  (i + length src <= DataView.byteLength v)%nat ->
  DataView.store v (Number (Z.of_nat i)) src buffer
  = Normal (overwrite (DataView.byteOffset v + i) src buffer).
Proof.
  intros Hi H. unfold DataView.store. rewrite ToIndex_nat by exact Hi. cbn [cbind].
  destruct (Nat.leb_spec (i + length src) (DataView.byteLength v)); [reflexivity | lia].
Qed.

Lemma load_Normal v (i : nat) len buffer :
  Z.of_nat i <= 2 ^ 53 - 1 ->
  (i + len <= DataView.byteLength v)%nat ->
  DataView.load v (Number (Z.of_nat i)) len buffer
  = Normal (take len (drop (DataView.byteOffset v + i) buffer)).
Proof.
  intros Hi H. unfold DataView.load. rewrite ToIndex_nat by exact Hi. cbn [cbind].
  destruct (Nat.leb_spec (i + len) (DataView.byteLength v)); [reflexivity | lia].
Qed.

Lemma setUint32_Normal v (i : nat) x buffer :
  Z.of_nat i <= 2 ^ 53 - 1 ->
  (i + 4 <= DataView.byteLength v)%nat ->
  DataView.setUint32 v (Number (Z.of_nat i)) x buffer
  = Normal (overwrite (DataView.byteOffset v + i) (Z_to_be 4 (ToUint32 x)) buffer).
Proof.
  intros Hi H. unfold DataView.setUint32. apply store_Normal; [exact Hi|].
  rewrite Z_to_be_length. lia.
Qed.

Lemma getUint32_Normal v (i : nat) buffer :
  Z.of_nat i <= 2 ^ 53 - 1 ->
  (i + 4 <= DataView.byteLength v)%nat ->
  DataView.getUint32 v (Number (Z.of_nat i)) buffer
  = Normal (be_to_Z (take 4 (drop (DataView.byteOffset v + i) buffer))).
Proof.
  intros Hi H. unfold DataView.getUint32. rewrite load_Normal by (exact Hi || lia).
  reflexivity.
Qed.

(** Reading back a stored 32-bit value. *)
Lemma take4_overwrite off x buf :
  (off + 4 <= length buf)%nat ->
  be_to_Z (take 4 (drop off (overwrite off (Z_to_be 4 (ToUint32 x)) buf))) = ToUint32 x.
Proof.
  intros H.
  rewrite <- (Z_to_be_length 4 (ToUint32 x)) at 1.
  rewrite read_overwrite by lia.
  apply be_to_Z_to_be_4, ToUint32_range.
Qed.

End DataViewFacts.

(** ** The type and size sub-field *)

Section TypeAndPayloadSize.
Import JS.

(** Writing (type, size) and reading it back, for any two Numbers: the
    size comes back modulo 2^16, and of the type only bits 16 to 31. *)
Lemma set_get_typeAndPayloadSize host rnd (h : NHPHeader.t) type size buffer :
  subtle_getRandomValues host = true ->
  (8 <= DataView.byteLength (NHPHeader.view h))%nat ->
  (DataView.byteOffset (NHPHeader.view h) + DataView.byteLength (NHPHeader.view h) <= length buffer)%nat ->
  exists buffer',
    NHPHeader.set_typeAndPayloadSize host rnd h (Number type) (Number size) buffer = Normal buffer' /\
    NHPHeader.get_typeAndPayloadSize h buffer' = Normal (ToUint32 type / 2 ^ 16, size mod 2 ^ 16).
Proof.
  intros Hrnd Hlen Hfit.
  unfold NHPHeader.set_typeAndPayloadSize. rewrite Hrnd. cbn [cbind ToInt32_operand].
  set (tns := ushr (bor (band (ToInt32 type) (shl 65535 16)) (band (ToInt32 size) 65535)) 0).
  set (p := ToUint32 rnd).
  rewrite (setUint32_Normal _ 0) by lia. cbn [cbind].
  rewrite (setUint32_Normal _ 4).
  2, 3: lia.
  eexists. split; [reflexivity|].
  unfold NHPHeader.get_typeAndPayloadSize.
  rewrite (getUint32_Normal _ 0), (getUint32_Normal _ 4) by lia. cbn [cbind].
  set (o := DataView.byteOffset (NHPHeader.view h)) in *.
  rewrite read_before_overwrite.
  2: lia.
  2: { rewrite overwrite_length by (rewrite Z_to_be_length; lia). lia. }
  rewrite take4_overwrite by lia.
  rewrite take4_overwrite.
  2: { rewrite overwrite_length by (rewrite Z_to_be_length; lia). lia. }
  f_equal.
  rewrite !ushr_0, ushr_16.
  rewrite ToUint32_div_small.
  rewrite !ToUint32_idemp.
  assert (Hval : ToUint32 (bxor (ToUint32 p) (ToUint32 (bxor p tns))) = ToUint32 tns).
  { rewrite ToUint32_bxor, !ToUint32_idemp, ToUint32_bxor.
    rewrite <- Z.lxor_assoc, Z.lxor_nilpotent, Z.lxor_0_l. reflexivity. }
  rewrite !ToUint32_band, !Hval, !ToUint32_idemp.
  destruct (packed_type_and_size (ToInt32 type) (ToInt32 size)) as [Hty Hsz].
  fold tns in Hty, Hsz.
  f_equal.
  - rewrite <- ToUint32_ToInt32 with (x := type). rewrite <- Hty.
    change (ToUint32 4294901760) with (Z.shiftl (Z.ones 16) 16).
    rewrite <- !Z.shiftr_div_pow2 by lia.
    apply Z.bits_inj'; intros i Hi.
    rewrite !Z.shiftr_spec, Z.land_spec, Z.shiftl_spec by lia.
    rewrite Z.testbit_ones_nonneg by lia.
    replace (i + 16 - 16) with i by lia.
    rewrite testbit_ToUint32.
    destruct (Z.ltb_spec (i + 16) 32); destruct (Z.ltb_spec i 16); try lia;
      rewrite ?andb_true_r, ?andb_false_r, ?andb_false_l; reflexivity.
  - change (ToUint32 65535) with 65535. rewrite Hsz.
    apply ToInt32_mod_16.
Qed.

End TypeAndPayloadSize.

(** ** Reasoning rules for the monad *)

Import JS.

Section WP.
Context {S : Type}.
Implicit Types (s : S).

Lemma wp_bind {A B} (m : M S A) (k : A -> M S B) Q s :
  wp m (fun r s' => match r with
                    | Normal a => wp (k a) Q s'
                    | Throw e => Q (Throw e) s'
                    end) s ->
  wp (bind m k) Q s.
Proof.
  unfold wp, bind. destruct (m s) as [[a | e] s']; cbn [fst snd]; auto.
Qed.

Lemma wp_ret {A} (a : A) (Q : completion A -> S -> Prop) s :
  Q (Normal a) s -> wp (ret a) Q s.
Proof. auto. Qed.

Lemma wp_throw {A} e (Q : completion A -> S -> Prop) s :
  Q (Throw e) s -> wp (throw e) Q s.
Proof. auto. Qed.

Lemma wp_lift {A} (c : completion A) (Q : completion A -> S -> Prop) s :
  Q c s -> wp (lift c) Q s.
Proof. auto. Qed.

Lemma wp_gets {A} (f : S -> A) (Q : completion A -> S -> Prop) s :
  Q (Normal (f s)) s -> wp (gets f) Q s.
Proof. auto. Qed.

Lemma wp_modify (f : S -> S) (Q : completion unit -> S -> Prop) s :
  Q (Normal tt) (f s) -> wp (modify f) Q s.
Proof. auto. Qed.

End WP.

Lemma wp_call {A} e (r : completion A) (Q : completion A -> State -> Prop) st :
  Q r (log e st) -> wp (call e r) Q st.
Proof. auto. Qed.

Lemma wp_on_packet f (Q : completion unit -> State -> Prop) st :
  match f (packet st) with
  | Normal p => Q (Normal tt) (set_packet p st)
  | Throw e => Q (Throw e) st
  end ->
  wp (on_packet f) Q st.
Proof. unfold wp, on_packet. destruct (f (packet st)); auto. Qed.

(** One statement. *)
Ltac wp_step :=
  lazymatch goal with
  | |- wp (bind _ _) _ _ => apply wp_bind
  | |- wp (ret _) _ _ => apply wp_ret
  | |- wp (throw _) _ _ => apply wp_throw
  | |- wp (modify _) _ _ => apply wp_modify
  | |- wp (gets _) _ _ => apply wp_gets
  | |- wp (call _ _) _ _ => apply wp_call
  | |- wp (lift _) _ _ => apply wp_lift
  | |- wp (on_packet _) _ _ => apply wp_on_packet
  end.

(** The calls of lines 117 to 175, down to the primitives above. *)
Ltac wp_open :=
  unfold update, sum, seal, derive2, toBytes, local_set, stringToBytes, Uint8Array_of_buffer.

(** Statement after statement.  Where a statement may throw, its equation
    [E] is kept: [note E] records what follows from its normal completion,
    [exit E] proves the postcondition at its throw. *)
Ltac wp_run note exit :=
  repeat first
    [ wp_step
    | match goal with
      | |- match ?c with Normal _ => _ | Throw _ => _ end =>
          let E := fresh "E" in destruct c eqn:E; [ note E | solve [exit E] ]
      | |- wp (match ?x with Some _ => _ | None => _ end) _ _ =>
          let E := fresh "E" in destruct x eqn:E
      end
    | progress cbn [packet trace GlobalCounter log set_packet set_GlobalCounter] ].

(** ** The header in the packet buffer *)

Lemma zeros_length n : length (zeros n) = n.
Proof. apply length_replicate. Qed.

Lemma drop_zeros k n : drop k (zeros n) = zeros (n - k).
Proof. apply drop_replicate. Qed.

Lemma take_zeros k n : take k (zeros n) = zeros (min k n).
Proof. apply take_replicate. Qed.

Lemma drop_8_10 (p : bytes) n :
  drop 8 p = zeros (n - 8) -> drop 10 p = zeros (n - 10).
Proof.
  intros H. change 10%nat with (8 + 2)%nat. rewrite <- drop_drop, H, drop_zeros.
  f_equal. lia.
Qed.

Lemma constructor_Normal host buffer h :
  NHPHeader.constructor host buffer 0 = Normal h ->
  NHPHeader.bytes_offset h = 0%nat /\
  DataView.byteOffset (NHPHeader.view h) = 0%nat /\
  (DataView.byteLength (NHPHeader.view h) <= length buffer)%nat.
Proof.
  unfold NHPHeader.constructor, DataView.create.
  destruct (global_Header_SIZE host) as [n|]; [|discriminate].
  destruct (Nat.leb_spec (0 + n) (length buffer)); cbn [cbind]; [|discriminate].
  intros [= <-]. cbn. repeat split; lia.
Qed.

(** [header.counter = v] for a BigInt [v]: the BigInt is taken for the byte
    offset. *)
Lemma set_counter_throws h c buffer :
  NHPHeader.set_counter h (BigInt c) buffer
  = Throw (TypeError "Cannot convert a BigInt value to a number").
Proof. reflexivity. Qed.

Lemma store_Normal_inv v idx src buffer b' :
  DataView.store v idx src buffer = Normal b' ->
  exists i, ToIndex idx = Normal i /\
            (i + length src <= DataView.byteLength v)%nat /\
            b' = overwrite (DataView.byteOffset v + i) src buffer.
Proof.
  unfold DataView.store. destruct (ToIndex idx) as [i | e]; cbn [cbind]; [|discriminate].
  destruct (Nat.leb_spec (i + length src) (DataView.byteLength v)); [|discriminate].
  intros [= <-]. exists i. auto.
Qed.

(** A store at a constant index [i] of a view that starts at 0 changes
    nothing from [i + length src] on. *)
Lemma store_at_inside v (i : nat) src buffer b' k :
  DataView.store v (Number (Z.of_nat i)) src buffer = Normal b' ->
  DataView.byteOffset v = 0%nat ->
  (DataView.byteLength v <= length buffer)%nat ->
  (i + length src <= k)%nat ->
  length b' = length buffer /\ drop k b' = drop k buffer.
Proof.
  intros H Ho Hfit Hk. apply store_Normal_inv in H as (j & Hj & Hle & ->).
  apply ToIndex_nat_inv in Hj. subst j. rewrite Ho. cbn [Nat.add].
  split; [apply overwrite_length | apply drop_overwrite]; lia.
Qed.

(** The setters of the type and size and of the version are their two
    stores, one after the other. *)
Lemma set_typeAndPayloadSize_stores host rnd h type size buffer :
  NHPHeader.set_typeAndPayloadSize host rnd h type size buffer
  = cbind (NHPHeader.typeAndPayloadSize_store_0 host rnd h type size buffer)
          (NHPHeader.typeAndPayloadSize_store_4 host rnd h type size).
Proof.
  unfold NHPHeader.set_typeAndPayloadSize, NHPHeader.typeAndPayloadSize_store_0,
    NHPHeader.typeAndPayloadSize_store_4.
  destruct (subtle_getRandomValues host); cbn [cbind]; [|reflexivity].
  destruct (ToInt32_operand type); cbn [cbind]; [|reflexivity].
  destruct (ToInt32_operand size); cbn [cbind]; reflexivity.
Qed.

Lemma set_version_stores h major minor buffer :
  NHPHeader.set_version h major minor buffer
  = cbind (NHPHeader.version_store_8 h major buffer) (NHPHeader.version_store_9 h minor).
Proof. reflexivity. Qed.

(** Each of the four stores stays in front of byte 10, the first two in
    front of byte 8. *)
Lemma typeAndPayloadSize_store_inside host rnd h type size buffer b' :
  NHPHeader.typeAndPayloadSize_store_0 host rnd h type size buffer = Normal b' \/
  NHPHeader.typeAndPayloadSize_store_4 host rnd h type size buffer = Normal b' ->
  DataView.byteOffset (NHPHeader.view h) = 0%nat ->
  (DataView.byteLength (NHPHeader.view h) <= length buffer)%nat ->
  length b' = length buffer /\ drop 8 b' = drop 8 buffer.
Proof.
  unfold NHPHeader.typeAndPayloadSize_store_0, NHPHeader.typeAndPayloadSize_store_4.
  destruct (subtle_getRandomValues host); cbn [cbind]; [|intros [|]; discriminate].
  destruct (ToInt32_operand type); cbn [cbind]; [|intros [|]; discriminate].
  destruct (ToInt32_operand size); cbn [cbind]; [|intros [|]; discriminate].
  unfold DataView.setUint32.
  intros [E | E] Ho Hfit.
  - apply (store_at_inside _ 0 _ _ _ 8) in E; try assumption.
    rewrite Z_to_be_length; lia.
  - apply (store_at_inside _ 4 _ _ _ 8) in E; try assumption.
    rewrite Z_to_be_length; lia.
Qed.

Lemma version_store_inside h v buffer b' :
  NHPHeader.version_store_8 h v buffer = Normal b' \/
  NHPHeader.version_store_9 h v buffer = Normal b' ->
  DataView.byteOffset (NHPHeader.view h) = 0%nat ->
  (DataView.byteLength (NHPHeader.view h) <= length buffer)%nat ->
  length b' = length buffer /\ drop 10 b' = drop 10 buffer.
Proof.
  unfold NHPHeader.version_store_8, NHPHeader.version_store_9, DataView.setUint8.
  intros [E | E] Ho Hfit.
  - apply (store_at_inside _ 8 _ _ _ 10) in E; try assumption.
    rewrite Z_to_be_length; lia.
  - apply (store_at_inside _ 9 _ _ _ 10) in E; try assumption.
    rewrite Z_to_be_length; lia.
Qed.

Lemma bytes_set_Normal h src at_ buffer b' :
  NHPHeader.bytes_set h src at_ buffer = Normal b' ->
  (at_ + length src <= length buffer - NHPHeader.bytes_offset h)%nat /\
  b' = overwrite (NHPHeader.bytes_offset h + at_) src buffer.
Proof.
  unfold NHPHeader.bytes_set, NHPHeader.bytes_view. rewrite length_drop.
  destruct (Nat.leb_spec (at_ + length src) (length buffer - NHPHeader.bytes_offset h));
    [|discriminate].
  intros [= <-]. split; [lia | reflexivity].
Qed.

(** A setter of a field that ends at or before byte 208 of a header at
    offset 0 leaves bytes 208 to 239 as they are. *)
Lemma field_setter_keeps_hmac f n b buffer b' :
  f <> NHPHeader.hmac ->
  NHPHeader.setter f (header_of n) b buffer = Normal b' ->
  NHPHeader.get_hmac (header_of n) b' = NHPHeader.get_hmac (header_of n) buffer.
Proof.
  intros Hf.
  assert (G : forall w at_, (at_ + w <= 208)%nat ->
            (if (length b =? w)%nat then NHPHeader.bytes_set (header_of n) b at_ buffer
             else Normal buffer) = Normal b' ->
            NHPHeader.get_hmac (header_of n) b' = NHPHeader.get_hmac (header_of n) buffer).
  { intros w at_ Hw. destruct (Nat.eqb_spec (length b) w) as [Hl|Hl].
    - intros H. apply bytes_set_Normal in H as [Hfit ->].
      cbn [header_of NHPHeader.bytes_offset] in *.
      unfold NHPHeader.get_hmac, NHPHeader.bytes_view, subarray.
      cbn [header_of NHPHeader.bytes_offset]. rewrite !drop_0.
      apply read_after_overwrite; lia.
    - intros [= <-]. reflexivity. }
  destruct f; cbn [NHPHeader.setter];
    [ apply (G 32%nat 24%nat) | apply (G 80%nat 56%nat) | apply (G 48%nat 136%nat)
    | apply (G 24%nat 184%nat) | congruence ]; lia.
Qed.

(** So does the store of the sealed payload at byte 240. *)
Lemma payload_store_keeps_hmac n src buffer b' :
  typed_array_set buffer src 240 = Normal b' ->
  NHPHeader.get_hmac (header_of n) b' = NHPHeader.get_hmac (header_of n) buffer.
Proof.
  intros H. apply typed_array_set_Normal in H as [Hfit ->].
  unfold NHPHeader.get_hmac, NHPHeader.bytes_view, subarray.
  cbn [header_of NHPHeader.bytes_offset]. rewrite !drop_0.
  apply read_before_overwrite; lia.
Qed.

(** ** Lines 105 to 116 *)

Section Prologue.
Context (C : Crypto) (host : Host) (d : Draws C).

(** The exits of the prologue: the trace holds the first [k] key imports. *)
Ltac exit_prologue k :=
  cbn [GlobalCounter trace set_packet packet log];
  rewrite ?zeros_length, ?drop_zeros;
  repeat split; eauto;
  exists k; rewrite <- ?app_assoc, ?take_0, ?app_nil_r; reflexivity.

(** The prologue never returns: it throws, at the latest at line 116. *)
Lemma build_prologue_wp type priv pub rpub msg st :
  wp (build_prologue C host d type priv pub rpub msg)
     (fun r st' => (exists e, r = Throw e) /\ prologue_exit priv pub rpub st st') st.
Proof.
  unfold build_prologue, prologue_exit.
  (* 105, 106 *)
  do 3 wp_step. unfold wp at 1. cbn [fst snd packet set_packet].
  destruct (NHPHeader.constructor host (zeros PacketBufferSize) 0) as [h|e] eqn:Hh;
    [|exit_prologue 0%nat].
  apply constructor_Normal in Hh as (Hb & Ho & Hn). rewrite zeros_length in Hn.
  (* 108 to 110 *)
  do 2 wp_step. destruct (base64To25519PrivateKey C priv) as [lp|e]; [|exit_prologue 1%nat].
  do 2 wp_step. destruct (base64To25519PublicKey C pub) as [lpub|e]; [|exit_prologue 2%nat].
  do 2 wp_step. destruct (base64To25519PublicKey C rpub) as [rp|e]; [|exit_prologue 3%nat].
  cbn zeta.
  (* 113 *)
  do 2 wp_step. cbn [packet log set_packet].
  destruct (NHPHeader.typeAndPayloadSize_store_0 _ _ _ _ _ _) as [p0|e] eqn:E0;
    [|exit_prologue 3%nat].
  apply (fun H => typeAndPayloadSize_store_inside _ _ _ _ _ _ _ (or_introl H)) in E0
    as [L0 D0]; rewrite ?zeros_length; try assumption.
  rewrite zeros_length in L0. rewrite drop_zeros in D0.
  do 2 wp_step. cbn [packet log set_packet].
  destruct (NHPHeader.typeAndPayloadSize_store_4 _ _ _ _ _ _) as [p1|e] eqn:E1.
  2: { cbn [GlobalCounter trace set_packet packet log]. repeat split; eauto.
       - exists 3%nat. rewrite <- !app_assoc. reflexivity.
       - apply drop_8_10, D0. }
  apply (fun H => typeAndPayloadSize_store_inside _ _ _ _ _ _ _ (or_intror H)) in E1
    as [L1 D1]; rewrite ?L0; try assumption.
  assert (D1' : drop 10 p1 = zeros (PacketBufferSize - 10))
    by (apply drop_8_10; rewrite D1; exact D0).
  (* 114 *)
  do 2 wp_step. cbn [packet log set_packet].
  destruct (NHPHeader.version_store_8 _ _ _) as [p2|e] eqn:E2.
  2: { cbn [GlobalCounter trace set_packet packet log]. repeat split; eauto; [|congruence].
       exists 3%nat. rewrite <- !app_assoc. reflexivity. }
  apply (fun H => version_store_inside _ _ _ _ (or_introl H)) in E2 as [L2 D2];
    rewrite ?L1, ?L0; try assumption.
  do 2 wp_step. cbn [packet log set_packet].
  destruct (NHPHeader.version_store_9 _ _ _) as [p3|e] eqn:E3.
  2: { cbn [GlobalCounter trace set_packet packet log]. repeat split; eauto;
         [|congruence|congruence].
       exists 3%nat. rewrite <- !app_assoc. reflexivity. }
  apply (fun H => version_store_inside _ _ _ _ (or_intror H)) in E3 as [L3 D3];
    rewrite ?L2, ?L1, ?L0; try assumption.
  (* 115, 116 *)
  do 6 wp_step.
  cbn [packet log set_packet set_GlobalCounter GlobalCounter trace].
  rewrite set_counter_throws.
  cbn [GlobalCounter trace set_packet packet log]. repeat split; eauto.
  - exists 3%nat. rewrite <- !app_assoc. reflexivity.
  - congruence.
  - congruence.
Qed.


End Prologue.

(** ** Lines 117 to 175 *)

Section Handshake.
Context (C : Crypto) (host : Host) (d : Draws C).

Ltac note_nothing E := idtac.

(** Nothing writes the hmac field. *)
Ltac note_hmac n E :=
  first
    [ apply (field_setter_keeps_hmac NHPHeader.ephermeral n) in E; [|discriminate]
    | apply (field_setter_keeps_hmac NHPHeader.static n) in E; [|discriminate]
    | apply (field_setter_keeps_hmac NHPHeader.timestamp n) in E; [|discriminate]
    | apply (payload_store_keeps_hmac n) in E
    | idtac ];
  cbn [packet log set_packet] in E.

Ltac exit_hmac E := cbn [packet log set_packet]; congruence.

Lemma build_handshake_keeps_hmac n lp rp pub rpub msg st :
  wp (build_handshake C host d (header_of n) lp rp pub rpub msg)
     (fun _ st' => NHPHeader.get_hmac (header_of n) (packet st')
                   = NHPHeader.get_hmac (header_of n) (packet st)) st.
Proof.
  unfold build_handshake. wp_open.
  wp_run ltac:(note_hmac n) exit_hmac.
  all: cbn [packet log set_packet]; congruence.
Qed.

(** The seals come in the order of [handshake_seals], each with the nonce
    read at line 117; a return has seen all three. *)
Ltac exit_seals E :=
  eexists; split;
  [ rewrite <- ?app_assoc; reflexivity
  | cbn [seal_inputs flat_map app];
    first [ exists 0%nat; split; [reflexivity | discriminate]
          | exists 1%nat; split; [reflexivity | discriminate]
          | exists 2%nat; split; [reflexivity | discriminate]
          | exists 3%nat; split; [reflexivity | intros; first [discriminate | reflexivity]] ] ].

Lemma build_handshake_seals h lp rp pub rpub msg st :
  wp (build_handshake C host d h lp rp pub rpub msg)
     (fun r st' =>
        exists evs, trace st' = trace st ++ evs /\
        exists k, seal_inputs evs
                  = take k (handshake_seals host (NHPHeader.get_nonce h (packet st)) pub msg) /\
                  (forall p, r = Normal p -> k = 3%nat)) st.
Proof.
  unfold build_handshake, handshake_seals. wp_open.
  wp_run note_nothing exit_seals.
  all: exit_seals I.
Qed.

(** A completed [a.set(src)] stored [src] at the start of [a]. *)
Ltac note_set E :=
  try (apply typed_array_set_Normal in E as [_ ->]).

Ltac exit_chain E :=
  eexists; split;
  [ rewrite <- ?app_assoc; reflexivity
  | cbn [ads_follow_digests keys_follow_chain app]; repeat split; reflexivity ].

(** The associated data and the keys of the seals follow the two chains. *)
Lemma build_handshake_chain h lp rp pub rpub msg st :
  wp (build_handshake C host d h lp rp pub rpub msg)
     (fun _ st' =>
        exists evs, trace st' = trace st ++ evs /\
                    ads_follow_digests (zeros 32) evs /\
                    keys_follow_chain C (zeros 32) None evs) st.
Proof.
  unfold build_handshake. wp_open.
  wp_run note_set exit_chain.
  all: exit_chain I.
Qed.

End Handshake.

(** ** The whole of buildNHPPacket *)

Section Outcome.
Context (C : Crypto) (host : Host) (d : Draws C).

(** buildNHPPacket ends where its prologue ends. *)
Lemma buildNHPPacket_throws type priv pub rpub msg st :
  exists e st',
    buildNHPPacket C host d type priv pub rpub msg st = (Throw e, st') /\
    prologue_exit priv pub rpub st st'.
Proof.
  pose proof (build_prologue_wp C host d type priv pub rpub msg st) as H.
  unfold wp in H. unfold buildNHPPacket, bind.
  destruct (build_prologue C host d type priv pub rpub msg st) as [r st'].
  cbn [fst snd] in H. destruct H as [[e ->] Hexit].
  exists e, st'. auto.
Qed.


(** A field of a header at offset 0 that starts at or after byte 10 reads
    as zeros when the prologue is left. *)
Lemma prologue_exit_field priv pub rpub st st' n (b e : nat) :
  prologue_exit priv pub rpub st st' ->
  (10 <= b)%nat -> (b <= e)%nat -> (e <= PacketBufferSize)%nat ->
  subarray b e (NHPHeader.bytes_view (header_of n) (packet st')) = zeros (e - b).
Proof.
  intros (_ & _ & Hlen & Hz) Hb Hbe He.
  unfold subarray, NHPHeader.bytes_view. cbn [header_of NHPHeader.bytes_offset].
  rewrite drop_0.
  replace (drop b (packet st')) with (drop (b - 10) (drop 10 (packet st')))
    by (rewrite drop_drop; f_equal; lia).
  rewrite Hz, drop_zeros, take_zeros.
  f_equal. unfold PacketBufferSize in *. lia.
Qed.


End Outcome.

(* ===================================================================== *)
(** * Part III: the claims                                                *)
(* ===================================================================== *)

(** The claims C2 and C8 are about lines 117 to 175 and rest on the
    properties of Part IV: they follow it, in Part V. *)

(** ** C1: round trip through build and parse *)

(** C1.  The claim: parsing what buildNHPPacket produced returns the packet
    type, the sender's static public key, the timestamp and the payload.
    The code: in every host, with any crypto.js, for every input,
    buildNHPPacket throws instead of producing a packet; and parseNHPPacket,
    whose body is empty, returns [undefined] for every byte sequence and
    touches nothing. *)
Theorem C1_parse_is_a_stub (C : Crypto) (host : Host) (d : Draws C)
    type priv pub rpub msg st :
  (exists e, fst (buildNHPPacket C host d type priv pub rpub msg st) = Throw e) /\
  (forall received st', parseNHPPacket received st' = (Normal VUndefined, st')).
Proof.
  split.
  - destruct (buildNHPPacket_throws C host d type priv pub rpub msg st) as (e & st' & -> & _).
    eauto.
  - reflexivity.
Qed.

(** ** C3: the global counter *)

(** C3.  The claim: each build increments the global counter once and writes
    the new value into the header before any seal.  The code: every call
    throws; the counter is either untouched or one step further (modulo
    2^64); the counter field of the header reads 0 afterwards; the setter
    [header.counter = v] throws a TypeError for every BigInt [v]; and in a
    standard host the call ends at line 106 with the counter as it was. *)
Theorem C3_counter_is_never_stored (C : Crypto) (host : Host) (d : Draws C)
    type priv pub rpub msg st :
  let r := buildNHPPacket C host d type priv pub rpub msg st in
  (exists e, fst r = Throw e) /\
  (GlobalCounter (snd r) = GlobalCounter st \/
   GlobalCounter (snd r) = (GlobalCounter st + 1) mod 2 ^ 64) /\
  NHPHeader.get_counter (header_of NHPHeader.SIZE) (packet (snd r)) = Normal 0 /\
  (forall h c buffer,
      NHPHeader.set_counter h (BigInt c) buffer
      = Throw (TypeError "Cannot convert a BigInt value to a number")) /\
  buildNHPPacket C standard_host d type priv pub rpub msg st
  = (Throw (ReferenceError "Header is not defined"), set_packet (zeros PacketBufferSize) st).
Proof.
  destruct (buildNHPPacket_throws C host d type priv pub rpub msg st)
    as (e & st' & -> & Hexit).
  cbn [fst snd]. split; [eauto|]. split; [apply Hexit|]. split; [|split].
  - pose proof (prologue_exit_field _ _ _ _ _ NHPHeader.SIZE 16 24 Hexit) as H.
    unfold subarray, NHPHeader.bytes_view in H. cbn [header_of NHPHeader.bytes_offset] in H.
    rewrite drop_0 in H.
    unfold NHPHeader.get_counter, DataView.getBigUint64.
    rewrite (load_Normal _ 16)
      by (cbn [header_of NHPHeader.view DataView.byteLength]; unfold NHPHeader.SIZE; lia).
    cbn [header_of NHPHeader.view DataView.byteOffset cmap cbind Nat.add].
    change (24 - 16)%nat with 8%nat in H.
    rewrite H by (unfold PacketBufferSize; lia). reflexivity.
  - reflexivity.
  - reflexivity.
Qed.

(** In a host that binds [Header] and has the random source, the counter is
    incremented and then the call throws at line 116. *)
Example build_in_the_demo_host :
  let r := buildNHPPacket Demo.crypto Demo.host Demo.draws (Number 1)
             Demo.privateKey Demo.publicKey Demo.remotePublicKey [x01; x02; x03]
             Demo.initial_state in
  fst r = Throw (TypeError "Cannot convert a BigInt value to a number") /\
  GlobalCounter (snd r) = 1 /\
  trace (snd r) = key_imports Demo.privateKey Demo.publicKey Demo.remotePublicKey.
Proof. vm_compute. repeat split. Qed.

(** In a host whose [Header.SIZE] is 9 the setter of the version throws at
    its second store, and the first one, of byte 8, is in the packet
    buffer. *)
Example build_in_a_host_with_a_header_of_9_bytes :
  let host := {| global_Header_SIZE := Some 9%nat;
                 subtle_getRandomValues := true;
                 global_stringToBytes := None;
                 global_buffer := None |} in
  let r := buildNHPPacket Demo.crypto host Demo.draws (Number 1)
             Demo.privateKey Demo.publicKey Demo.remotePublicKey [x01; x02; x03]
             Demo.initial_state in
  fst r = Throw (RangeError "Offset is outside the bounds of the DataView") /\
  GlobalCounter (snd r) = 0 /\
  take 10 (packet (snd r)) = [xde; xad; xbe; xef; xde; xad; xbe; xef; x01; x00].
Proof. vm_compute. repeat split. Qed.

(** ** C4: the obfuscated type and size *)

(** C4.  The claim: writing a 16-bit type and a 16-bit size and reading them
    back gives the same pair, for every preamble.  The code, where the random
    source exists: the write succeeds, and the read gives the size with type
    0, for every preamble; so the pair comes back only when the type is 0. *)
Theorem C4_type_is_lost (host : Host) (rnd : Z) (h : NHPHeader.t) (type size : Z)
    (buffer : bytes)
    (Hrandom : subtle_getRandomValues host = true)
    (Hview : (8 <= DataView.byteLength (NHPHeader.view h))%nat)
    (Hfit : (DataView.byteOffset (NHPHeader.view h) + DataView.byteLength (NHPHeader.view h)
             <= length buffer)%nat)
    (Htype : 0 <= type < 2 ^ 16)
    (Hsize : 0 <= size < 2 ^ 16) :
  exists buffer',
    NHPHeader.set_typeAndPayloadSize host rnd h (Number type) (Number size) buffer
    = Normal buffer' /\
    NHPHeader.get_typeAndPayloadSize h buffer' = Normal (0, size) /\
    (type <> 0 -> NHPHeader.get_typeAndPayloadSize h buffer' <> Normal (type, size)).
Proof.
  destruct (set_get_typeAndPayloadSize host rnd h type size buffer Hrandom Hview Hfit)
    as (b' & Hset & Hget).
  exists b'. split; [exact Hset|].
  assert (Hty : ToUint32 type / 2 ^ 16 = 0).
  { rewrite ToUint32_small by lia. apply Z.div_small. lia. }
  assert (Hsz : size mod 2 ^ 16 = size) by (apply Z.mod_small; lia).
  rewrite Hget, Hty, Hsz. split; [reflexivity|].
  intros Hne [= H]. lia.
Qed.

Lemma C4_type_is_lost_witness :
  exists buffer',
    NHPHeader.set_typeAndPayloadSize Demo.host 0xDEADBEEF Demo.header
      (Number 1) (Number 24) (zeros 240) = Normal buffer' /\
    NHPHeader.get_typeAndPayloadSize Demo.header buffer' = Normal (0, 24) /\
    (1 <> 0 -> NHPHeader.get_typeAndPayloadSize Demo.header buffer' <> Normal (1, 24)).
Proof.
  apply (C4_type_is_lost Demo.host 0xDEADBEEF Demo.header 1 24 (zeros 240)).
  - reflexivity.
  - vm_compute. lia.
  - vm_compute. lia.
  - lia.
  - lia.
Defined.

(** Type 1 with size 24 reads back as type 0 with size 24. *)
Example typeAndPayloadSize_1_24 :
  cbind (NHPHeader.set_typeAndPayloadSize Demo.host 0xDEADBEEF Demo.header
           (Number 1) (Number 24) (zeros 240))
        (NHPHeader.get_typeAndPayloadSize Demo.header)
  = Normal (0, 24).
Proof. vm_compute. reflexivity. Qed.

(** In a standard host the setter throws before it writes. *)
Example typeAndPayloadSize_standard_host rnd h type size buffer :
  NHPHeader.set_typeAndPayloadSize standard_host rnd h type size buffer
  = Throw (TypeError "window.crypto.subtle.getRandomValues is not a function").
Proof. reflexivity. Qed.

(** ** C5: the HMAC tag of the header *)

(** C5.  The claim: before a packet is returned, an HMAC tag is written into
    bytes 208 to 239 of the header.  The code: every call to buildNHPPacket
    throws, and bytes 208 to 239 of its packet buffer are zero when it ends;
    and lines 117 to 175, run from any store, leave these bytes as they
    found them: nothing assigns [header.hmac]. *)
Theorem C5_tag_field_is_never_written (C : Crypto) (host : Host) (d : Draws C)
    type priv pub rpub msg st n :
  let r := buildNHPPacket C host d type priv pub rpub msg st in
  (exists e, fst r = Throw e) /\
  NHPHeader.get_hmac (header_of n) (packet (snd r)) = zeros 32 /\
  (forall lp rp st0,
      NHPHeader.get_hmac (header_of n)
        (packet (snd (build_handshake C host d (header_of n) lp rp pub rpub msg st0)))
      = NHPHeader.get_hmac (header_of n) (packet st0)).
Proof.
  destruct (buildNHPPacket_throws C host d type priv pub rpub msg st)
    as (e & st' & -> & Hexit).
  cbn [fst snd]. split; [eauto|]. split.
  - unfold NHPHeader.get_hmac.
    rewrite (prologue_exit_field _ _ _ _ _ _ 208 (208 + 32) Hexit)
      by (unfold PacketBufferSize; lia).
    reflexivity.
  - intros lp rp st0. apply (build_handshake_keeps_hmac C host d n lp rp pub rpub msg st0).
Qed.

(** ** C6: the chain hash

    nhp.js takes every value of [chainHash] from [sumSHA256(chainHasher)],
    where [chainHasher] is one hasher, updated with each piece of data that
    is mixed in; the value that [chainHash] held before is not among what
    the hasher is updated with.  Whether the digest is the hash of that
    value followed by the data rests with [updateSHA256] and [sumSHA256] of
    crypto.js, which are not among the sources.  What nhp.js itself does
    with the hasher and with the associated data of the seals is stated in
    Part IV, with the other properties of lines 117 to 175. *)

(** In a standard host lines 117 to 175 end at line 124, after the two
    hashers were created and before the first update. *)
Example handshake_in_a_standard_host (C : Crypto) (d : Draws C) (h : NHPHeader.t)
    (lp rp : CryptoKey C) (pub rpub : string) (msg : bytes) (st0 : State) :
  build_handshake C standard_host d h lp rp pub rpub msg st0
  = (Throw (ReferenceError "stringToBytes is not defined"),
     log (E_newSHA256Hash chainHasher) (log (E_newSHA256Hash hmacHasher) st0)).
Proof. reflexivity. Qed.

(** ** C7: the sealed static key *)

(** C7.  The claim: the static field of the header holds the seal of the
    local static public key.  The code: every call to buildNHPPacket throws
    and leaves bytes 136 to 183 of its packet buffer zero; and in lines 117
    to 175, run from any store, the plaintexts sealed are, in this order, a
    prefix of: the text [publicKey] that the caller passed (Base64 text, not
    the key bytes), the bytes of [buffer], the payload. *)
Theorem C7_static_field_is_never_written (C : Crypto) (host : Host) (d : Draws C)
    type priv pub rpub msg st n :
  let r := buildNHPPacket C host d type priv pub rpub msg st in
  (exists e, fst r = Throw e) /\
  NHPHeader.get_static (header_of n) (packet (snd r)) = zeros 48 /\
  (forall h lp rp st0,
      let st1 := snd (build_handshake C host d h lp rp pub rpub msg st0) in
      exists evs k,
        trace st1 = trace st0 ++ evs /\
        seal_inputs evs
        = take k (handshake_seals host (NHPHeader.get_nonce h (packet st0)) pub msg)).
Proof.
  destruct (buildNHPPacket_throws C host d type priv pub rpub msg st)
    as (e & st' & -> & Hexit).
  cbn [fst snd]. split; [eauto|]. split.
  - unfold NHPHeader.get_static.
    rewrite (prologue_exit_field _ _ _ _ _ _ 136 (136 + 48) Hexit)
      by (unfold PacketBufferSize; lia).
    reflexivity.
  - intros h lp rp st0.
    destruct (build_handshake_seals C host d h lp rp pub rpub msg st0)
      as (evs & Htr & k & Hk & _).
    exists evs, k. auto.
Qed.

(** Lines 117 to 175 in the demo world, from a zeroed packet buffer: they
    return 240 + 3 + 16 bytes after three seals; the first seal is of the 44
    characters of [publicKey], its 60 bytes are not the 48 of the static
    field, and the field stays zero. *)
Example handshake_in_the_demo_world :
  let st0 := set_packet (zeros PacketBufferSize) Demo.initial_state in
  let r := build_handshake Demo.crypto Demo.host Demo.draws Demo.header
             (zeros 32) (zeros 32) Demo.publicKey Demo.remotePublicKey [x01; x02; x03] st0 in
  (exists p, fst r = Normal p /\ length p = 259%nat) /\
  seal_inputs (trace (snd r))
  = handshake_seals Demo.host (zeros 12) Demo.publicKey [x01; x02; x03] /\
  NHPHeader.get_static Demo.header (packet (snd r)) = zeros 48.
Proof.
  vm_compute. split; [|split; reflexivity].
  eexists. split; reflexivity.
Qed.

(** ** C9: sm2ECDH *)

(** The first byte of a list in front of the list without its last byte is
    the list itself only when all its bytes are that byte. *)
Lemma prefix_and_cut n (X : list byte) (prefix : byte) :
  length X = S n -> prefix :: take n X = X -> X = replicate (S n) prefix.
Proof.
  revert X prefix. induction n as [|n IH]; intros [|x0 X'] prefix Hlen H; try discriminate.
  - destruct X'; [|discriminate]. injection H as ->. reflexivity.
  - injection H as -> H. cbn [replicate]. f_equal.
    apply IH; [cbn in Hlen; lia | exact H].
Qed.

(** C9.  The claim: for a private key of 32 bytes and a public key of 64
    bytes sm2ECDH returns the X coordinate of the shared point, and keys of
    other sizes are refused before the key exchange.  The code: a private
    key of another length, and then a public key of another length, is
    refused with the error that names the size, and [sm2.ecdh] is not
    called; for keys of the right sizes [sm2.ecdh] is called once, on the hex
    text of the whole private key and on 04 followed by the hex text of the
    whole public key, and what is returned is the first 32 bytes of its
    result.  When that result is a point in compressed form, one prefix byte
    and then the 32 bytes of X, sm2ECDH returns the prefix byte and the first
    31 bytes of X, which is X only when all 32 bytes of X are the prefix
    byte; the comment at the [slice] says that the X coordinate is
    returned. *)
Theorem C9_sm2ECDH_returns_the_prefix_byte_and_31_bytes_of_X (lib : SM2.SmCrypto)
    (privateKey publicKey : bytes) (calls : list SM2.LibCall) :
  let privateKeyHex := SM2.bytesToHex lib privateKey in
  let publicKeyHex := String.append "04" (SM2.bytesToHex lib publicKey) in
  let r := SM2.sm2ECDH lib privateKey publicKey calls in
  (length privateKey <> 32%nat ->
   r = (Throw (Error "SM2 private key must be 32 bytes"), calls)) /\
  (length privateKey = 32%nat -> length publicKey <> 64%nat ->
   r = (Throw (Error "SM2 public key must be 64 bytes"), calls)) /\
  (length privateKey = 32%nat -> length publicKey = 64%nat ->
   r = (cmap (take 32) (SM2.sm2_ecdh lib privateKeyHex publicKeyHex),
        calls ++ [SM2.Call_sm2_ecdh privateKeyHex publicKeyHex])) /\
  (forall (prefix : byte) (X : bytes),
      length privateKey = 32%nat -> length publicKey = 64%nat -> length X = 32%nat ->
      SM2.sm2_ecdh lib privateKeyHex publicKeyHex = Normal (prefix :: X) ->
      fst r = Normal (prefix :: take 31 X) /\
      (fst r = Normal X -> X = replicate 32 prefix)).
Proof.
  cbv zeta.
  assert (Hrun : length privateKey = 32%nat -> length publicKey = 64%nat ->
            SM2.sm2ECDH lib privateKey publicKey calls
            = (cmap (take 32)
                 (SM2.sm2_ecdh lib (SM2.bytesToHex lib privateKey)
                    (String.append "04" (SM2.bytesToHex lib publicKey))),
               calls ++ [SM2.Call_sm2_ecdh (SM2.bytesToHex lib privateKey)
                           (String.append "04" (SM2.bytesToHex lib publicKey))])).
  { intros Hp Hq. unfold SM2.sm2ECDH, SM2.SM2_PRIVATE_KEY_SIZE, SM2.SM2_PUBLIC_KEY_SIZE.
    rewrite Hp, Hq. cbn [Nat.eqb negb].
    unfold bind, ret, cmap, cbind, SM2.slice.
    destruct (SM2.sm2_ecdh lib _ _); rewrite ?drop_0; reflexivity. }
  split; [|split; [|split]].
  - intros Hp. unfold SM2.sm2ECDH, SM2.SM2_PRIVATE_KEY_SIZE.
    destruct (Nat.eqb_spec (length privateKey) 32); [contradiction | reflexivity].
  - intros Hp Hq. unfold SM2.sm2ECDH, SM2.SM2_PRIVATE_KEY_SIZE, SM2.SM2_PUBLIC_KEY_SIZE.
    rewrite Hp. cbn [Nat.eqb negb].
    destruct (Nat.eqb_spec (length publicKey) 64); [contradiction | reflexivity].
  - exact Hrun.
  - intros prefix X Hp Hq HX Hlib. rewrite (Hrun Hp Hq), Hlib. cbn [cmap cbind fst].
    change (take 32 (prefix :: X)) with (prefix :: take 31 X).
    split; [reflexivity|].
    intros [= H]. apply (prefix_and_cut 31); assumption.
Qed.

Lemma C9_sm2ECDH_returns_the_prefix_byte_and_31_bytes_of_X_witness :
  let r := SM2.sm2ECDH DemoGM.sm_compressed DemoGM.one DemoGM.base_point [] in
  fst r = Normal (x02 :: take 31 DemoGM.Gx) /\
  (fst r = Normal DemoGM.Gx -> DemoGM.Gx = replicate 32 x02).
Proof.
  apply (proj2 (proj2 (proj2 (C9_sm2ECDH_returns_the_prefix_byte_and_31_bytes_of_X
                                DemoGM.sm_compressed DemoGM.one DemoGM.base_point [])))
           x02 DemoGM.Gx);
    reflexivity.
Defined.

(** The keys of that run are well formed: G lies on the curve, and its Y is
    even, so that 02 is its prefix byte. *)
Example base_point_is_on_the_curve :
  let x := be_to_Z DemoGM.Gx in
  let y := be_to_Z DemoGM.Gy in
  (y * y) mod DemoGM.curve_p
  = (x * x * x + DemoGM.curve_a * x + DemoGM.curve_b) mod DemoGM.curve_p /\
  Z.even y = true.
Proof. vm_compute. split; reflexivity. Qed.

(** For the private key 1 and the public key G, whose shared point is G:
    what comes back is 02 and the first 31 bytes of the X of G, not that
    X. *)
Example sm2ECDH_on_the_base_point :
  let r := fst (SM2.sm2ECDH DemoGM.sm_compressed DemoGM.one DemoGM.base_point []) in
  r = Normal (x02 :: take 31 DemoGM.Gx) /\ r <> Normal DemoGM.Gx.
Proof. vm_compute. split; [reflexivity | discriminate]. Qed.

(** The three cases on concrete keys: a 70-byte secret is cut to 32 bytes;
    a 31-byte private key and a 63-byte public key are refused. *)
Example sm2ECDH_on_concrete_keys :
  SM2.sm2ECDH Demo.sm (zeros 32) (zeros 64) []
  = (Normal (zeros 32), [SM2.Call_sm2_ecdh (SM2.bytesToHex Demo.sm (zeros 32))
                           (String.append "04" (SM2.bytesToHex Demo.sm (zeros 64)))]) /\
  SM2.sm2ECDH Demo.sm (zeros 31) (zeros 64) []
  = (Throw (Error "SM2 private key must be 32 bytes"), []) /\
  SM2.sm2ECDH Demo.sm (zeros 32) (zeros 63) []
  = (Throw (Error "SM2 public key must be 64 bytes"), []).
Proof. vm_compute. repeat split. Qed.

(** ** C10: writes of the wrong length *)

(** C10.  For each of the setters of ephermeral, identity, static, timestamp
    and hmac, and for every byte array whose length is not the width of the
    field (32, 80, 48, 24, 32), the setter returns without error and the
    buffer is, byte for byte, what it was. *)
Theorem C10_wrong_length_write_is_ignored (f : NHPHeader.field) (h : NHPHeader.t)
    (b buffer : bytes) (Hlen : length b <> NHPHeader.width f) :
  NHPHeader.setter f h b buffer = Normal buffer.
Proof.
  destruct f; cbn [NHPHeader.setter NHPHeader.width] in *;
    unfold NHPHeader.set_ephermeral, NHPHeader.set_identity, NHPHeader.set_static,
      NHPHeader.set_timestamp, NHPHeader.set_hmac;
    match goal with |- context [Nat.eqb ?a ?b] => destruct (Nat.eqb_spec a b) end;
    congruence.
Qed.

Lemma C10_wrong_length_write_is_ignored_witness :
  NHPHeader.setter NHPHeader.static Demo.header (zeros 60) (zeros 240)
  = Normal (zeros 240).
Proof.
  apply (C10_wrong_length_write_is_ignored NHPHeader.static Demo.header (zeros 60) (zeros 240)).
  vm_compute. lia.
Defined.

(* ===================================================================== *)
(** * Part IV: the rest of the code                                       *)
(* ===================================================================== *)

(** ** NHPHeader: the five byte-array fields *)

Lemma getter_range f h buffer :
  NHPHeader.getter f h buffer
  = take (NHPHeader.width f) (drop (NHPHeader.bytes_offset h + NHPHeader.start f) buffer).
Proof.
  destruct f; cbn [NHPHeader.getter NHPHeader.width NHPHeader.start];
    unfold NHPHeader.get_ephermeral, NHPHeader.get_identity, NHPHeader.get_static,
      NHPHeader.get_timestamp, NHPHeader.get_hmac, subarray, NHPHeader.bytes_view;
    rewrite drop_drop; reflexivity.
Qed.

Lemma setter_bytes_set f h b buffer :
  NHPHeader.setter f h b buffer
  = if (length b =? NHPHeader.width f)%nat
    then NHPHeader.bytes_set h b (NHPHeader.start f) buffer
    else Normal buffer.
Proof. destruct f; reflexivity. Qed.

(** What a completed field write did to the buffer. *)
Lemma setter_Normal f h b buffer buffer' :
  NHPHeader.setter f h b buffer = Normal buffer' ->
  buffer' = buffer \/
  (length b = NHPHeader.width f /\
   (NHPHeader.bytes_offset h + NHPHeader.start f + NHPHeader.width f <= length buffer)%nat /\
   buffer' = overwrite (NHPHeader.bytes_offset h + NHPHeader.start f) b buffer).
Proof.
  rewrite setter_bytes_set.
  destruct (Nat.eqb_spec (length b) (NHPHeader.width f)) as [Hl | Hl].
  - intros H. apply bytes_set_Normal in H as [Hfit ->]. right.
    assert (24 <= NHPHeader.start f)%nat by (destruct f; cbn; lia).
    repeat split; [assumption | lia].
  - intros [= <-]. left. reflexivity.
Qed.

Lemma field_starts_apart f g :
  g <> f ->
  (NHPHeader.start g + NHPHeader.width g <= NHPHeader.start f)%nat \/
  (NHPHeader.start f + NHPHeader.width f <= NHPHeader.start g)%nat.
Proof.
  destruct f, g; cbn [NHPHeader.start NHPHeader.width]; intros H;
    first [congruence | left; lia | right; lia].
Qed.

(** A range of the buffer that the field [f] does not meet reads the same
    after a write to [f]. *)
Lemma setter_keeps_range f h b buffer buffer' a n :
  NHPHeader.setter f h b buffer = Normal buffer' ->
  (a + n <= NHPHeader.bytes_offset h + NHPHeader.start f)%nat \/
  (NHPHeader.bytes_offset h + NHPHeader.start f + NHPHeader.width f <= a)%nat ->
  take n (drop a buffer') = take n (drop a buffer).
Proof.
  intros H Hr. apply setter_Normal in H as [-> | (Hl & Hfit & ->)]; [reflexivity|].
  destruct Hr; [apply read_before_overwrite | apply read_after_overwrite]; lia.
Qed.

(** X1.  A write of the right length to one of the five byte-array fields,
    in a buffer that holds the field, is read back by the field's getter,
    and the buffer keeps its length. *)
Theorem field_write_then_read (f : NHPHeader.field) (h : NHPHeader.t) (b buffer : bytes)
    (Hlen : length b = NHPHeader.width f)
    (Hfit : (NHPHeader.bytes_offset h + NHPHeader.start f + NHPHeader.width f
             <= length buffer)%nat) :
  exists buffer',
    NHPHeader.setter f h b buffer = Normal buffer' /\
    length buffer' = length buffer /\
    NHPHeader.getter f h buffer' = b.
Proof.
  rewrite setter_bytes_set. rewrite <- Hlen, Nat.eqb_refl.
  unfold NHPHeader.bytes_set, NHPHeader.bytes_view. rewrite length_drop.
  destruct (Nat.leb_spec (NHPHeader.start f + length b)
              (length buffer - NHPHeader.bytes_offset h)); [|lia].
  eexists. split; [reflexivity|]. split.
  - apply overwrite_length. lia.
  - rewrite getter_range, <- Hlen. apply read_overwrite. lia.
Qed.

Lemma field_write_then_read_witness :
  exists buffer',
    NHPHeader.setter NHPHeader.static Demo.header (replicate 48 x2a) (zeros 240)
    = Normal buffer' /\
    length buffer' = length (zeros 240) /\
    NHPHeader.getter NHPHeader.static Demo.header buffer' = replicate 48 x2a.
Proof.
  apply (field_write_then_read NHPHeader.static Demo.header (replicate 48 x2a) (zeros 240)).
  - reflexivity.
  - vm_compute. lia.
Defined.

(** X2.  A completed write to a field leaves what every other field's
    getter reads as it was, and the nonce; and, in a header whose two views
    start at the same byte, the type and size, the version, the flags and
    the counter. *)
Theorem field_write_keeps_the_rest (f : NHPHeader.field) (h : NHPHeader.t)
    (b buffer buffer' : bytes)
    (Hset : NHPHeader.setter f h b buffer = Normal buffer') :
  (forall g, g <> f -> NHPHeader.getter g h buffer' = NHPHeader.getter g h buffer) /\
  NHPHeader.get_nonce h buffer' = NHPHeader.get_nonce h buffer /\
  (DataView.byteOffset (NHPHeader.view h) = NHPHeader.bytes_offset h ->
   NHPHeader.get_typeAndPayloadSize h buffer' = NHPHeader.get_typeAndPayloadSize h buffer /\
   NHPHeader.get_version h buffer' = NHPHeader.get_version h buffer /\
   NHPHeader.get_flags h buffer' = NHPHeader.get_flags h buffer /\
   NHPHeader.get_counter h buffer' = NHPHeader.get_counter h buffer).
Proof.
  assert (Hlow : forall a n, (a + n <= 24)%nat ->
            take n (drop (NHPHeader.bytes_offset h + a) buffer')
            = take n (drop (NHPHeader.bytes_offset h + a) buffer)).
  { intros a n Han. apply (setter_keeps_range f h b); [exact Hset|].
    left. destruct f; cbn [NHPHeader.start]; lia. }
  split; [|split].
  - intros g Hg. rewrite !getter_range.
    apply (setter_keeps_range f h b); [exact Hset|].
    destruct (field_starts_apart f g Hg); [left | right]; lia.
  - unfold NHPHeader.get_nonce, subarray, NHPHeader.bytes_view.
    rewrite !drop_drop. rewrite (Hlow 16%nat (24 - 16)%nat) by lia. reflexivity.
  - intros Ho.
    assert (Hload : forall idx n, (match ToIndex idx with Normal i => (i + n <= 24)%nat | _ => True end) ->
              DataView.load (NHPHeader.view h) idx n buffer'
              = DataView.load (NHPHeader.view h) idx n buffer).
    { intros idx n Hi. unfold DataView.load.
      destruct (ToIndex idx) as [i|e]; cbn [cbind]; [|reflexivity].
      destruct (_ <=? _)%nat; [|reflexivity].
      rewrite Ho, Hlow by exact Hi. reflexivity. }
    unfold NHPHeader.get_typeAndPayloadSize, NHPHeader.get_version, NHPHeader.get_flags,
      NHPHeader.get_counter, DataView.getUint32, DataView.getUint8, DataView.getUint16,
      DataView.getBigUint64.
    rewrite !Hload by (vm_compute; lia). auto.
Qed.

Lemma field_write_keeps_the_rest_witness :
  (forall g, g <> NHPHeader.static ->
     NHPHeader.getter g Demo.header (overwrite 136 (replicate 48 x2a) (zeros 240))
     = NHPHeader.getter g Demo.header (zeros 240)) /\
  NHPHeader.get_nonce Demo.header (overwrite 136 (replicate 48 x2a) (zeros 240))
  = NHPHeader.get_nonce Demo.header (zeros 240) /\
  (DataView.byteOffset (NHPHeader.view Demo.header) = NHPHeader.bytes_offset Demo.header ->
   NHPHeader.get_typeAndPayloadSize Demo.header (overwrite 136 (replicate 48 x2a) (zeros 240))
   = NHPHeader.get_typeAndPayloadSize Demo.header (zeros 240) /\
   NHPHeader.get_version Demo.header (overwrite 136 (replicate 48 x2a) (zeros 240))
   = NHPHeader.get_version Demo.header (zeros 240) /\
   NHPHeader.get_flags Demo.header (overwrite 136 (replicate 48 x2a) (zeros 240))
   = NHPHeader.get_flags Demo.header (zeros 240) /\
   NHPHeader.get_counter Demo.header (overwrite 136 (replicate 48 x2a) (zeros 240))
   = NHPHeader.get_counter Demo.header (zeros 240)).
Proof.
  apply (field_write_keeps_the_rest NHPHeader.static Demo.header (replicate 48 x2a)).
  vm_compute. reflexivity.
Defined.

(** X3.  A write of the right length to a field that the buffer does not
    hold to its last byte throws the typed array's RangeError. *)
Theorem field_write_past_the_buffer_throws (f : NHPHeader.field) (h : NHPHeader.t)
    (b buffer : bytes)
    (Hlen : length b = NHPHeader.width f)
    (Hshort : (length buffer
               < NHPHeader.bytes_offset h + NHPHeader.start f + NHPHeader.width f)%nat) :
  NHPHeader.setter f h b buffer = Throw (RangeError "offset is out of bounds").
Proof.
  assert (24 <= NHPHeader.start f)%nat by (destruct f; cbn; lia).
  rewrite setter_bytes_set. rewrite <- Hlen, Nat.eqb_refl.
  unfold NHPHeader.bytes_set, NHPHeader.bytes_view. rewrite length_drop.
  destruct (Nat.leb_spec (NHPHeader.start f + length b)
              (length buffer - NHPHeader.bytes_offset h)); [lia | reflexivity].
Qed.

Lemma field_write_past_the_buffer_throws_witness :
  NHPHeader.setter NHPHeader.hmac Demo.header (zeros 32) (zeros 239)
  = Throw (RangeError "offset is out of bounds").
Proof.
  apply (field_write_past_the_buffer_throws NHPHeader.hmac Demo.header (zeros 32) (zeros 239)).
  - reflexivity.
  - vm_compute. lia.
Defined.

(** X4.  The five fields cover bytes 24 to 239 of the header, each byte
    once: a byte of the header from 24 on lies in a field, a byte of a field
    lies in the header, and in no second field. *)
Theorem fields_tile_the_header (i : nat) :
  ((24 <= i < NHPHeader.SIZE)%nat <->
   exists f, (NHPHeader.start f <= i < NHPHeader.start f + NHPHeader.width f)%nat) /\
  (forall f g,
      (NHPHeader.start f <= i < NHPHeader.start f + NHPHeader.width f)%nat ->
      (NHPHeader.start g <= i < NHPHeader.start g + NHPHeader.width g)%nat ->
      f = g).
Proof.
  split; [split|].
  - intros Hi. unfold NHPHeader.SIZE in Hi.
    destruct (le_lt_dec 56 i); [|exists NHPHeader.ephermeral; cbn; lia].
    destruct (le_lt_dec 136 i); [|exists NHPHeader.identity; cbn; lia].
    destruct (le_lt_dec 184 i); [|exists NHPHeader.static; cbn; lia].
    destruct (le_lt_dec 208 i); [|exists NHPHeader.timestamp; cbn; lia].
    exists NHPHeader.hmac. cbn. lia.
  - intros [f Hf]. unfold NHPHeader.SIZE.
    destruct f; cbn [NHPHeader.start NHPHeader.width] in Hf; lia.
  - intros f g Hf Hg.
    destruct f, g; cbn [NHPHeader.start NHPHeader.width] in Hf, Hg;
      first [reflexivity | lia].
Qed.

(** ** Big-endian numbers *)

Section BigEndian.

Lemma byte_to_Z_range b : 0 <= byte_to_Z b < 256.
Proof.
  unfold byte_to_Z. pose proof (Byte.to_N_bounded b). lia.
Qed.

Lemma Z_to_byte_to_Z b : Z_to_byte (byte_to_Z b) = b.
Proof.
  unfold Z_to_byte. pose proof (byte_to_Z_range b).
  rewrite Z.mod_small by lia. unfold byte_to_Z. rewrite N2Z.id, Byte.of_to_N. reflexivity.
Qed.

Lemma Z_to_byte_mod n : Z_to_byte (n mod 256) = Z_to_byte n.
Proof. unfold Z_to_byte. rewrite Z.mod_mod by lia. reflexivity. Qed.

Lemma be_to_Z_snoc l b : be_to_Z (l ++ [b]) = be_to_Z l * 256 + byte_to_Z b.
Proof. unfold be_to_Z. rewrite fold_left_app. reflexivity. Qed.

Lemma be_to_Z_range l : 0 <= be_to_Z l < 256 ^ Z.of_nat (length l).
Proof.
  induction l as [|b l IH] using rev_ind.
  - cbn. lia.
  - rewrite be_to_Z_snoc, length_app. cbn [length].
    replace (Z.of_nat (length l + 1)) with (Z.of_nat (length l) + 1) by lia.
    rewrite Z.pow_add_r by lia. pose proof (byte_to_Z_range b). nia.
Qed.

Lemma be_to_Z_cons b l :
  be_to_Z (b :: l) = byte_to_Z b * 256 ^ Z.of_nat (length l) + be_to_Z l.
Proof.
  induction l as [|c l IH] using rev_ind.
  - cbn. lia.
  - rewrite app_comm_cons, !be_to_Z_snoc, IH, length_app. cbn [length].
    replace (Z.of_nat (length l + 1)) with (Z.of_nat (length l) + 1) by lia.
    rewrite Z.pow_add_r by lia. lia.
Qed.

(** Multiples of 256^k do not show in the [j <= k] low bytes. *)
Lemma Z_to_be_low j k n m :
  (j <= k)%nat -> Z_to_be j (m * 256 ^ Z.of_nat k + n) = Z_to_be j n.
Proof.
  induction j as [|j IH]; intros Hj; [reflexivity|].
  cbn [Z_to_be]. rewrite IH by lia. f_equal.
  replace (Z.of_nat k) with (Z.of_nat j + (Z.of_nat (k - S j) + 1)) by lia.
  rewrite Z.pow_add_r, Z.pow_add_r by lia. change (256 ^ 1) with 256.
  replace (m * (256 ^ Z.of_nat j * (256 ^ Z.of_nat (k - S j) * 256)) + n)
    with (n + (m * 256 ^ Z.of_nat (k - S j) * 256) * 256 ^ Z.of_nat j) by lia.
  rewrite Z.div_add by lia.
  rewrite <- Z_to_byte_mod, Z.mod_add by lia. apply Z_to_byte_mod.
Qed.

(** The bytes of a big-endian number are the bytes it was read from. *)
Lemma Z_to_be_to_Z l : Z_to_be (length l) (be_to_Z l) = l.
Proof.
  induction l as [|b l IH]; [reflexivity|].
  cbn [length Z_to_be]. rewrite be_to_Z_cons.
  pose proof (be_to_Z_range l). f_equal.
  - rewrite Z.div_add_l by lia. rewrite Z.div_small by lia.
    rewrite Z.add_0_r. apply Z_to_byte_to_Z.
  - rewrite Z_to_be_low by lia. exact IH.
Qed.

End BigEndian.

(** ** NHPHeader: version, flags, nonce, type and size *)

(** X5.  Writing a version and reading it back gives major and minor
    modulo 256, in a header whose view has at least 10 bytes inside the
    buffer; the buffer keeps its length. *)
Theorem version_write_then_read (h : NHPHeader.t) (major minor : Z) (buffer : bytes)
    (Hview : (10 <= DataView.byteLength (NHPHeader.view h))%nat)
    (Hfit : (DataView.byteOffset (NHPHeader.view h) + DataView.byteLength (NHPHeader.view h)
             <= length buffer)%nat) :
  exists buffer',
    NHPHeader.set_version h major minor buffer = Normal buffer' /\
    length buffer' = length buffer /\
    NHPHeader.get_version h buffer' = Normal (major mod 256, minor mod 256).
Proof.
  set (o := DataView.byteOffset (NHPHeader.view h)) in *.
  assert (Hone : forall v, length (Z_to_be 1 v) = 1%nat) by (intros; apply Z_to_be_length).
  assert (Hread : forall v, be_to_Z (Z_to_be 1 (v mod 256)) = v mod 256).
  { intros v. cbn [Z_to_be be_to_Z fold_left]. change (256 ^ Z.of_nat 0) with 1.
    rewrite Z.div_1_r, byte_to_Z_to_byte, Z.mod_mod by lia. lia. }
  unfold NHPHeader.set_version, DataView.setUint8.
  rewrite (store_Normal _ 8) by (rewrite ?Hone; lia). cbn [cbind].
  rewrite (store_Normal _ 9) by (rewrite ?Hone; lia).
  fold o. set (b1 := overwrite (o + 8) (Z_to_be 1 (major mod 256)) buffer).
  assert (L1 : length b1 = length buffer) by (apply overwrite_length; rewrite Hone; lia).
  eexists. split; [reflexivity|]. split.
  - rewrite overwrite_length by (rewrite Hone; lia). exact L1.
  - unfold NHPHeader.get_version, DataView.getUint8.
    rewrite (load_Normal _ 8), (load_Normal _ 9) by lia. cbn [cmap cbind]. fold o.
    assert (Hmaj : take 1 (drop (o + 8) (overwrite (o + 9) (Z_to_be 1 (minor mod 256)) b1))
                   = Z_to_be 1 (major mod 256)).
    { rewrite read_before_overwrite by lia. unfold b1.
      rewrite <- (Hone (major mod 256)) at 1. apply read_overwrite. lia. }
    assert (Hmin : take 1 (drop (o + 9) (overwrite (o + 9) (Z_to_be 1 (minor mod 256)) b1))
                   = Z_to_be 1 (minor mod 256)).
    { rewrite <- (Hone (minor mod 256)) at 1. apply read_overwrite. lia. }
    rewrite Hmaj, Hmin.
    rewrite !Hread. reflexivity.
Qed.

Lemma version_write_then_read_witness :
  exists buffer',
    NHPHeader.set_version Demo.header 257 0 (zeros 240) = Normal buffer' /\
    length buffer' = length (zeros 240) /\
    NHPHeader.get_version Demo.header buffer' = Normal (257 mod 256, 0 mod 256).
Proof.
  apply (version_write_then_read Demo.header 257 0 (zeros 240)).
  - vm_compute. lia.
  - vm_compute. lia.
Defined.

(** X6.  The nonce getter returns 12 bytes that start with four zero
    bytes, for every header and every buffer, also one too short to hold
    the counter field. *)
Theorem nonce_has_twelve_bytes (h : NHPHeader.t) (buffer : bytes) :
  length (NHPHeader.get_nonce h buffer) = 12%nat /\
  take 4 (NHPHeader.get_nonce h buffer) = zeros 4.
Proof.
  unfold NHPHeader.get_nonce, overwrite, subarray.
  set (sub := take (24 - 16) (drop 16 (NHPHeader.bytes_view h buffer))).
  assert (Hsub : (length sub <= 8)%nat) by (unfold sub; rewrite length_take; lia).
  split.
  - rewrite !length_app, length_take, length_drop, zeros_length. lia.
  - rewrite take_app_length' by (rewrite length_take, zeros_length; lia).
    rewrite take_zeros. reflexivity.
Qed.

(** In a header whose views start at the same byte and whose buffer holds
    the counter field, the nonce is four zero bytes and the eight bytes of
    the counter field, which are the big-endian bytes of the number that
    the counter getter returns. *)
Lemma counter_field_nonce (h : NHPHeader.t) (buffer : bytes) :
  DataView.byteOffset (NHPHeader.view h) = NHPHeader.bytes_offset h ->
  (24 <= DataView.byteLength (NHPHeader.view h))%nat ->
  (NHPHeader.bytes_offset h + 24 <= length buffer)%nat ->
  exists c,
    NHPHeader.get_counter h buffer = Normal c /\
    0 <= c < 2 ^ 64 /\
    NHPHeader.get_nonce h buffer = zeros 4 ++ Z_to_be 8 c.
Proof.
  intros Hsame Hview Hfit.
  set (sub := take 8 (drop (NHPHeader.bytes_offset h + 16) buffer)).
  assert (Hsub : length sub = 8%nat).
  { unfold sub. rewrite length_take, length_drop. lia. }
  exists (be_to_Z sub). split; [|split].
  - unfold NHPHeader.get_counter, DataView.getBigUint64.
    rewrite (load_Normal _ 16) by lia. rewrite Hsame. reflexivity.
  - pose proof (be_to_Z_range sub) as H. rewrite Hsub in H. exact H.
  - rewrite <- Hsub at 1. rewrite Z_to_be_to_Z.
    unfold NHPHeader.get_nonce, overwrite, subarray, NHPHeader.bytes_view.
    rewrite drop_drop. change (24 - 16)%nat with 8%nat. fold sub.
    rewrite Hsub. rewrite (drop_ge (zeros 12)) by (rewrite zeros_length; lia).
    rewrite app_nil_r. reflexivity.
Qed.

(** X7.  In a header whose views start at the same byte and whose buffer
    holds the counter field, the counter getter returns a number below 2^64
    and the nonce is four zero bytes followed by the eight big-endian bytes
    of that number. *)
Theorem nonce_is_the_counter_behind_four_zero_bytes (h : NHPHeader.t) (buffer : bytes)
    (Hsame : DataView.byteOffset (NHPHeader.view h) = NHPHeader.bytes_offset h)
    (Hview : (24 <= DataView.byteLength (NHPHeader.view h))%nat)
    (Hfit : (NHPHeader.bytes_offset h + 24 <= length buffer)%nat) :
  exists c,
    NHPHeader.get_counter h buffer = Normal c /\
    0 <= c < 2 ^ 64 /\
    NHPHeader.get_nonce h buffer = zeros 4 ++ Z_to_be 8 c.
Proof. exact (counter_field_nonce h buffer Hsame Hview Hfit). Qed.

Lemma nonce_is_the_counter_behind_four_zero_bytes_witness :
  exists c,
    NHPHeader.get_counter Demo.header (overwrite 16 (Z_to_be 8 258) (zeros 240)) = Normal c /\
    0 <= c < 2 ^ 64 /\
    NHPHeader.get_nonce Demo.header (overwrite 16 (Z_to_be 8 258) (zeros 240))
    = zeros 4 ++ Z_to_be 8 c.
Proof.
  apply (nonce_is_the_counter_behind_four_zero_bytes Demo.header
           (overwrite 16 (Z_to_be 8 258) (zeros 240))).
  - reflexivity.
  - vm_compute. lia.
  - vm_compute. lia.
Defined.

Lemma land_pow2_testbit v k :
  0 <= k -> negb (Z.land v (2 ^ k) =? 0) = Z.testbit v k.
Proof.
  intros Hk. destruct (Z.testbit v k) eqn:E.
  - destruct (Z.eqb_spec (Z.land v (2 ^ k)) 0) as [H0|]; [|reflexivity].
    assert (Z.testbit (Z.land v (2 ^ k)) k = true).
    { rewrite Z.land_spec, E, Z.pow2_bits_true by lia. reflexivity. }
    rewrite H0, Z.bits_0 in H. discriminate.
  - replace (Z.land v (2 ^ k)) with 0; [reflexivity|].
    symmetry. apply Z.bits_inj'. intros i Hi.
    rewrite Z.land_spec, Z.bits_0.
    destruct (Z.eq_dec i k) as [->|Hne].
    + rewrite E. reflexivity.
    + rewrite Z.pow2_bits_false by lia. apply andb_false_r.
Qed.

Lemma testbit_low_byte hi lo i :
  0 <= lo < 256 -> 0 <= i < 8 ->
  Z.testbit (hi * 256 + lo) i = Z.testbit lo i.
Proof.
  intros Hlo Hi.
  rewrite <- (Z.mod_pow2_bits_low (hi * 256 + lo) 8 i) by lia.
  change (2 ^ 8) with 256.
  rewrite Z.add_comm, Z.mod_add, Z.mod_small by lia. reflexivity.
Qed.

(** X8.  The flags getter reads bits 0 and 1 of byte 11 of the view:
    [extended] is bit 0, [compressed] is bit 1, and byte 10 does not
    matter. *)
Theorem flags_are_the_two_low_bits_of_byte_11 (h : NHPHeader.t) (buffer : bytes)
    (hi lo : byte)
    (Hview : (12 <= DataView.byteLength (NHPHeader.view h))%nat)
    (Hhi : buffer !! (DataView.byteOffset (NHPHeader.view h) + 10)%nat = Some hi)
    (Hlo : buffer !! (DataView.byteOffset (NHPHeader.view h) + 11)%nat = Some lo) :
  NHPHeader.get_flags h buffer
  = Normal (Z.testbit (byte_to_Z lo) 0, Z.testbit (byte_to_Z lo) 1).
Proof.
  unfold NHPHeader.get_flags, DataView.getUint16.
  rewrite (load_Normal _ 10) by lia.
  rewrite (drop_S _ hi) by exact Hhi.
  rewrite (drop_S _ lo) by (rewrite <- Hlo; f_equal; lia).
  cbn [firstn cmap cbind be_to_Z fold_left]. rewrite take_0. cbn [fold_left].
  pose proof (byte_to_Z_range hi) as Rhi. pose proof (byte_to_Z_range lo) as Rlo.
  set (flag := (0 * 256 + byte_to_Z hi) * 256 + byte_to_Z lo).
  assert (Rflag : 0 <= flag < 2 ^ 32) by (unfold flag; lia).
  rewrite !ushr_0, !ToUint32_band, (ToUint32_small flag) by exact Rflag.
  change (ToUint32 1) with (2 ^ 0). change (ToUint32 2) with (2 ^ 1).
  rewrite !land_pow2_testbit by lia.
  unfold flag. rewrite !testbit_low_byte by lia. reflexivity.
Qed.

Lemma flags_are_the_two_low_bits_of_byte_11_witness :
  NHPHeader.get_flags Demo.header (overwrite 10 [xff; x02] (zeros 240))
  = Normal (Z.testbit (byte_to_Z x02) 0, Z.testbit (byte_to_Z x02) 1).
Proof.
  apply (flags_are_the_two_low_bits_of_byte_11 Demo.header
           (overwrite 10 [xff; x02] (zeros 240)) xff x02).
  - vm_compute. lia.
  - reflexivity.
  - reflexivity.
Defined.

Lemma load_length v idx n buffer l :
  DataView.load v idx n buffer = Normal l -> (length l <= n)%nat.
Proof.
  unfold DataView.load. destruct (ToIndex idx); cbn [cbind]; [|discriminate].
  destruct (_ <=? _)%nat; [|discriminate]. intros [= <-]. rewrite length_take. lia.
Qed.

Lemma getUint32_range v idx buffer a :
  DataView.getUint32 v idx buffer = Normal a -> 0 <= a < 2 ^ 32.
Proof.
  unfold DataView.getUint32, cmap.
  destruct (DataView.load v idx 4 buffer) as [l|] eqn:E; cbn [cbind]; [|discriminate].
  intros [= <-]. apply load_length in E. pose proof (be_to_Z_range l) as R.
  assert (256 ^ Z.of_nat (length l) <= 256 ^ 4) by (apply Z.pow_le_mono_r; lia).
  change (256 ^ 4) with (2 ^ 32) in *. lia.
Qed.

(** X9.  When the type and size getter returns, both numbers are below
    2^16, and together, type in the high half, they are the XOR of the two
    32-bit words at bytes 0 and 4 of the view. *)
Theorem typeAndPayloadSize_read_splits_the_xor (h : NHPHeader.t) (buffer : bytes)
    (type size : Z)
    (Hget : NHPHeader.get_typeAndPayloadSize h buffer = Normal (type, size)) :
  0 <= type < 2 ^ 16 /\ 0 <= size < 2 ^ 16 /\
  exists a b,
    DataView.getUint32 (NHPHeader.view h) (Number 0) buffer = Normal a /\
    DataView.getUint32 (NHPHeader.view h) (Number 4) buffer = Normal b /\
    type * 2 ^ 16 + size = Z.lxor a b.
Proof.
  unfold NHPHeader.get_typeAndPayloadSize in Hget.
  destruct (DataView.getUint32 _ (Number 0) buffer) as [a|] eqn:Ea; cbn [cbind] in Hget;
    [|discriminate].
  destruct (DataView.getUint32 _ (Number 4) buffer) as [b|] eqn:Eb; cbn [cbind] in Hget;
    [|discriminate].
  apply getUint32_range in Ea as Ra. apply getUint32_range in Eb as Rb.
  injection Hget as Ht Hs.
  rewrite !ushr_0, ushr_16 in Ht. rewrite !ushr_0 in Hs.
  rewrite ToUint32_div_small in Ht.
  rewrite ToUint32_band, ToUint32_idemp, ToUint32_bxor in Ht, Hs.
  rewrite (ToUint32_small a), (ToUint32_small b) in Ht, Hs by assumption.
  set (v := Z.lxor a b) in *.
  assert (Rv : 0 <= v < 2 ^ 32).
  { unfold v. split; [apply Z.lxor_nonneg; lia|].
    destruct (Z.eq_dec (Z.lxor a b) 0) as [->|Hne]; [lia|].
    apply Z.log2_lt_pow2; [pose proof (Z.lxor_nonneg a b); lia|].
    eapply Z.le_lt_trans; [apply Z.log2_lxor; lia|].
    apply Z.max_lub_lt.
    - destruct (Z.eq_dec a 0) as [->|]; [cbn; lia | apply Z.log2_lt_pow2; lia].
    - destruct (Z.eq_dec b 0) as [->|]; [cbn; lia | apply Z.log2_lt_pow2; lia]. }
  change (ToUint32 65535) with (Z.ones 16) in Hs.
  rewrite Z.land_ones in Hs by lia.
  assert (Hhigh : Z.land v (ToUint32 4294901760) = (v / 2 ^ 16) * 2 ^ 16).
  { change (ToUint32 4294901760) with (Z.shiftl (Z.ones 16) 16).
    rewrite <- Z.shiftr_div_pow2, <- Z.shiftl_mul_pow2 by lia.
    apply Z.bits_inj'. intros i Hi.
    rewrite Z.land_spec.
    destruct (Z.ltb_spec i 16).
    - rewrite !Z.shiftl_spec_low by lia. apply andb_false_r.
    - rewrite !Z.shiftl_spec_high by lia.
      rewrite Z.shiftr_spec by lia. replace (i - 16 + 16) with i by lia.
      rewrite Z.testbit_ones_nonneg by lia.
      destruct (Z.ltb_spec (i - 16) 16).
      + apply andb_true_r.
      + rewrite andb_false_r. symmetry. apply Z.bits_above_log2; [lia|].
        destruct (Z.eq_dec v 0) as [E0|]; [rewrite E0; cbn; lia|].
        assert (Z.log2 v < 32) by (apply Z.log2_lt_pow2; lia). lia. }
  rewrite Hhigh in Ht. rewrite Z.div_mul in Ht by lia.
  subst type size.
  pose proof (Z.mod_pos_bound v (2 ^ 16) ltac:(lia)).
  pose proof (Z.div_mod v (2 ^ 16) ltac:(lia)).
  assert (0 <= v / 2 ^ 16 < 2 ^ 16)
    by (split; [apply Z.div_pos; lia | apply Z.div_lt_upper_bound; lia]).
  split; [assumption|]. split; [assumption|].
  exists a, b. split; [reflexivity|]. split; [reflexivity|]. fold v. lia.
Qed.

Lemma typeAndPayloadSize_read_splits_the_xor_witness :
  0 <= 0 < 2 ^ 16 /\ 0 <= 24 < 2 ^ 16 /\
  exists a b,
    DataView.getUint32 (NHPHeader.view Demo.header) (Number 0)
      (overwrite 0 (Z_to_be 8 0xDEADBEEFDEADBEF7) (zeros 240)) = Normal a /\
    DataView.getUint32 (NHPHeader.view Demo.header) (Number 4)
      (overwrite 0 (Z_to_be 8 0xDEADBEEFDEADBEF7) (zeros 240)) = Normal b /\
    0 * 2 ^ 16 + 24 = Z.lxor a b.
Proof.
  apply (typeAndPayloadSize_read_splits_the_xor Demo.header
           (overwrite 0 (Z_to_be 8 0xDEADBEEFDEADBEF7) (zeros 240)) 0 24).
  vm_compute. reflexivity.
Defined.

(** A completed store of the view at the constant index [i] changed bytes
    [o + i] to [o + i + length src - 1] of the buffer and no other, [o]
    being the offset of the view. *)
Lemma store_frame v (i : nat) src buffer b' :
  DataView.store v (Number (Z.of_nat i)) src buffer = Normal b' ->
  (DataView.byteOffset v + DataView.byteLength v <= length buffer)%nat ->
  length b' = length buffer /\
  forall a n,
    (a + n <= DataView.byteOffset v + i)%nat \/
    (DataView.byteOffset v + i + length src <= a)%nat ->
    take n (drop a b') = take n (drop a buffer).
Proof.
  intros H Hfit. apply store_Normal_inv in H as (j & Hj & Hle & ->).
  apply ToIndex_nat_inv in Hj. subst j.
  split; [apply overwrite_length; lia|].
  intros a n [Ha | Ha]; [apply read_before_overwrite | apply read_after_overwrite]; lia.
Qed.

(** What the getters other than the one of the type and size read depends
    on the buffer from byte 8 of the header on; what the getters other than
    the one of the version read, on the buffer outside bytes 8 and 9. *)
Lemma getters_from_ranges h buffer b' (P : nat -> nat -> Prop) :
  DataView.byteOffset (NHPHeader.view h) = NHPHeader.bytes_offset h ->
  (forall a n, P a n ->
     take n (drop (NHPHeader.bytes_offset h + a) b')
     = take n (drop (NHPHeader.bytes_offset h + a) buffer)) ->
  (forall g, P (NHPHeader.start g) (NHPHeader.width g) ->
     NHPHeader.getter g h b' = NHPHeader.getter g h buffer) /\
  (P 16%nat 8%nat ->
   NHPHeader.get_nonce h b' = NHPHeader.get_nonce h buffer /\
   NHPHeader.get_counter h b' = NHPHeader.get_counter h buffer) /\
  (P 10%nat 2%nat -> NHPHeader.get_flags h b' = NHPHeader.get_flags h buffer) /\
  (P 8%nat 1%nat -> P 9%nat 1%nat ->
   NHPHeader.get_version h b' = NHPHeader.get_version h buffer) /\
  (P 0%nat 4%nat -> P 4%nat 4%nat ->
   NHPHeader.get_typeAndPayloadSize h b' = NHPHeader.get_typeAndPayloadSize h buffer).
Proof.
  intros Ho Hsame.
  assert (Hload : forall z (i : nat) n, z = Z.of_nat i -> P i n ->
            DataView.load (NHPHeader.view h) (Number z) n b'
            = DataView.load (NHPHeader.view h) (Number z) n buffer).
  { intros z i n -> Hp. unfold DataView.load.
    destruct (ToIndex (Number (Z.of_nat i))) as [j|] eqn:Ej; cbn [cbind]; [|reflexivity].
    apply ToIndex_nat_inv in Ej. subst j.
    destruct (_ <=? _)%nat; [|reflexivity]. rewrite Ho, (Hsame i n Hp). reflexivity. }
  split; [|split; [|split; [|split]]].
  - intros g Hg. rewrite !getter_range. apply Hsame, Hg.
  - intros Hp. split.
    + unfold NHPHeader.get_nonce, subarray, NHPHeader.bytes_view. rewrite !drop_drop.
      change (24 - 16)%nat with 8%nat. rewrite (Hsame 16%nat 8%nat Hp). reflexivity.
    + unfold NHPHeader.get_counter, DataView.getBigUint64.
      rewrite (Hload 16 16%nat 8%nat eq_refl Hp). reflexivity.
  - intros Hp. unfold NHPHeader.get_flags, DataView.getUint16.
    rewrite (Hload 10 10%nat 2%nat eq_refl Hp). reflexivity.
  - intros Hp Hq. unfold NHPHeader.get_version, DataView.getUint8.
    rewrite (Hload 8 8%nat 1%nat eq_refl Hp), (Hload 9 9%nat 1%nat eq_refl Hq). reflexivity.
  - intros Hp Hq. unfold NHPHeader.get_typeAndPayloadSize, DataView.getUint32.
    rewrite (Hload 0 0%nat 4%nat eq_refl Hp), (Hload 4 4%nat 4%nat eq_refl Hq). reflexivity.
Qed.

(** X10.  A completed write of the type and size, in a header whose two
    views start at the same byte and whose view lies inside the buffer,
    leaves the length of the buffer, the five fields, the version, the
    flags, the counter and the nonce as they were: it changes bytes 0 to 7
    of the header and no other. *)
Theorem typeAndPayloadSize_write_keeps_the_rest (host : Host) (rnd : Z) (h : NHPHeader.t)
    (type size : Numeric) (buffer buffer' : bytes)
    (Hset : NHPHeader.set_typeAndPayloadSize host rnd h type size buffer = Normal buffer')
    (Hsame : DataView.byteOffset (NHPHeader.view h) = NHPHeader.bytes_offset h)
    (Hfit : (DataView.byteOffset (NHPHeader.view h) + DataView.byteLength (NHPHeader.view h)
             <= length buffer)%nat) :
  length buffer' = length buffer /\
  (forall g, NHPHeader.getter g h buffer' = NHPHeader.getter g h buffer) /\
  NHPHeader.get_version h buffer' = NHPHeader.get_version h buffer /\
  NHPHeader.get_flags h buffer' = NHPHeader.get_flags h buffer /\
  NHPHeader.get_counter h buffer' = NHPHeader.get_counter h buffer /\
  NHPHeader.get_nonce h buffer' = NHPHeader.get_nonce h buffer.
Proof.
  unfold NHPHeader.set_typeAndPayloadSize in Hset.
  destruct (subtle_getRandomValues host); cbn [cbind] in Hset; [|discriminate].
  destruct (ToInt32_operand type) as [ty|]; cbn [cbind] in Hset; [|discriminate].
  destruct (ToInt32_operand size) as [sz|]; cbn [cbind] in Hset; [|discriminate].
  unfold DataView.setUint32 in Hset.
  destruct (DataView.store _ (Number 0) _ buffer) as [b1|] eqn:E1; cbn [cbind] in Hset;
    [|discriminate].
  apply (store_frame _ 0) in E1 as [L1 F1]; [|exact Hfit].
  apply (store_frame _ 4) in Hset as [L2 F2]; [|rewrite L1; exact Hfit].
  rewrite Z_to_be_length in F1, F2.
  assert (Hlen : length buffer' = length buffer) by congruence.
  assert (Hkeep : forall a n, (8 <= a)%nat ->
            take n (drop (NHPHeader.bytes_offset h + a) buffer')
            = take n (drop (NHPHeader.bytes_offset h + a) buffer)).
  { intros a n Ha. rewrite F2, F1 by (right; lia). reflexivity. }
  destruct (getters_from_ranges h buffer buffer' (fun a _ => (8 <= a)%nat) Hsame
              (fun a n Ha => Hkeep a n Ha)) as (Hg & Hnc & Hfl & Hv & _).
  split; [exact Hlen|]. split.
  - intros g. apply Hg. destruct g; cbn; lia.
  - destruct Hnc as [Hn Hc]; [lia|].
    repeat split; [apply Hv; lia | apply Hfl; lia | exact Hc | exact Hn].
Qed.

Lemma typeAndPayloadSize_write_keeps_the_rest_witness :
  let buffer := overwrite 8 (replicate 232 x2a) (zeros 240) in
  let buffer' := overwrite 0 (Z_to_be 8 0xDEADBEEFDEADBEF7) buffer in
  length buffer' = length buffer /\
  (forall g, NHPHeader.getter g Demo.header buffer' = NHPHeader.getter g Demo.header buffer) /\
  NHPHeader.get_version Demo.header buffer' = NHPHeader.get_version Demo.header buffer /\
  NHPHeader.get_flags Demo.header buffer' = NHPHeader.get_flags Demo.header buffer /\
  NHPHeader.get_counter Demo.header buffer' = NHPHeader.get_counter Demo.header buffer /\
  NHPHeader.get_nonce Demo.header buffer' = NHPHeader.get_nonce Demo.header buffer.
Proof.
  apply (typeAndPayloadSize_write_keeps_the_rest Demo.host 0xDEADBEEF Demo.header
           (Number 1) (Number 24)).
  - vm_compute. reflexivity.
  - reflexivity.
  - vm_compute. lia.
Defined.

(** X11.  A completed write of the version, in such a header, leaves the
    length of the buffer, the five fields, the type and size, the flags,
    the counter and the nonce as they were: it changes bytes 8 and 9 of the
    header and no other. *)
Theorem version_write_keeps_the_rest (h : NHPHeader.t) (major minor : Z)
    (buffer buffer' : bytes)
    (Hset : NHPHeader.set_version h major minor buffer = Normal buffer')
    (Hsame : DataView.byteOffset (NHPHeader.view h) = NHPHeader.bytes_offset h)
    (Hfit : (DataView.byteOffset (NHPHeader.view h) + DataView.byteLength (NHPHeader.view h)
             <= length buffer)%nat) :
  length buffer' = length buffer /\
  (forall g, NHPHeader.getter g h buffer' = NHPHeader.getter g h buffer) /\
  NHPHeader.get_typeAndPayloadSize h buffer' = NHPHeader.get_typeAndPayloadSize h buffer /\
  NHPHeader.get_flags h buffer' = NHPHeader.get_flags h buffer /\
  NHPHeader.get_counter h buffer' = NHPHeader.get_counter h buffer /\
  NHPHeader.get_nonce h buffer' = NHPHeader.get_nonce h buffer.
Proof.
  unfold NHPHeader.set_version, DataView.setUint8 in Hset.
  destruct (DataView.store _ (Number 8) _ buffer) as [b1|] eqn:E1; cbn [cbind] in Hset;
    [|discriminate].
  apply (store_frame _ 8) in E1 as [L1 F1]; [|exact Hfit].
  apply (store_frame _ 9) in Hset as [L2 F2]; [|rewrite L1; exact Hfit].
  rewrite Z_to_be_length in F1, F2.
  assert (Hlen : length buffer' = length buffer) by congruence.
  assert (Hkeep : forall a n, (a + n <= 8 \/ 10 <= a)%nat ->
            take n (drop (NHPHeader.bytes_offset h + a) buffer')
            = take n (drop (NHPHeader.bytes_offset h + a) buffer)).
  { intros a n Ha. rewrite F2, F1 by lia. reflexivity. }
  destruct (getters_from_ranges h buffer buffer' (fun a n => (a + n <= 8 \/ 10 <= a)%nat)
              Hsame Hkeep) as (Hg & Hnc & Hfl & _ & Hts).
  split; [exact Hlen|]. split.
  - intros g. apply Hg. destruct g; cbn; lia.
  - destruct Hnc as [Hn Hc]; [lia|].
    repeat split; [apply Hts; lia | apply Hfl; lia | exact Hc | exact Hn].
Qed.

Lemma version_write_keeps_the_rest_witness :
  let buffer := replicate 240 x2a in
  let buffer' := overwrite 8 [x01; x00] buffer in
  length buffer' = length buffer /\
  (forall g, NHPHeader.getter g Demo.header buffer' = NHPHeader.getter g Demo.header buffer) /\
  NHPHeader.get_typeAndPayloadSize Demo.header buffer'
  = NHPHeader.get_typeAndPayloadSize Demo.header buffer /\
  NHPHeader.get_flags Demo.header buffer' = NHPHeader.get_flags Demo.header buffer /\
  NHPHeader.get_counter Demo.header buffer' = NHPHeader.get_counter Demo.header buffer /\
  NHPHeader.get_nonce Demo.header buffer' = NHPHeader.get_nonce Demo.header buffer.
Proof.
  apply (version_write_keeps_the_rest Demo.header 1 0).
  - vm_compute. reflexivity.
  - reflexivity.
  - vm_compute. lia.
Defined.

(** ** buildNHPPacket, lines 117 to 175: what they return *)

Lemma typed_array_set_length target src at_ p :
  typed_array_set target src at_ = Normal p -> length p = length target.
Proof.
  intros H. apply typed_array_set_Normal in H as [Hfit ->]. apply overwrite_length, Hfit.
Qed.

Lemma typed_array_set_Throw_inv target src at_ e :
  typed_array_set target src at_ = Throw e ->
  (length target < at_ + length src)%nat /\ e = RangeError "offset is out of bounds".
Proof.
  unfold typed_array_set. destruct (Nat.leb_spec (at_ + length src) (length target));
    [discriminate|]. intros [= <-]. auto.
Qed.

Lemma setter_length f h b buffer buffer' :
  NHPHeader.setter f h b buffer = Normal buffer' -> length buffer' = length buffer.
Proof.
  intros H. apply setter_Normal in H as [-> | (Hl & Hfit & ->)]; [reflexivity|].
  apply overwrite_length. lia.
Qed.

Lemma setter_Throw_inv f h b buffer e :
  NHPHeader.setter f h b buffer = Throw e ->
  (length buffer < NHPHeader.bytes_offset h + NHPHeader.start f + NHPHeader.width f)%nat.
Proof.
  rewrite setter_bytes_set. destruct (Nat.eqb_spec (length b) (NHPHeader.width f)) as [Hl|];
    [|discriminate].
  unfold NHPHeader.bytes_set, NHPHeader.bytes_view. rewrite length_drop.
  destruct (Nat.leb_spec (NHPHeader.start f + length b)
              (length buffer - NHPHeader.bytes_offset h)); [discriminate|].
  intros _. lia.
Qed.

Lemma setBigUint64_Normal v (i : nat) x buffer :
  Z.of_nat i <= 2 ^ 53 - 1 ->
  (i + 8 <= DataView.byteLength v)%nat ->
  DataView.setBigUint64 v (Number (Z.of_nat i)) (BigInt x) buffer
  = Normal (overwrite (DataView.byteOffset v + i) (Z_to_be 8 (x mod 2 ^ 64)) buffer).
Proof.
  intros Hi H. unfold DataView.setBigUint64. rewrite ToIndex_nat by exact Hi.
  cbn [cbind ToBigInt].
  apply store_Normal; [exact Hi|]. rewrite Z_to_be_length. lia.
Qed.

Section Bind.
Context {S : Type}.

(** Two runs that start with the same statement agree when they agree
    after each of its normal completions. *)
Lemma bind_ext {A B} (m : M S A) (k k' : A -> M S B) (s : S) :
  (forall a s', m s = (Normal a, s') -> k a s' = k' a s') -> bind m k s = bind m k' s.
Proof.
  intros H. unfold bind. destruct (m s) as [[a|e] s']; [apply H | ]; reflexivity.
Qed.

End Bind.

(** X12.  Lines 117 to 175 of buildNHPPacket do the same whatever the two
    clock readings of getUnixNano are (and whatever the random preamble
    is): the timestamp is written to [tsBuf], and what is sealed is
    [buffer]. *)
Theorem handshake_does_not_depend_on_the_clock (C : Crypto) (host : Host)
    (rnd rnd' : Z) (ePub ePriv : CryptoKey C) (now now' fraction fraction' : Z)
    (h : NHPHeader.t) (lp rp : CryptoKey C) (pub rpub : string) (msg : bytes) (st : State) :
  build_handshake C host (Build_Draws C rnd ePub ePriv now fraction) h lp rp pub rpub msg st
  = build_handshake C host (Build_Draws C rnd' ePub ePriv now' fraction') h lp rp pub rpub msg st.
Proof.
  unfold build_handshake.
  repeat (apply bind_ext; intros ? ? ?E).
  match goal with
  | H : lift (DataView.create _ _ _) _ = (Normal ?tsView, _) |- _ =>
      vm_compute in H; injection H as <- _
  end.
  unfold bind, lift.
  rewrite !(setBigUint64_Normal _ 0) by (cbn; lia).
  reflexivity.
Qed.

Section HandshakeResult.
Context (C : Crypto) (host : Host) (d : Draws C).

(** A completed store left the array, or the packet, as long as it was. *)
Ltac note_length E :=
  first
    [ apply (setter_length NHPHeader.ephermeral) in E
    | apply (setter_length NHPHeader.static) in E
    | apply (setter_length NHPHeader.timestamp) in E
    | apply typed_array_set_length in E
    | idtac ];
  cbn [packet log set_packet] in E.

Ltac exit_length E :=
  cbn [packet log set_packet GlobalCounter]; split; [reflexivity | congruence].

Lemma build_handshake_keeps_counter_and_size h lp rp pub rpub msg st :
  wp (build_handshake C host d h lp rp pub rpub msg)
     (fun _ st' => GlobalCounter st' = GlobalCounter st /\
                   length (packet st') = length (packet st)) st.
Proof.
  unfold build_handshake. wp_open.
  wp_run note_length exit_length.
  all: exit_length I.
Qed.

End HandshakeResult.

Lemma take_overwrite_end off (src buf : bytes) :
  (off <= length buf)%nat ->
  take (off + length src) (overwrite off src buf) = take off buf ++ src.
Proof.
  intros H. unfold overwrite.
  rewrite take_app_ge by (rewrite length_take; lia).
  rewrite length_take_le by lia.
  replace (off + length src - off)%nat with (length src) by lia.
  rewrite take_app_length. reflexivity.
Qed.

(** What line 175 returns after the store of line 173: the 240 bytes in
    front of the sealed payload, and the sealed payload. *)
Lemma returned_packet (p src : bytes) n :
  (240 <= length p)%nat -> length src = (n + 16)%nat ->
  subarray 0 (240 + n + 16) (overwrite 240 src p) = take 240 (overwrite 240 src p) ++ src.
Proof.
  intros Hp Hsrc. unfold subarray. rewrite drop_0, Nat.sub_0_r.
  replace (240 + n + 16)%nat with (240 + length src)%nat by lia.
  rewrite take_overwrite_end, take_overwrite by lia. reflexivity.
Qed.

(** After the store of line 173 the fields of the header read as before. *)
Lemma payload_store_keeps_field g n src buffer b' :
  typed_array_set buffer src 240 = Normal b' ->
  NHPHeader.getter g (header_of n) b' = NHPHeader.getter g (header_of n) buffer.
Proof.
  intros H. apply typed_array_set_Normal in H as [Hfit ->].
  rewrite !getter_range. cbn [header_of NHPHeader.bytes_offset Nat.add].
  apply read_before_overwrite; [destruct g; cbn; lia | lia].
Qed.

Lemma setter_getter g h b buffer buffer' :
  NHPHeader.setter g h b buffer = Normal buffer' ->
  length b = NHPHeader.width g ->
  NHPHeader.getter g h buffer' = b.
Proof.
  intros H Hl. rewrite setter_bytes_set, Hl, Nat.eqb_refl in H.
  apply bytes_set_Normal in H as [Hfit ->].
  rewrite getter_range, <- Hl. apply read_overwrite.
  assert (24 <= NHPHeader.start g)%nat by (destruct g; cbn; lia). lia.
Qed.

Lemma setter_keeps_getter f g h b buffer buffer' :
  NHPHeader.setter f h b buffer = Normal buffer' -> g <> f ->
  NHPHeader.getter g h buffer' = NHPHeader.getter g h buffer.
Proof.
  intros H Hg. rewrite !getter_range. apply (setter_keeps_range f h b); [exact H|].
  destruct (field_starts_apart f g Hg); [left | right]; lia.
Qed.

Section HandshakeFits.
Context (C : Crypto) (host : Host) (d : Draws C).
Context (f : string -> bytes) (tsb : bytes).
Hypothesis (Hs2b : global_stringToBytes host = Some f).
Hypothesis (Hbuf : global_buffer host = Some tsb).
Hypothesis (Hsum : forall h, length (sumSHA256 C h) = 32%nat).
Hypothesis (Hmix : forall chainKey ikm, length (mixKey C chainKey ikm) = 32%nat).
Hypothesis (Hkg : forall chainKey ikm, length (fst (keyGen2 C chainKey ikm)) = 32%nat).
Hypothesis (Hseal : forall key nonce plaintext ad,
  length (chacha20Seal C key nonce (Bytes plaintext) ad) = (length plaintext + 16)%nat).

Ltac note_store E :=
  first
    [ apply (setter_length NHPHeader.ephermeral) in E
    | apply (setter_length NHPHeader.static) in E
    | apply (setter_length NHPHeader.timestamp) in E
    | lazymatch type of E with
      | typed_array_set _ _ 240 = Normal _ => apply typed_array_set_Normal in E as [E ->]
      | DataView.create _ _ _ = Normal _ => vm_compute in E; injection E as <-
      end
    | apply typed_array_set_length in E
    | idtac ];
  try (cbn [packet log set_packet] in E; rewrite ?zeros_length in E).

(** With these sizes no store before line 173 can throw. *)
Ltac exit_store E :=
  exfalso;
  first
    [ apply typed_array_set_Throw_inv in E as [E _]
    | apply (setter_Throw_inv NHPHeader.ephermeral) in E
    | apply (setter_Throw_inv NHPHeader.static) in E
    | apply (setter_Throw_inv NHPHeader.timestamp) in E
    | rewrite (setBigUint64_Normal _ 0) in E by (cbn; lia); discriminate E
    | vm_compute in E; discriminate E ];
  cbn [packet log set_packet header_of NHPHeader.bytes_offset NHPHeader.start
       NHPHeader.width] in E;
  rewrite ?Hsum, ?Hmix, ?Hkg, ?Hseal, ?zeros_length in E;
  unfold max_payload, PacketBufferSize, NHPHeader.SIZE in *; lia.

Lemma build_handshake_fits n lp rp pub rpub msg st :
  length (packet st) = PacketBufferSize ->
  (length msg <= max_payload)%nat ->
  wp (build_handshake C host d (header_of n) lp rp pub rpub msg)
     (fun r st' =>
        exists key ad,
          r = Normal (take 240 (packet st')
                      ++ chacha20Seal C key (NHPHeader.get_nonce (header_of n) (packet st))
                           (Bytes msg) ad)) st.
Proof.
  intros Hpacket Hmsg.
  unfold build_handshake. wp_open. rewrite Hs2b, Hbuf. cbv beta iota.
  wp_run note_store exit_store.
  eexists _, _. f_equal.
  apply returned_packet; [unfold PacketBufferSize in *; lia | apply Hseal].
Qed.

(** Past the largest payload the store of line 173 is the one that throws,
    after the third seal: the trace ends with the seal of the payload, and
    the typed array refuses what that seal returned. *)
Ltac exit_after_the_seals E :=
  first
    [ solve [exit_store E]
    | cbn [packet trace GlobalCounter log set_packet];
      pose proof (typed_array_set_Throw_inv _ _ _ _ E) as [_ ->];
      split; [reflexivity|];
      eexists _, _, _; split; [rewrite <- ?app_assoc; reflexivity|];
      cbn [app last seal_inputs flat_map List.filter is_key_operation length];
      split; [reflexivity|];
      split; [unfold handshake_seals; rewrite Hbuf; reflexivity|];
      split; [reflexivity | exact E] ].

Lemma build_handshake_oversize_trace n lp rp pub rpub msg st :
  length (packet st) = PacketBufferSize ->
  (max_payload < length msg)%nat ->
  let nonce := NHPHeader.get_nonce (header_of n) (packet st) in
  wp (build_handshake C host d (header_of n) lp rp pub rpub msg)
     (fun r st' =>
        r = Throw (RangeError "offset is out of bounds") /\
        exists evs key ad,
          trace st' = trace st ++ evs /\
          last evs = Some (E_chacha20Seal key nonce (Bytes msg) ad) /\
          seal_inputs evs = handshake_seals host nonce pub msg /\
          length (List.filter is_key_operation evs) = 11%nat /\
          typed_array_set (packet st') (chacha20Seal C key nonce (Bytes msg) ad) 240
          = Throw (RangeError "offset is out of bounds")) st.
Proof.
  intros Hpacket Hmsg nonce. subst nonce.
  unfold build_handshake. wp_open. rewrite Hs2b, Hbuf. cbv beta iota.
  wp_run note_store exit_after_the_seals.
  exfalso.
  match goal with H : (240 + length _ <= _)%nat |- _ => rewrite Hseal in H end.
  unfold max_payload, PacketBufferSize, NHPHeader.SIZE in *. lia.
Qed.

(** A completed [a.set(src)] of an array of 32 bytes with 32 bytes made
    the array [src]. *)
Ltac note_whole E :=
  lazymatch type of E with
  | typed_array_set _ _ 0 = Normal ?a =>
      apply typed_array_set_Normal in E as [_ E];
      rewrite overwrite_whole in E by (rewrite ?Hsum, ?Hmix, ?Hkg, ?zeros_length; reflexivity);
      subst a
  | _ => note_store E
  end.

Ltac exit_transcript E :=
  first
    [ solve [exit_store E]
    | cbn [packet trace GlobalCounter log set_packet];
      eexists _, _, _, _; split; [rewrite <- ?app_assoc; reflexivity|];
      cbn [app seal_calls flat_map]; reflexivity ].

(** With these sizes the three seals are made, whatever the payload, and
    each is handed the digest of the chain hasher as it is then. *)
Lemma build_handshake_transcript n lp rp pub rpub msg st :
  length (packet st) = PacketBufferSize ->
  let nonce := NHPHeader.get_nonce (header_of n) (packet st) in
  let t1 := [Bytes (f InitialHashString); Str rpub;
             Bytes (x25519PublicKeyToBytes C (generated_publicKey d))] in
  wp (build_handshake C host d (header_of n) lp rp pub rpub msg)
     (fun r st' =>
        exists key1 key2 key3 evs,
          trace st' = trace st ++ evs /\
          let ct1 := chacha20Seal C key1 nonce (Str pub) (digest_of C t1) in
          let t2 := t1 ++ [Bytes ct1] in
          let ct2 := chacha20Seal C key2 nonce (Bytes tsb) (digest_of C t2) in
          let t3 := t2 ++ [Bytes ct2] in
          seal_calls evs = [(key1, nonce, Str pub, digest_of C t1);
                            (key2, nonce, Bytes tsb, digest_of C t2);
                            (key3, nonce, Bytes msg, digest_of C t3)]) st.
Proof.
  intros Hpacket nonce t1. subst nonce t1.
  unfold build_handshake. wp_open. rewrite Hs2b, Hbuf. cbv beta iota.
  wp_run note_whole exit_transcript.
  eexists _, _, _, _. split; [rewrite <- ?app_assoc; reflexivity|].
  cbn [app seal_calls flat_map]. reflexivity.
Qed.

Hypothesis (Hepub : length (x25519PublicKeyToBytes C (generated_publicKey d)) = 32%nat).
Hypothesis (Htsb : length tsb = 8%nat).

(** What a completed store of lines 134, 146, 164 or 173 did to the four
    fields that the statement below speaks of. *)
Ltac note_fields E :=
  lazymatch type of E with
  | NHPHeader.set_ephermeral _ _ _ = Normal _ =>
      pose proof (setter_getter NHPHeader.ephermeral _ _ _ _ E Hepub);
      pose proof (setter_keeps_getter NHPHeader.ephermeral NHPHeader.identity _ _ _ _ E
                    ltac:(discriminate));
      pose proof (setter_keeps_getter NHPHeader.ephermeral NHPHeader.hmac _ _ _ _ E
                    ltac:(discriminate))
  | NHPHeader.set_static _ _ _ = Normal _ =>
      pose proof (setter_keeps_getter NHPHeader.static NHPHeader.ephermeral _ _ _ _ E
                    ltac:(discriminate));
      pose proof (setter_keeps_getter NHPHeader.static NHPHeader.identity _ _ _ _ E
                    ltac:(discriminate));
      pose proof (setter_keeps_getter NHPHeader.static NHPHeader.hmac _ _ _ _ E
                    ltac:(discriminate))
  | NHPHeader.set_timestamp _ _ _ = Normal _ =>
      pose proof (setter_getter NHPHeader.timestamp _ _ _ _ E
                    ltac:(rewrite Hseal, Htsb; reflexivity));
      pose proof (setter_keeps_getter NHPHeader.timestamp NHPHeader.ephermeral _ _ _ _ E
                    ltac:(discriminate));
      pose proof (setter_keeps_getter NHPHeader.timestamp NHPHeader.identity _ _ _ _ E
                    ltac:(discriminate));
      pose proof (setter_keeps_getter NHPHeader.timestamp NHPHeader.hmac _ _ _ _ E
                    ltac:(discriminate))
  | typed_array_set _ _ 240 = Normal _ =>
      pose proof (fun g n => payload_store_keeps_field g n _ _ _ E)
  | _ => idtac
  end;
  note_store E;
  cbn [packet log set_packet] in *.

Ltac exit_fields E :=
  first
    [ solve [exit_store E]
    | cbn [packet log set_packet]; repeat split; eauto; congruence ].

Lemma build_handshake_fields n lp rp pub rpub msg st :
  length (packet st) = PacketBufferSize ->
  let h := header_of n in
  wp (build_handshake C host d h lp rp pub rpub msg)
     (fun _ st' =>
        NHPHeader.getter NHPHeader.ephermeral h (packet st')
        = x25519PublicKeyToBytes C (generated_publicKey d) /\
        (exists key ad,
            NHPHeader.getter NHPHeader.timestamp h (packet st')
            = chacha20Seal C key (NHPHeader.get_nonce h (packet st)) (Bytes tsb) ad) /\
        NHPHeader.getter NHPHeader.identity h (packet st')
        = NHPHeader.getter NHPHeader.identity h (packet st) /\
        NHPHeader.getter NHPHeader.hmac h (packet st')
        = NHPHeader.getter NHPHeader.hmac h (packet st)) st.
Proof.
  intros Hpacket h. subst h.
  unfold build_handshake. wp_open. rewrite Hs2b, Hbuf. cbv beta iota.
  wp_run note_fields exit_fields.
  cbn [packet log set_packet].
  match goal with
  | H : forall g k, NHPHeader.getter g (header_of k) (overwrite _ _ _) = _ |- _ => rewrite !H
  end.
  repeat split; eauto; congruence.
Qed.

End HandshakeFits.

Lemma pad_length n b : length (Demo.pad n b) = n.
Proof. unfold Demo.pad. rewrite length_take, length_app, zeros_length. lia. Qed.

Lemma Demo_standard_sizes : standard_sizes Demo.crypto.
Proof.
  repeat split; intros; cbn [Demo.crypto sumSHA256 mixKey keyGen2 chacha20Seal fst];
    rewrite ?length_app, ?pad_length; reflexivity.
Qed.

(** X13.  Lines 117 to 175 of buildNHPPacket, however they end, leave
    GlobalCounter as it was and the packet buffer as long as it was. *)
Theorem handshake_keeps_the_counter_and_the_packet_size (C : Crypto) (host : Host)
    (d : Draws C) (h : NHPHeader.t) (lp rp : CryptoKey C) (pub rpub : string)
    (msg : bytes) (st : State) :
  let st' := snd (build_handshake C host d h lp rp pub rpub msg st) in
  GlobalCounter st' = GlobalCounter st /\ length (packet st') = length (packet st).
Proof. apply (build_handshake_keeps_counter_and_size C host d h lp rp pub rpub msg st). Qed.

(** X14.  In a host that binds [stringToBytes] and [buffer], with a
    crypto.js of standard sizes and a packet buffer of 4096 bytes, lines 117
    to 175 return, for a payload of at most 3840 bytes, the first 240 bytes
    of the packet buffer followed by a seal of the payload under the nonce
    read at line 117: 240 + length + 16 bytes. *)
Theorem handshake_returns_the_header_and_the_sealed_payload (C : Crypto) (host : Host)
    (d : Draws C) (f : string -> bytes) (tsb : bytes) (n : nat) (lp rp : CryptoKey C)
    (pub rpub : string) (msg : bytes) (st : State)
    (Hbound : global_stringToBytes host = Some f)
    (Hbuffer : global_buffer host = Some tsb)
    (Hsizes : standard_sizes C)
    (Hpacket : length (packet st) = PacketBufferSize)
    (Hmsg : (length msg <= max_payload)%nat) :
  let r := build_handshake C host d (header_of n) lp rp pub rpub msg st in
  exists p key ad,
    fst r = Normal p /\
    p = take 240 (packet (snd r))
        ++ chacha20Seal C key (NHPHeader.get_nonce (header_of n) (packet st)) (Bytes msg) ad /\
    length p = (240 + length msg + 16)%nat.
Proof.
  destruct Hsizes as (Hsum & Hmix & Hkg & Hseal). cbv zeta.
  destruct (build_handshake_fits C host d f tsb Hbound Hbuffer Hsum Hmix Hkg Hseal
              n lp rp pub rpub msg st Hpacket Hmsg) as (key & ad & Hr).
  destruct (build_handshake_keeps_counter_and_size C host d (header_of n) lp rp pub rpub msg st)
    as (_ & Hlen).
  eexists _, key, ad. split; [exact Hr|]. split; [reflexivity|].
  rewrite length_app, length_take, Hseal, Hlen, Hpacket. unfold PacketBufferSize. lia.
Qed.

Lemma handshake_returns_the_header_and_the_sealed_payload_witness :
  let st := set_packet (zeros PacketBufferSize) Demo.initial_state in
  let r := build_handshake Demo.crypto Demo.host Demo.draws (header_of 240)
             (zeros 32) (zeros 32) Demo.publicKey Demo.remotePublicKey [x01; x02; x03] st in
  exists p key ad,
    fst r = Normal p /\
    p = take 240 (packet (snd r))
        ++ chacha20Seal Demo.crypto key (NHPHeader.get_nonce (header_of 240) (packet st))
             (Bytes [x01; x02; x03]) ad /\
    length p = (240 + length [x01; x02; x03] + 16)%nat.
Proof.
  apply (handshake_returns_the_header_and_the_sealed_payload Demo.crypto Demo.host Demo.draws
           list_byte_of_string (zeros 8) 240).
  - reflexivity.
  - reflexivity.
  - exact Demo_standard_sizes.
  - vm_compute. reflexivity.
  - vm_compute. lia.
Defined.

(** X15.  In the setting of the statement before, for a payload of more
    than 3840 bytes, lines 117 to 175 end with the RangeError of the
    typed-array store of line 173: the last call into crypto.js is the
    seal of the payload, the third of the three seals of
    [handshake_seals], after eleven calls that generate, agree on, derive
    or use a key (two of mixKey, the key generation, two of ecdhX25519,
    three of keyGen2, the three seals); the error is the one of storing
    what that seal returned at byte 240 of the packet buffer as it is
    then; and GlobalCounter is as it was. *)
Theorem handshake_throws_RangeError_past_the_largest_payload (C : Crypto) (host : Host)
    (d : Draws C) (f : string -> bytes) (tsb : bytes) (n : nat) (lp rp : CryptoKey C)
    (pub rpub : string) (msg : bytes) (st : State)
    (Hbound : global_stringToBytes host = Some f)
    (Hbuffer : global_buffer host = Some tsb)
    (Hsizes : standard_sizes C)
    (Hpacket : length (packet st) = PacketBufferSize)
    (Hmsg : (max_payload < length msg)%nat) :
  let nonce := NHPHeader.get_nonce (header_of n) (packet st) in
  let r := build_handshake C host d (header_of n) lp rp pub rpub msg st in
  fst r = Throw (RangeError "offset is out of bounds") /\
  GlobalCounter (snd r) = GlobalCounter st /\
  exists evs key ad,
    trace (snd r) = trace st ++ evs /\
    last evs = Some (E_chacha20Seal key nonce (Bytes msg) ad) /\
    seal_inputs evs = handshake_seals host nonce pub msg /\
    length (List.filter is_key_operation evs) = 11%nat /\
    typed_array_set (packet (snd r)) (chacha20Seal C key nonce (Bytes msg) ad) 240
    = Throw (RangeError "offset is out of bounds").
Proof.
  destruct Hsizes as (Hsum & Hmix & Hkg & Hseal). cbv zeta.
  destruct (build_handshake_oversize_trace C host d f tsb Hbound Hbuffer Hsum Hmix Hkg Hseal
              n lp rp pub rpub msg st Hpacket Hmsg) as (Hr & Hevs).
  split; [exact Hr|]. split; [|exact Hevs].
  apply (build_handshake_keeps_counter_and_size C host d (header_of n) lp rp pub rpub msg st).
Qed.

Lemma handshake_throws_RangeError_past_the_largest_payload_witness :
  let st := set_packet (zeros PacketBufferSize) Demo.initial_state in
  let nonce := NHPHeader.get_nonce (header_of 240) (packet st) in
  let r := build_handshake Demo.crypto Demo.host Demo.draws (header_of 240)
             (zeros 32) (zeros 32) Demo.publicKey Demo.remotePublicKey (zeros 3841) st in
  fst r = Throw (RangeError "offset is out of bounds") /\
  GlobalCounter (snd r) = GlobalCounter st /\
  exists evs key ad,
    trace (snd r) = trace st ++ evs /\
    last evs = Some (E_chacha20Seal key nonce (Bytes (zeros 3841)) ad) /\
    seal_inputs evs = handshake_seals Demo.host nonce Demo.publicKey (zeros 3841) /\
    length (List.filter is_key_operation evs) = 11%nat /\
    typed_array_set (packet (snd r))
      (chacha20Seal Demo.crypto key nonce (Bytes (zeros 3841)) ad) 240
    = Throw (RangeError "offset is out of bounds").
Proof.
  apply (handshake_throws_RangeError_past_the_largest_payload Demo.crypto Demo.host Demo.draws
           list_byte_of_string (zeros 8) 240).
  - reflexivity.
  - reflexivity.
  - exact Demo_standard_sizes.
  - vm_compute. reflexivity.
  - vm_compute. lia.
Defined.

(** X16.  In the setting of the two statements before, with an ephemeral
    public key of 32 bytes and a [buffer] of 8 bytes, and for every
    payload, lines 117 to 175 leave the ephemeral public key in bytes 24 to
    55 of the packet buffer and a seal of the bytes of [buffer] in bytes 184
    to 207, and leave the identity field and the hmac field as they found
    them. *)
Theorem handshake_fills_the_ephemeral_and_timestamp_fields (C : Crypto) (host : Host)
    (d : Draws C) (f : string -> bytes) (tsb : bytes) (n : nat) (lp rp : CryptoKey C)
    (pub rpub : string) (msg : bytes) (st : State)
    (Hbound : global_stringToBytes host = Some f)
    (Hbuffer : global_buffer host = Some tsb)
    (Hsizes : standard_sizes C)
    (Hpacket : length (packet st) = PacketBufferSize)
    (Hephemeral : length (x25519PublicKeyToBytes C (generated_publicKey d)) = 32%nat)
    (Htsb : length tsb = 8%nat) :
  let h := header_of n in
  let st' := snd (build_handshake C host d h lp rp pub rpub msg st) in
  NHPHeader.getter NHPHeader.ephermeral h (packet st')
  = x25519PublicKeyToBytes C (generated_publicKey d) /\
  (exists key ad,
      NHPHeader.getter NHPHeader.timestamp h (packet st')
      = chacha20Seal C key (NHPHeader.get_nonce h (packet st)) (Bytes tsb) ad) /\
  NHPHeader.getter NHPHeader.identity h (packet st')
  = NHPHeader.getter NHPHeader.identity h (packet st) /\
  NHPHeader.getter NHPHeader.hmac h (packet st')
  = NHPHeader.getter NHPHeader.hmac h (packet st).
Proof.
  destruct Hsizes as (Hsum & Hmix & Hkg & Hseal).
  apply (build_handshake_fields C host d f tsb Hbound Hbuffer Hsum Hmix Hkg Hseal
           Hephemeral Htsb n lp rp pub rpub msg st Hpacket).
Qed.

Lemma handshake_fills_the_ephemeral_and_timestamp_fields_witness :
  let h := header_of 240 in
  let st := set_packet (zeros PacketBufferSize) Demo.initial_state in
  let st' := snd (build_handshake Demo.crypto Demo.host Demo.draws h (zeros 32) (zeros 32)
                    Demo.publicKey Demo.remotePublicKey [x01; x02; x03] st) in
  NHPHeader.getter NHPHeader.ephermeral h (packet st')
  = x25519PublicKeyToBytes Demo.crypto (generated_publicKey Demo.draws) /\
  (exists key ad,
      NHPHeader.getter NHPHeader.timestamp h (packet st')
      = chacha20Seal Demo.crypto key (NHPHeader.get_nonce h (packet st)) (Bytes (zeros 8)) ad) /\
  NHPHeader.getter NHPHeader.identity h (packet st')
  = NHPHeader.getter NHPHeader.identity h (packet st) /\
  NHPHeader.getter NHPHeader.hmac h (packet st')
  = NHPHeader.getter NHPHeader.hmac h (packet st).
Proof.
  apply (handshake_fills_the_ephemeral_and_timestamp_fields Demo.crypto Demo.host Demo.draws
           list_byte_of_string (zeros 8) 240).
  - reflexivity.
  - reflexivity.
  - exact Demo_standard_sizes.
  - vm_compute. reflexivity.
  - vm_compute. reflexivity.
  - reflexivity.
Defined.

(** X28.  In a host that binds [stringToBytes] and [buffer], with a
    crypto.js of standard sizes and a packet buffer of 4096 bytes, lines 117
    to 175 make three seals, whatever the payload, each under the nonce
    read at line 117: of the text [publicKey], of the bytes of [buffer] and
    of the payload.  The associated data of each is what [sumSHA256]
    returns for the one chain hasher as it is then: created, and updated
    with the bytes of the hash seed string, the text [remotePublicKey] and
    the ephemeral public key; for the second seal also with what the first
    seal returned; for the third also with what the second returned. *)
Theorem handshake_seals_take_the_digests_of_the_transcript (C : Crypto) (host : Host)
    (d : Draws C) (f : string -> bytes) (tsb : bytes) (n : nat) (lp rp : CryptoKey C)
    (pub rpub : string) (msg : bytes) (st : State)
    (Hbound : global_stringToBytes host = Some f)
    (Hbuffer : global_buffer host = Some tsb)
    (Hsizes : standard_sizes C)
    (Hpacket : length (packet st) = PacketBufferSize) :
  let nonce := NHPHeader.get_nonce (header_of n) (packet st) in
  let t1 := [Bytes (f InitialHashString); Str rpub;
             Bytes (x25519PublicKeyToBytes C (generated_publicKey d))] in
  let st' := snd (build_handshake C host d (header_of n) lp rp pub rpub msg st) in
  exists key1 key2 key3 evs,
    trace st' = trace st ++ evs /\
    let ct1 := chacha20Seal C key1 nonce (Str pub) (digest_of C t1) in
    let t2 := t1 ++ [Bytes ct1] in
    let ct2 := chacha20Seal C key2 nonce (Bytes tsb) (digest_of C t2) in
    let t3 := t2 ++ [Bytes ct2] in
    seal_calls evs = [(key1, nonce, Str pub, digest_of C t1);
                      (key2, nonce, Bytes tsb, digest_of C t2);
                      (key3, nonce, Bytes msg, digest_of C t3)].
Proof.
  destruct Hsizes as (Hsum & Hmix & Hkg & Hseal).
  apply (build_handshake_transcript C host d f tsb); assumption.
Qed.

Lemma handshake_seals_take_the_digests_of_the_transcript_witness :
  let st := set_packet (zeros PacketBufferSize) Demo.initial_state in
  let nonce := NHPHeader.get_nonce (header_of 240) (packet st) in
  let t1 := [Bytes (list_byte_of_string InitialHashString); Str Demo.remotePublicKey;
             Bytes (x25519PublicKeyToBytes Demo.crypto (generated_publicKey Demo.draws))] in
  let st' := snd (build_handshake Demo.crypto Demo.host Demo.draws (header_of 240)
                    (zeros 32) (zeros 32) Demo.publicKey Demo.remotePublicKey
                    [x01; x02; x03] st) in
  exists key1 key2 key3 evs,
    trace st' = trace st ++ evs /\
    let ct1 := chacha20Seal Demo.crypto key1 nonce (Str Demo.publicKey)
                 (digest_of Demo.crypto t1) in
    let t2 := t1 ++ [Bytes ct1] in
    let ct2 := chacha20Seal Demo.crypto key2 nonce (Bytes (zeros 8))
                 (digest_of Demo.crypto t2) in
    let t3 := t2 ++ [Bytes ct2] in
    seal_calls evs = [(key1, nonce, Str Demo.publicKey, digest_of Demo.crypto t1);
                      (key2, nonce, Bytes (zeros 8), digest_of Demo.crypto t2);
                      (key3, nonce, Bytes [x01; x02; x03], digest_of Demo.crypto t3)].
Proof.
  apply (handshake_seals_take_the_digests_of_the_transcript Demo.crypto Demo.host Demo.draws
           list_byte_of_string (zeros 8) 240).
  - reflexivity.
  - reflexivity.
  - exact Demo_standard_sizes.
  - vm_compute. reflexivity.
Defined.

(** X29.  In every host and with every crypto.js, however lines 117 to 175
    end, the associated data of each seal they made is the [chainHash]
    array as the last [chainHash.set(sumSHA256(chainHasher))] before the
    seal left it. *)
Theorem handshake_seals_take_the_chainHash_array (C : Crypto) (host : Host) (d : Draws C)
    (h : NHPHeader.t) (lp rp : CryptoKey C) (pub rpub : string) (msg : bytes) (st : State) :
  let st' := snd (build_handshake C host d h lp rp pub rpub msg st) in
  exists evs, trace st' = trace st ++ evs /\ ads_follow_digests (zeros 32) evs.
Proof.
  destruct (build_handshake_chain C host d h lp rp pub rpub msg st)
    as (evs & Htr & Hads & _).
  exists evs. auto.
Qed.

(** ** utils.js *)

(** X17.  With the sub-millisecond part in its range (0 to 999999),
    getUnixNano divided by 1000000 is [Date.now()], its remainder is the
    sub-millisecond part, and a reading in a later millisecond gives a
    larger number. *)
Theorem getUnixNano_keeps_the_millisecond (C : Crypto) (d d' : Draws C)
    (Hfraction : 0 <= performance_now_fraction d < 1000000)
    (Hfraction' : 0 <= performance_now_fraction d' < 1000000) :
  getUnixNano d / 1000000 = Date_now d /\
  getUnixNano d mod 1000000 = performance_now_fraction d /\
  (Date_now d < Date_now d' -> getUnixNano d < getUnixNano d').
Proof.
  unfold getUnixNano. repeat split.
  - rewrite Z.div_add_l by lia. rewrite Z.div_small by lia. lia.
  - rewrite Z.add_comm, Z.mod_add by lia. apply Z.mod_small. lia.
  - intros H. nia.
Qed.

Lemma getUnixNano_keeps_the_millisecond_witness :
  getUnixNano Demo.draws / 1000000 = Date_now Demo.draws /\
  getUnixNano Demo.draws mod 1000000 = performance_now_fraction Demo.draws /\
  (Date_now Demo.draws < Date_now DemoGM.later_draws ->
   getUnixNano Demo.draws < getUnixNano DemoGM.later_draws).
Proof.
  apply (getUnixNano_keeps_the_millisecond Demo.crypto Demo.draws DemoGM.later_draws).
  - vm_compute. split; [discriminate | reflexivity].
  - vm_compute. split; [discriminate | reflexivity].
Defined.

Example base64ToBytes_of_a_key :
  Utils.base64ToBytes Demo.privateKey
  = inr (list_byte_of_string "ABCDEFGHIJKLMNOPQRSTUVWXYZ012345").
Proof. vm_compute. reflexivity. Qed.

Example btoa_of_a_key :
  Utils.btoa "ABCDEFGHIJKLMNOPQRSTUVWXYZ012345" = Demo.privateKey.
Proof. vm_compute. reflexivity. Qed.

Section Base64.
Import Utils.

(** The loop of base64ToBytes copies the code units of [bin]. *)
Lemma charCode_loop (l : list byte) k :
  (k <= length l)%nat ->
  fold_left (fun (acc : list byte) i => <[i := default x00 (l !! i)]> acc) (seq 0 k)
    (zeros (length l))
  = take k l ++ zeros (length l - k).
Proof.
  induction k as [|k IH]; intros Hk.
  - cbn. rewrite Nat.sub_0_r. reflexivity.
  - rewrite seq_S, fold_left_app, IH by lia. cbn [fold_left Nat.add].
    destruct (lookup_lt_is_Some_2 l k ltac:(lia)) as [x Hx].
    rewrite Hx. cbn [default].
    rewrite insert_app_r_alt by (rewrite length_take; lia).
    rewrite length_take_le by lia. rewrite Nat.sub_diag.
    replace (length l - k)%nat with (S (length l - S k)) by lia.
    unfold zeros. cbn [replicate]. cbn.
    rewrite (take_S_r l k x Hx), <- app_assoc. reflexivity.
Qed.

Lemma base64ToBytes_atob base64 :
  base64ToBytes base64
  = match atob base64 with
    | inl e => inl e
    | inr bin => inr (list_byte_of_string bin)
    end.
Proof.
  unfold base64ToBytes. destruct (atob base64) as [e|bin]; [reflexivity|].
  f_equal. unfold store_charCode, charCodeAt, String_length, bytes.
  rewrite charCode_loop by lia.
  rewrite firstn_all, Nat.sub_diag. apply app_nil_r.
Qed.

(** *** Digits *)

Lemma of_digits64_snoc ds x : of_digits64 (ds ++ [x]) = of_digits64 ds * 64 + x.
Proof. unfold of_digits64. rewrite fold_left_app. reflexivity. Qed.

Lemma of_digits64_cons x ds :
  of_digits64 (x :: ds) = x * 64 ^ Z.of_nat (length ds) + of_digits64 ds.
Proof.
  induction ds as [|y ds IH] using rev_ind.
  - cbn. lia.
  - rewrite app_comm_cons, !of_digits64_snoc, IH, length_app. cbn [length].
    replace (Z.of_nat (length ds + 1)) with (Z.of_nat (length ds) + 1) by lia.
    rewrite Z.pow_add_r by lia. lia.
Qed.

Lemma digits64_length k n : length (digits64 k n) = k.
Proof. induction k; cbn [digits64 length]; congruence. Qed.

Lemma digits64_range k n : Forall (fun v => 0 <= v < 64) (digits64 k n).
Proof.
  induction k; cbn [digits64]; constructor; [apply Z.mod_pos_bound; lia | assumption].
Qed.

Lemma of_digits64_digits64 k n : of_digits64 (digits64 k n) = n mod 64 ^ Z.of_nat k.
Proof.
  induction k as [|k IH].
  - cbn. rewrite Z.mod_1_r. reflexivity.
  - cbn [digits64]. rewrite of_digits64_cons, digits64_length, IH.
    replace (Z.of_nat (S k)) with (Z.of_nat k + 1) by lia.
    rewrite Z.pow_add_r by lia. change (64 ^ 1) with 64.
    rewrite Z.rem_mul_r by lia. lia.
Qed.

(** Each digit has its character, and the character gives the digit back;
    it is neither white space nor padding. *)
Lemma base64_char_facts v :
  0 <= v < 64 ->
  base64_value (base64_char v) = Some v /\
  is_ASCII_whitespace (base64_char v) = false /\
  is_padding (base64_char v) = false.
Proof.
  intros Hv.
  assert (H : forallb (fun n =>
                match base64_value (base64_char (Z.of_nat n)) with
                | Some w => w =? Z.of_nat n
                | None => false
                end
                && negb (is_ASCII_whitespace (base64_char (Z.of_nat n)))
                && negb (is_padding (base64_char (Z.of_nat n))))
              (seq 0 64) = true) by (vm_compute; reflexivity).
  rewrite forallb_forall in H.
  specialize (H (Z.to_nat v) ltac:(apply in_seq; lia)).
  rewrite Z2Nat.id in H by lia.
  apply andb_prop in H as [H3 Hp]. apply andb_prop in H3 as [H1 H2].
  destruct (base64_value (base64_char v)) as [w|]; [|discriminate].
  apply Z.eqb_eq in H1. subst w.
  repeat split; [apply negb_true_iff, H2 | apply negb_true_iff, Hp].
Qed.

Lemma base64_values_chars ds :
  Forall (fun v => 0 <= v < 64) ds -> base64_values (map base64_char ds) = Some ds.
Proof.
  induction 1 as [|v ds Hv _ IH]; [reflexivity|].
  cbn [map base64_values]. destruct (base64_char_facts v Hv) as (-> & _). rewrite IH.
  reflexivity.
Qed.

(** Lists by steps of three. *)
Lemma list_ind3 {A} (P : list A -> Prop) :
  P [] -> (forall a, P [a]) -> (forall a b, P [a; b]) ->
  (forall a b c rest, P rest -> P (a :: b :: c :: rest)) ->
  forall l, P l.
Proof.
  intros H0 H1 H2 H3.
  assert (G : forall l, P l /\ (forall a, P (a :: l)) /\ (forall a b, P (a :: b :: l))).
  { induction l as [|x l (IH0 & IH1 & IH2)]; [auto|]. repeat split; auto. }
  intros l. apply G.
Qed.

Lemma base64_digits_range bs : Forall (fun v => 0 <= v < 64) (base64_digits bs).
Proof.
  induction bs as [| | |b1 b2 b3 rest IH] using list_ind3; cbn [base64_digits].
  - constructor.
  - apply digits64_range.
  - apply digits64_range.
  - apply Forall_app. split; [apply digits64_range | exact IH].
Qed.

Lemma base64_digits_length bs :
  length (base64_digits bs) = ((4 * length bs + 2) / 3)%nat.
Proof.
  induction bs as [| | |b1 b2 b3 rest IH] using list_ind3; cbn [base64_digits].
  - reflexivity.
  - reflexivity.
  - reflexivity.
  - rewrite length_app, digits64_length, IH. cbn [length].
    replace (4 * S (S (S (length rest))) + 2)%nat with ((4 * length rest + 2) + 4 * 3)%nat by lia.
    rewrite Nat.div_add by lia. lia.
Qed.

Lemma be_to_Z_bound (l : bytes) k :
  length l = k -> 0 <= be_to_Z l < 256 ^ Z.of_nat k.
Proof. intros <-. apply be_to_Z_range. Qed.

(** Decoding the digits of [bs] gives [bs]. *)
Lemma decode_groups_base64_digits bs : decode_groups (base64_digits bs) = bs.
Proof.
  induction bs as [|b1|b1 b2|b1 b2 b3 rest IH] using list_ind3.
  - reflexivity.
  - cbn [base64_digits]. change (digits64 2 ?n) with [n / 64 ^ 1 mod 64; n / 64 ^ 0 mod 64].
    cbn [decode_groups].
    change [be_to_Z [b1] * 16 / 64 ^ 1 mod 64; be_to_Z [b1] * 16 / 64 ^ 0 mod 64]
      with (digits64 2 (be_to_Z [b1] * 16)).
    rewrite of_digits64_digits64.
    pose proof (be_to_Z_bound [b1] 1 eq_refl) as R. change (256 ^ Z.of_nat 1) with 256 in R.
    change (64 ^ Z.of_nat 2) with 4096.
    rewrite Z.mod_small by lia. rewrite Z.div_mul by lia.
    apply (Z_to_be_to_Z [b1]).
  - cbn [base64_digits].
    change (digits64 3 ?n) with [n / 64 ^ 2 mod 64; n / 64 ^ 1 mod 64; n / 64 ^ 0 mod 64].
    cbn [decode_groups].
    change [be_to_Z [b1; b2] * 4 / 64 ^ 2 mod 64; be_to_Z [b1; b2] * 4 / 64 ^ 1 mod 64;
            be_to_Z [b1; b2] * 4 / 64 ^ 0 mod 64]
      with (digits64 3 (be_to_Z [b1; b2] * 4)).
    rewrite of_digits64_digits64.
    pose proof (be_to_Z_bound [b1; b2] 2 eq_refl) as R. change (256 ^ Z.of_nat 2) with 65536 in R.
    change (64 ^ Z.of_nat 3) with 262144.
    rewrite Z.mod_small by lia. rewrite Z.div_mul by lia.
    apply (Z_to_be_to_Z [b1; b2]).
  - cbn [base64_digits].
    change (digits64 4 ?n)
      with [n / 64 ^ 3 mod 64; n / 64 ^ 2 mod 64; n / 64 ^ 1 mod 64; n / 64 ^ 0 mod 64].
    cbn [app decode_groups]. rewrite IH.
    change [be_to_Z [b1; b2; b3] / 64 ^ 3 mod 64; be_to_Z [b1; b2; b3] / 64 ^ 2 mod 64;
            be_to_Z [b1; b2; b3] / 64 ^ 1 mod 64; be_to_Z [b1; b2; b3] / 64 ^ 0 mod 64]
      with (digits64 4 (be_to_Z [b1; b2; b3])).
    rewrite of_digits64_digits64.
    pose proof (be_to_Z_bound [b1; b2; b3] 3 eq_refl) as R.
    change (256 ^ Z.of_nat 3) with 16777216 in R.
    change (64 ^ Z.of_nat 4) with 16777216.
    rewrite Z.mod_small by lia.
    pose proof (Z_to_be_to_Z [b1; b2; b3]) as Hz. cbn [length] in Hz.
    rewrite Hz. reflexivity.
Qed.

End Base64.

Section Base64RoundTrip.
Import Utils.

Lemma is_padding_eq c : is_padding c = true -> c = "="%byte.
Proof. unfold is_padding. intros H. apply Byte.byte_dec_bl in H. exact H. Qed.

(** The characters of digits hold no white space. *)
Lemma filter_digit_chars ds p :
  Forall (fun v => 0 <= v < 64) ds ->
  List.filter (fun c => negb (is_ASCII_whitespace c)) (map base64_char ds ++ replicate p "="%byte)
  = map base64_char ds ++ replicate p "="%byte.
Proof.
  intros Hds. apply forallb_filter_id. rewrite forallb_app. apply andb_true_intro. split.
  - apply forallb_forall. intros c Hc. apply in_map_iff in Hc as (v & <- & Hv).
    rewrite List.Forall_forall in Hds. apply Hds in Hv.
    destruct (base64_char_facts v Hv) as (_ & -> & _). reflexivity.
  - apply forallb_forall. intros c Hc.
    apply list_elem_of_In, elem_of_replicate_inv in Hc as ->. reflexivity.
Qed.

(** The padding that btoa adds is what atob removes. *)
Lemma remove_padding_digit_chars ds p :
  Forall (fun v => 0 <= v < 64) ds ->
  (p <= 2)%nat -> ((length ds + p) mod 4 = 0)%nat ->
  remove_padding (map base64_char ds ++ replicate p "="%byte) = map base64_char ds.
Proof.
  intros Hds Hp Hlen. unfold remove_padding.
  rewrite length_app, length_map, length_replicate, Hlen. cbn [Nat.eqb].
  rewrite rev_app_distr, <- map_rev.
  assert (Hrev : Forall (fun v => 0 <= v < 64) (rev ds)) by (apply Forall_rev, Hds).
  assert (Hback : rev (map base64_char (rev ds)) = map base64_char ds)
    by (rewrite map_rev, rev_involutive; reflexivity).
  assert (Hl : length (rev ds) = length ds) by apply length_rev.
  destruct p as [|[|[|p]]]; [| | |lia]; cbn [replicate rev app].
  - destruct (rev ds) as [|d1 [|d2 r]]; cbn [map].
    + rewrite app_nil_r. reflexivity.
    + rewrite app_nil_r. reflexivity.
    + inversion Hrev as [|? ? Hd1 _]; subst.
      destruct (base64_char_facts d1 Hd1) as (_ & _ & ->). rewrite app_nil_r. reflexivity.
  - destruct (rev ds) as [|d1 r]; cbn [map app].
    + cbn [length] in Hl. rewrite <- Hl in Hlen. discriminate Hlen.
    + inversion Hrev as [|? ? Hd1 _]; subst.
      destruct (base64_char_facts d1 Hd1) as (_ & _ & ->).
      change (is_padding "=") with true. cbv iota. exact Hback.
  - change (is_padding "=") with true. cbv iota. exact Hback.
Qed.

Lemma atob_btoa (l : list byte) :
  atob (btoa (string_of_list_byte l)) = inr (string_of_list_byte l).
Proof.
  unfold atob, btoa. rewrite !list_byte_of_string_of_list_byte.
  pose proof (base64_digits_range l) as Hds.
  pose proof (base64_digits_length l) as Hlen.
  rewrite filter_digit_chars by exact Hds.
  rewrite remove_padding_digit_chars by (try exact Hds; rewrite ?Hlen; lia).
  rewrite length_map, Hlen.
  destruct (Nat.eqb_spec ((4 * length l + 2) / 3 mod 4) 1) as [H1|_]; [lia|].
  rewrite base64_values_chars by exact Hds.
  rewrite decode_groups_base64_digits. reflexivity.
Qed.

End Base64RoundTrip.

(** X18.  bytesToBase64 returns the empty string for the empty array, and
    for every other array it throws a TypeError: its callback assigns to
    [bin], which is declared with [const]. *)
Theorem bytesToBase64_only_returns_for_the_empty_array :
  Utils.bytesToBase64 [] = Normal EmptyString /\
  forall b rest,
    Utils.bytesToBase64 (b :: rest) = Throw (TypeError "Assignment to constant variable.").
Proof.
  split.
  - reflexivity.
  - intros b rest. unfold Utils.bytesToBase64.
    cbn [Utils.forEach]. unfold Utils.assign_to_const. reflexivity.
Qed.

(** X19.  base64ToBytes gives back every byte array from the Base64 text
    that [btoa] makes of it. *)
Theorem base64ToBytes_decodes_what_btoa_encodes (b : bytes) :
  Utils.base64ToBytes (Utils.btoa (string_of_list_byte b)) = inr b.
Proof.
  rewrite base64ToBytes_atob, atob_btoa, list_byte_of_string_of_list_byte. reflexivity.
Qed.

Lemma base64_values_Some cs vs c :
  Utils.base64_values cs = Some vs -> In c cs -> Utils.base64_value c <> None.
Proof.
  revert vs. induction cs as [|x cs IH]; intros vs H Hin; [destruct Hin|].
  cbn [Utils.base64_values] in H.
  destruct (Utils.base64_value x) as [v|] eqn:Ex; [|discriminate].
  destruct (Utils.base64_values cs) as [vs'|]; [|discriminate].
  destruct Hin as [<- | Hin]; [congruence | eapply IH; eauto].
Qed.

Lemma remove_padding_keeps data c :
  In c data -> Utils.is_padding c = false -> In c (Utils.remove_padding data).
Proof.
  intros Hin Hc. unfold Utils.remove_padding.
  destruct (length data mod 4 =? 0)%nat; [|exact Hin].
  destruct (rev data) as [|c1 [|c2 r]] eqn:Er; try exact Hin.
  assert (Hdata : data = rev r ++ [c2; c1]).
  { rewrite <- (rev_involutive data), Er. cbn [rev]. rewrite <- app_assoc. reflexivity. }
  destruct (Utils.is_padding c1) eqn:E1; [|exact Hin].
  rewrite Hdata in Hin. apply in_app_or in Hin as [Hin | [<- | [<- | []]]].
  - destruct (Utils.is_padding c2); [exact Hin|]. cbn [rev]. apply in_or_app. auto.
  - rewrite Hc. cbn [rev]. apply in_or_app. right. left. reflexivity.
  - congruence.
Qed.

(** X20.  base64ToBytes throws InvalidCharacterError for a text that
    holds, anywhere, a character that is neither white space, nor [=], nor
    a Base64 digit. *)
Theorem base64ToBytes_rejects_a_foreign_character (base64 : string) (c : byte)
    (Hin : In c (list_byte_of_string base64))
    (Hspace : Utils.is_ASCII_whitespace c = false)
    (Hvalue : Utils.base64_value c = None)
    (Hpad : c <> "="%byte) :
  Utils.base64ToBytes base64 = inl Utils.InvalidCharacterError.
Proof.
  rewrite base64ToBytes_atob. unfold Utils.atob.
  set (data := List.filter _ _).
  assert (Hdata : In c data).
  { apply filter_In. split; [exact Hin | rewrite Hspace; reflexivity]. }
  assert (Hnp : Utils.is_padding c = false).
  { destruct (Utils.is_padding c) eqn:E; [|reflexivity]. apply is_padding_eq in E. contradiction. }
  apply remove_padding_keeps in Hdata; [|exact Hnp].
  destruct (_ =? 1)%nat; [reflexivity|].
  destruct (Utils.base64_values _) as [vs|] eqn:E; [|reflexivity].
  exfalso. eapply base64_values_Some; eauto.
Qed.

Lemma base64ToBytes_rejects_a_foreign_character_witness :
  Utils.base64ToBytes "QUJD*EVG" = inl Utils.InvalidCharacterError.
Proof.
  apply (base64ToBytes_rejects_a_foreign_character "QUJD*EVG" "*"%byte).
  - vm_compute. auto 10.
  - reflexivity.
  - reflexivity.
  - discriminate.
Defined.

(** X21.  base64ToBytes throws InvalidCharacterError for a text whose
    length, white space not counted, is 1 modulo 4. *)
Theorem base64ToBytes_rejects_one_digit_too_many (base64 : string)
    (Hlen : (length (List.filter (fun c => negb (Utils.is_ASCII_whitespace c))
                       (list_byte_of_string base64)) mod 4 = 1)%nat) :
  Utils.base64ToBytes base64 = inl Utils.InvalidCharacterError.
Proof.
  rewrite base64ToBytes_atob. unfold Utils.atob, Utils.remove_padding.
  rewrite Hlen. cbn [Nat.eqb]. rewrite Hlen. reflexivity.
Qed.

Lemma base64ToBytes_rejects_one_digit_too_many_witness :
  Utils.base64ToBytes "QUJD R" = inl Utils.InvalidCharacterError.
Proof.
  apply (base64ToBytes_rejects_one_digit_too_many "QUJD R").
  vm_compute. reflexivity.
Defined.

(** ** crypto/sm4.ts *)

Lemma output_of_two_stores (ciphertext tag : bytes) :
  cbind (typed_array_set (zeros (length ciphertext + length tag)) ciphertext 0)
        (fun output => typed_array_set output tag (length ciphertext))
  = Normal (ciphertext ++ tag).
Proof.
  unfold typed_array_set at 1. rewrite zeros_length.
  destruct (Nat.leb_spec (0 + length ciphertext) (length ciphertext + length tag)); [|lia].
  cbn [cbind]. unfold typed_array_set.
  rewrite overwrite_length by (rewrite zeros_length; lia). rewrite zeros_length.
  destruct (Nat.leb_spec (length ciphertext + length tag) (length ciphertext + length tag));
    [|lia].
  f_equal. unfold overwrite. rewrite take_0. cbn [Nat.add app].
  rewrite take_app_length.
  rewrite drop_ge by (rewrite length_app, length_drop, zeros_length; lia).
  rewrite app_nil_r. reflexivity.
Qed.

Lemma slice_before_the_tag (a : bytes) :
  (16 <= length a)%nat ->
  SM4.slice 0 (Some (- Z.of_nat SM4.SM4_GCM_TAG_SIZE)) a = take (length a - 16) a.
Proof.
  intros H. unfold SM4.slice, SM4.relative_index.
  change (- Z.of_nat SM4.SM4_GCM_TAG_SIZE) with (-16).
  change (-16 <? 0) with true. change (0 <? 0) with false. change (Z.to_nat 0) with 0%nat.
  cbv iota. rewrite Nat.min_0_l, drop_0. f_equal. lia.
Qed.

Lemma slice_the_tag (a : bytes) :
  (16 <= length a)%nat ->
  SM4.slice (- Z.of_nat SM4.SM4_GCM_TAG_SIZE) None a = drop (length a - 16) a.
Proof.
  intros H. unfold SM4.slice, SM4.relative_index.
  change (- Z.of_nat SM4.SM4_GCM_TAG_SIZE) with (-16).
  change (-16 <? 0) with true. cbv iota.
  replace (Z.to_nat (Z.max (Z.of_nat (length a) + -16) 0)) with (length a - 16)%nat by lia.
  apply take_ge. rewrite length_drop. lia.
Qed.

Lemma sm4GcmSeal_run (lib : SM4.Sm4) key nonce plaintext additionalData calls :
  length key = 16%nat -> length nonce = 12%nat ->
  SM4.sm4GcmSeal lib key nonce plaintext additionalData calls
  = (cmap (fun result => fst result ++ snd result)
          (SM4.sm4_encrypt lib plaintext key nonce additionalData),
     calls ++ [SM4.Call_sm4_encrypt plaintext key nonce additionalData]).
Proof.
  intros Hk Hn. unfold SM4.sm4GcmSeal, SM4.SM4_KEY_SIZE, SM4.SM4_GCM_NONCE_SIZE.
  rewrite Hk, Hn. cbn [Nat.eqb negb].
  unfold bind at 1.
  destruct (SM4.sm4_encrypt lib plaintext key nonce additionalData) as [[ct tag]|e];
    [|reflexivity].
  cbn [fst snd cmap cbind]. unfold bind, lift, ret.
  pose proof (output_of_two_stores ct tag) as H.
  destruct (typed_array_set (zeros (length ct + length tag)) ct 0) as [o1|e1];
    cbn [cbind] in H; [|discriminate].
  rewrite H. reflexivity.
Qed.

Lemma sm4GcmOpen_run (lib : SM4.Sm4) key nonce ciphertextWithTag additionalData calls :
  length key = 16%nat -> length nonce = 12%nat -> (16 <= length ciphertextWithTag)%nat ->
  let ciphertext := take (length ciphertextWithTag - 16) ciphertextWithTag in
  let tag := drop (length ciphertextWithTag - 16) ciphertextWithTag in
  SM4.sm4GcmOpen lib key nonce ciphertextWithTag additionalData calls
  = (SM4.sm4_decrypt lib ciphertext key nonce additionalData tag,
     calls ++ [SM4.Call_sm4_decrypt ciphertext key nonce additionalData tag]).
Proof.
  intros Hk Hn Hc. cbv zeta.
  unfold SM4.sm4GcmOpen, SM4.SM4_KEY_SIZE, SM4.SM4_GCM_NONCE_SIZE.
  rewrite Hk, Hn. cbn [Nat.eqb negb].
  destruct (Nat.ltb_spec (length ciphertextWithTag) SM4.SM4_GCM_TAG_SIZE) as [Hlt|_];
    [unfold SM4.SM4_GCM_TAG_SIZE in Hlt; lia|].
  rewrite slice_before_the_tag, slice_the_tag by exact Hc.
  unfold bind, ret.
  destruct (SM4.sm4_decrypt lib _ key nonce additionalData _); reflexivity.
Qed.

(** X22.  sm4GcmSeal, for a key of 16 bytes and a nonce of 12 bytes, calls
    [sm4.encrypt] once and returns the ciphertext followed by the tag (or
    throws what the call throws); for a key of another length, and then for
    a nonce of another length, it throws the error that names the size and
    calls nothing. *)
Theorem sm4GcmSeal_checks_sizes_then_appends_the_tag (lib : SM4.Sm4)
    (key nonce plaintext additionalData : bytes) (calls : list SM4.LibCall) :
  let r := SM4.sm4GcmSeal lib key nonce plaintext additionalData calls in
  (length key = 16%nat /\ length nonce = 12%nat /\
   r = (cmap (fun result => fst result ++ snd result)
             (SM4.sm4_encrypt lib plaintext key nonce additionalData),
        calls ++ [SM4.Call_sm4_encrypt plaintext key nonce additionalData]))
  \/
  (length key <> 16%nat /\
   r = (Throw (Error "SM4 key must be 16 bytes"), calls))
  \/
  (length key = 16%nat /\ length nonce <> 12%nat /\
   r = (Throw (Error "SM4-GCM nonce must be 12 bytes"), calls)).
Proof.
  cbv zeta.
  destruct (Nat.eq_dec (length key) 16%nat) as [Hk | Hk].
  - destruct (Nat.eq_dec (length nonce) 12%nat) as [Hn | Hn].
    + left. repeat split; try assumption. apply sm4GcmSeal_run; assumption.
    + right. right. repeat split; try assumption.
      unfold SM4.sm4GcmSeal, SM4.SM4_KEY_SIZE, SM4.SM4_GCM_NONCE_SIZE.
      rewrite Hk. destruct (Nat.eqb_spec (length nonce) 12); [contradiction | reflexivity].
  - right. left. split; [assumption|].
    unfold SM4.sm4GcmSeal, SM4.SM4_KEY_SIZE.
    destruct (Nat.eqb_spec (length key) 16); [contradiction | reflexivity].
Qed.

(** X23.  sm4GcmOpen, for a key of 16 bytes, a nonce of 12 bytes and an
    input of at least 16 bytes, calls [sm4.decrypt] once, on the input
    without its last 16 bytes and with these as the tag, and returns or
    throws what the call does; a key of another length, then a nonce of
    another length, then an input of less than 16 bytes is refused with its
    own error, and nothing is called. *)
Theorem sm4GcmOpen_checks_sizes_then_splits_off_the_tag (lib : SM4.Sm4)
    (key nonce ciphertextWithTag additionalData : bytes) (calls : list SM4.LibCall) :
  let n := length ciphertextWithTag in
  let ciphertext := take (n - 16) ciphertextWithTag in
  let tag := drop (n - 16) ciphertextWithTag in
  let r := SM4.sm4GcmOpen lib key nonce ciphertextWithTag additionalData calls in
  (length key = 16%nat /\ length nonce = 12%nat /\ (16 <= n)%nat /\
   r = (SM4.sm4_decrypt lib ciphertext key nonce additionalData tag,
        calls ++ [SM4.Call_sm4_decrypt ciphertext key nonce additionalData tag]))
  \/
  (length key <> 16%nat /\
   r = (Throw (Error "SM4 key must be 16 bytes"), calls))
  \/
  (length key = 16%nat /\ length nonce <> 12%nat /\
   r = (Throw (Error "SM4-GCM nonce must be 12 bytes"), calls))
  \/
  (length key = 16%nat /\ length nonce = 12%nat /\ (n < 16)%nat /\
   r = (Throw (Error "Ciphertext too short"), calls)).
Proof.
  cbv zeta.
  destruct (Nat.eq_dec (length key) 16%nat) as [Hk | Hk].
  - destruct (Nat.eq_dec (length nonce) 12%nat) as [Hn | Hn].
    + destruct (Nat.le_gt_cases 16%nat (length ciphertextWithTag)) as [Hc | Hc].
      * left. repeat split; try assumption. apply sm4GcmOpen_run; assumption.
      * right. right. right. repeat split; try assumption.
        unfold SM4.sm4GcmOpen, SM4.SM4_KEY_SIZE, SM4.SM4_GCM_NONCE_SIZE, SM4.SM4_GCM_TAG_SIZE.
        rewrite Hk, Hn. cbn [Nat.eqb negb].
        destruct (Nat.ltb_spec (length ciphertextWithTag) 16); [reflexivity | lia].
    + right. right. left. repeat split; try assumption.
      unfold SM4.sm4GcmOpen, SM4.SM4_KEY_SIZE, SM4.SM4_GCM_NONCE_SIZE.
      rewrite Hk. destruct (Nat.eqb_spec (length nonce) 12); [contradiction | reflexivity].
  - right. left. split; [assumption|].
    unfold SM4.sm4GcmOpen, SM4.SM4_KEY_SIZE.
    destruct (Nat.eqb_spec (length key) 16); [contradiction | reflexivity].
Qed.

(** X24.  When the package encrypts a plaintext to a ciphertext and a tag
    of 16 bytes, and decrypts these to the plaintext, sm4GcmSeal returns
    ciphertext and tag in one array and sm4GcmOpen, applied to that array,
    returns the plaintext. *)
Theorem sm4GcmOpen_undoes_sm4GcmSeal (lib : SM4.Sm4)
    (key nonce plaintext additionalData ciphertext tag : bytes)
    (calls calls' : list SM4.LibCall)
    (Hkey : length key = 16%nat)
    (Hnonce : length nonce = 12%nat)
    (Henc : SM4.sm4_encrypt lib plaintext key nonce additionalData = Normal (ciphertext, tag))
    (Htag : length tag = 16%nat)
    (Hdec : SM4.sm4_decrypt lib ciphertext key nonce additionalData tag = Normal plaintext) :
  fst (SM4.sm4GcmSeal lib key nonce plaintext additionalData calls)
  = Normal (ciphertext ++ tag) /\
  fst (SM4.sm4GcmOpen lib key nonce (ciphertext ++ tag) additionalData calls')
  = Normal plaintext.
Proof.
  rewrite sm4GcmSeal_run by assumption.
  rewrite sm4GcmOpen_run by (try assumption; rewrite length_app; lia).
  rewrite Henc. cbn [fst cmap cbind snd].
  rewrite length_app, Htag.
  replace (length ciphertext + 16 - 16)%nat with (length ciphertext) by lia.
  rewrite take_app_length, drop_app_length, Hdec. auto.
Qed.

Lemma sm4GcmOpen_undoes_sm4GcmSeal_witness :
  fst (SM4.sm4GcmSeal DemoGM.sm4 (zeros 16) (zeros 12) [x01; x02; x03] [xaa] [])
  = Normal ([x03; x02; x01] ++ Demo.pad 16 ([xaa] ++ zeros 12 ++ zeros 16)) /\
  fst (SM4.sm4GcmOpen DemoGM.sm4 (zeros 16) (zeros 12)
         ([x03; x02; x01] ++ Demo.pad 16 ([xaa] ++ zeros 12 ++ zeros 16)) [xaa] [])
  = Normal [x01; x02; x03].
Proof.
  apply (sm4GcmOpen_undoes_sm4GcmSeal DemoGM.sm4 (zeros 16) (zeros 12) [x01; x02; x03] [xaa]
           [x03; x02; x01] (Demo.pad 16 ([xaa] ++ zeros 12 ++ zeros 16)) [] []).
  - reflexivity.
  - reflexivity.
  - reflexivity.
  - reflexivity.
  - reflexivity.
Defined.

(** ** crypto/sm2.ts: the key functions *)

Lemma substring_whole s : String.substring 0 (String.length s) s = s.
Proof. induction s as [|c s IH]; cbn; [reflexivity | rewrite IH; reflexivity]. Qed.

Lemma strip_04_prefixed h : SM2.strip_04 (String.append "04" h) = h.
Proof.
  unfold SM2.strip_04.
  replace (String.prefix "04" (String.append "04" h)) with true
    by (destruct h; reflexivity).
  cbn [String.append String.length Nat.sub String.substring].
  rewrite Nat.sub_0_r. apply substring_whole.
Qed.

Lemma strip_04_other h : String.prefix "04" h = false -> SM2.strip_04 h = h.
Proof. unfold SM2.strip_04. intros ->. reflexivity. Qed.

(** X25.  generateSM2KeyPair decodes a public key text that starts with 04
    without these two characters, be they the format prefix or the first
    byte of an unprefixed key, and any other text whole. *)
Theorem generateSM2KeyPair_drops_a_leading_04 (tools : SM2.KeyTools) (privateKeyHex h : string) :
  let decoded pub :=
    cbind (SM2.hexToBytes tools privateKeyHex)
          (fun privateKey => cmap (pair privateKey) (SM2.hexToBytes tools pub)) in
  SM2.generateSM2KeyPair tools (privateKeyHex, String.append "04" h) = decoded h /\
  (String.prefix "04" h = false ->
   SM2.generateSM2KeyPair tools (privateKeyHex, h) = decoded h).
Proof.
  cbv zeta. unfold SM2.generateSM2KeyPair. cbn [fst snd]. split.
  - rewrite strip_04_prefixed. reflexivity.
  - intros H. rewrite strip_04_other by exact H. reflexivity.
Qed.

(** X26.  deriveSM2PublicKey throws the size error for a private key that
    is not 32 bytes long, whatever the package would do; and so does
    deriveSM2PublicKeyFromBase64 for a text that decodes to such a key. *)
Theorem deriveSM2PublicKey_rejects_a_key_of_another_size (lib : SM2.SmCrypto)
    (tools : SM2.KeyTools) (privateKey : bytes)
    (Hsize : length privateKey <> 32%nat) :
  SM2.deriveSM2PublicKey lib tools privateKey
  = Throw (Error "SM2 private key must be 32 bytes") /\
  (forall privateKeyBase64,
      SM2.base64ToBytes tools privateKeyBase64 = Normal privateKey ->
      SM2.deriveSM2PublicKeyFromBase64 lib tools privateKeyBase64
      = Throw (Error "SM2 private key must be 32 bytes")).
Proof.
  assert (H : SM2.deriveSM2PublicKey lib tools privateKey
              = Throw (Error "SM2 private key must be 32 bytes")).
  { unfold SM2.deriveSM2PublicKey, SM2.SM2_PRIVATE_KEY_SIZE.
    destruct (Nat.eqb_spec (length privateKey) 32); [contradiction | reflexivity]. }
  split; [exact H|].
  intros b64 Hb. unfold SM2.deriveSM2PublicKeyFromBase64. rewrite Hb. cbn [cbind].
  rewrite H. reflexivity.
Qed.

Lemma deriveSM2PublicKey_rejects_a_key_of_another_size_witness :
  SM2.deriveSM2PublicKey Demo.sm DemoGM.tools (zeros 31)
  = Throw (Error "SM2 private key must be 32 bytes") /\
  (forall privateKeyBase64,
      SM2.base64ToBytes DemoGM.tools privateKeyBase64 = Normal (zeros 31) ->
      SM2.deriveSM2PublicKeyFromBase64 Demo.sm DemoGM.tools privateKeyBase64
      = Throw (Error "SM2 private key must be 32 bytes")).
Proof.
  apply (deriveSM2PublicKey_rejects_a_key_of_another_size Demo.sm DemoGM.tools (zeros 31)).
  vm_compute. lia.
Defined.

(** X27.  For a key pair that generateSM2KeyPair returned, with a private
    key of 32 bytes whose hex text is the one the package generated, and a
    package whose [getPublicKeyFromPrivateKey] gives the generated public
    key, deriveSM2PublicKey of the private key is the public key of the
    pair. *)
Theorem deriveSM2PublicKey_agrees_with_generateSM2KeyPair (lib : SM2.SmCrypto)
    (tools : SM2.KeyTools) (keyPair : string * string) (privateKey publicKey : bytes)
    (Hgenerated : SM2.generateSM2KeyPair tools keyPair = Normal (privateKey, publicKey))
    (Hsize : length privateKey = 32%nat)
    (Hhex : SM2.bytesToHex lib privateKey = fst keyPair)
    (Hpackage : SM2.sm2_getPublicKeyFromPrivateKey tools (fst keyPair) = Normal (snd keyPair)) :
  SM2.deriveSM2PublicKey lib tools privateKey = Normal publicKey.
Proof.
  unfold SM2.generateSM2KeyPair in Hgenerated.
  destruct (SM2.hexToBytes tools (fst keyPair)) as [priv|]; cbn [cbind] in Hgenerated;
    [|discriminate].
  destruct (SM2.hexToBytes tools (SM2.strip_04 (snd keyPair))) as [pub|] eqn:Epub;
    cbn [cbind] in Hgenerated; [|discriminate].
  injection Hgenerated as -> ->.
  unfold SM2.deriveSM2PublicKey, SM2.SM2_PRIVATE_KEY_SIZE.
  rewrite Hsize. cbn [Nat.eqb negb]. rewrite Hhex, Hpackage. cbn [cbind]. exact Epub.
Qed.

Lemma deriveSM2PublicKey_agrees_with_generateSM2KeyPair_witness :
  SM2.deriveSM2PublicKey Demo.sm DemoGM.tools (list_byte_of_string DemoGM.privateKeyHex)
  = Normal (list_byte_of_string (String.append DemoGM.privateKeyHex DemoGM.privateKeyHex)).
Proof.
  apply (deriveSM2PublicKey_agrees_with_generateSM2KeyPair Demo.sm DemoGM.tools DemoGM.keyPair).
  - reflexivity.
  - reflexivity.
  - reflexivity.
  - reflexivity.
Defined.

(* ===================================================================== *)
(** * Part V: the claims on lines 117 to 175                              *)
(* ===================================================================== *)

(** ** C2: the nonce of the seals *)



(** With 258 in the counter field, lines 117 to 175 return in the demo
    world after three seals, each under the nonce of ten zero bytes, 01
    and 02. *)
Example handshake_nonce_in_the_demo_world :
  let st := set_packet (overwrite 16 (Z_to_be 8 258) (zeros PacketBufferSize))
              Demo.initial_state in
  let r := build_handshake Demo.crypto Demo.host Demo.draws Demo.header (zeros 32) (zeros 32)
             Demo.publicKey Demo.remotePublicKey [x01; x02; x03] st in
  (exists p, fst r = Normal p) /\
  NHPHeader.get_counter Demo.header (packet st) = Normal 258 /\
  seal_inputs (trace (snd r))
  = handshake_seals Demo.host (zeros 10 ++ [x01; x02]) Demo.publicKey [x01; x02; x03].
Proof. vm_compute. split; [eexists; reflexivity | split; reflexivity]. Qed.

(** ** C8: oversize payloads *)



